(** * Scheduling API: a shallow embedding of the resolution pipeline

    The repository is one JavaScript file in three revisions:
    [src/src/scheduling-api.js], and the two later revisions kept one after
    the other in [src/unnamed/part_000].  The embedding follows the first
    revision of [part_000] (its lines 1 to 774), the one with the relevance
    filter, the normalizer and the "FIXED" [adjustToFuture]; where the
    other revisions differ and it matters, they are quoted.

    The layout follows the source.  The regular expressions are kept as
    syntax trees, next to their source text, and run by a backtracking
    matcher ([Module Regex]).  A [Date] is its time value, milliseconds
    since the epoch, with the calendar arithmetic of the language ([Module
    JSDate]); all dates of the program are valid, so there is no [NaN].
    The process runs in a zone with a fixed offset from UTC ([LocalTZA], a
    server kept in UTC or in any zone without daylight-saving transitions):
    every statement about local time is made for such a host.  In a zone
    with transitions the local-time methods of [Date] follow the rules of
    the zone (a day of 23 or 25 hours, a wall-clock time that does not
    exist), which the embedding does not have.
    Every [new Date()] is a read of the wall clock, kept as an explicit
    effect ([Module Clock]).  The collaborators that are not part of the
    repository (the alias table [timezoneMap.json], luxon's
    [DateTime.fromObject], chrono's [parse]) are the fields of a [Host].

    Texts are strings of 8-bit characters (ASCII).  Logging and the display
    strings of the JSON bodies are left out, but for the name of a manual
    offset ([manualTimezone]).  Of the second revision of [part_000] the
    embedding has [adjustToFuture] and [parseDateRange] ([Module Second]). *)

From Stdlib Require Import ZArith List String Ascii Bool Lia Arith DecimalString.
Import ListNotations.

Local Open Scope string_scope.
Local Open Scope Z_scope.

(* ================================================================== *)
(** ** Regular expressions, as the source writes them *)
(* ================================================================== *)

Module Regex.

(** Character sets: [\d], [\s], [.], a literal, a bracket class. *)
Inductive charset : Type :=
| CDigit
| CSpace
| CAny
| CLit (c : ascii)
| COneOf (cs : string)
| CRange (lo hi : ascii).

Inductive regex : Type :=
| Eps
| Chr (cs : charset)
| Seq (r1 r2 : regex)
| Alt (r1 r2 : regex)
| Rep (greedy : bool) (lo : nat) (hi : option nat) (r : regex)
| Group (i : nat) (r : regex)
| WordBoundary
| NegLookahead (r : regex)
| StartAnchor.

Definition code (c : ascii) : nat := nat_of_ascii c.

Definition is_digit (c : ascii) : bool :=
  (48 <=? code c)%nat && (code c <=? 57)%nat.

Definition is_upper (c : ascii) : bool :=
  (65 <=? code c)%nat && (code c <=? 90)%nat.

Definition is_lower (c : ascii) : bool :=
  (97 <=? code c)%nat && (code c <=? 122)%nat.

(** [\w]: letters, digits and the underscore. *)
Definition is_word (c : ascii) : bool :=
  is_digit c || is_upper c || is_lower c || (code c =? 95)%nat.

(** [\s] and [trim]: tab, line feed, vertical tab, form feed, carriage
    return, space, no-break space. *)
Definition is_space (c : ascii) : bool :=
  ((9 <=? code c)%nat && (code c <=? 13)%nat)
  || (code c =? 32)%nat || (code c =? 160)%nat.

Definition is_line_terminator (c : ascii) : bool :=
  (code c =? 10)%nat || (code c =? 13)%nat.

Definition lower_char (c : ascii) : ascii :=
  if is_upper c then ascii_of_nat (code c + 32) else c.

Fixpoint toLowerCase (s : string) : string :=
  match s with
  | EmptyString => EmptyString
  | String c s' => String (lower_char c) (toLowerCase s')
  end.

Definition upper_char (c : ascii) : ascii :=
  if is_lower c then ascii_of_nat (code c - 32) else c.

Definition in_range (lo hi c : ascii) : bool :=
  (code lo <=? code c)%nat && (code c <=? code hi)%nat.

(** Under the [i] flag both sides are folded before they are compared. *)
Definition canon (ic : bool) (c : ascii) : ascii :=
  if ic then lower_char c else c.

Fixpoint mem_char (ic : bool) (c : ascii) (cs : string) : bool :=
  match cs with
  | EmptyString => false
  | String d cs' => Ascii.eqb (canon ic d) (canon ic c) || mem_char ic c cs'
  end.

Definition char_matches (ic : bool) (cs : charset) (c : ascii) : bool :=
  match cs with
  | CDigit => is_digit c
  | CSpace => is_space c
  | CAny => negb (is_line_terminator c)
  | CLit d => Ascii.eqb (canon ic d) (canon ic c)
  | COneOf l => mem_char ic c l
  | CRange lo hi =>
      in_range lo hi c
      || (ic && (in_range lo hi (lower_char c) || in_range lo hi (upper_char c)))
  end.

(** The matcher's state: the position, the character before it (for [\b]),
    the text that is left, and the capture groups closed so far as
    (group, (start, end)). *)
Record mstate : Type := MState {
  pos : nat;
  prev : option ascii;
  rest : string;
  caps : list (nat * (nat * nat))
}.

Definition init_state (s : string) : mstate := MState 0 None s [].

Definition advance (c : ascii) (r : string) (s : mstate) : mstate :=
  MState (S (pos s)) (Some c) r (caps s).

Definition set_cap (i : nat) (b e : nat) (s : mstate) : mstate :=
  MState (pos s) (prev s) (rest s) ((i, (b, e)) :: caps s).

Definition word_before (s : mstate) : bool :=
  match prev s with Some c => is_word c | None => false end.

Definition word_after (s : mstate) : bool :=
  match rest s with String c _ => is_word c | EmptyString => false end.

Definition or_else {A} (x y : option A) : option A :=
  match x with Some _ => x | None => y end.

(** Backtracking matcher in continuation-passing style: [k] is the rest of
    the pattern.  A quantifier tries its iterations in the order of the
    language (greedy: one more first; lazy: stop first) and, once its minimum
    is reached, refuses an iteration that consumed nothing. *)
Fixpoint rmatch (ic : bool) (r : regex) (k : mstate -> option mstate)
         (s : mstate) {struct r} : option mstate :=
  match r with
  | Eps => k s
  | Chr cs =>
      match rest s with
      | String c r' => if char_matches ic cs c then k (advance c r' s) else None
      | EmptyString => None
      end
  | Seq r1 r2 => rmatch ic r1 (rmatch ic r2 k) s
  | Alt r1 r2 => or_else (rmatch ic r1 k s) (rmatch ic r2 k s)
  | Rep greedy lo hi r' =>
      let budget :=
        match hi with
        | Some h => h
        | None => (lo + String.length (rest s))%nat
        end in
      (fix loop (n cnt : nat) (s0 : mstate) {struct n} : option mstate :=
         let stop := if (lo <=? cnt)%nat then k s0 else None in
         match n with
         | O => stop
         | S n' =>
             let more :=
               rmatch ic r'
                 (fun s1 =>
                    if (cnt <? lo)%nat || negb (pos s1 =? pos s0)%nat
                    then loop n' (S cnt) s1 else None) s0 in
             if greedy then or_else more stop else or_else stop more
         end) budget O s
  | Group i r' => rmatch ic r' (fun s1 => k (set_cap i (pos s) (pos s1) s1)) s
  | WordBoundary => if xorb (word_before s) (word_after s) then k s else None
  | NegLookahead r' =>
      match rmatch ic r' Some s with
      | Some _ => None
      | None => k s
      end
  | StartAnchor => if (pos s =? 0)%nat then k s else None
  end.

(** The result of [String.prototype.match] without the [g] flag: where the
    match starts and ends, and the groups. *)
Record match_result : Type := MatchResult {
  m_index : nat;
  m_end : nat;
  m_caps : list (nat * (nat * nat));
  m_input : string
}.

(** Leftmost match at or after the state's position. *)
Fixpoint search (ic : bool) (r : regex) (input : string) (fuel : nat)
         (s : mstate) : option match_result :=
  match rmatch ic r Some (MState (pos s) (prev s) (rest s) []) with
  | Some e => Some (MatchResult (pos s) (pos e) (caps e) input)
  | None =>
      match fuel, rest s with
      | S fuel', String c r' => search ic r input fuel' (advance c r' s)
      | _, _ => None
      end
  end.

Definition exec (ic : bool) (r : regex) (input : string) : option match_result :=
  search ic r input (String.length input) (init_state input).

Definition test (ic : bool) (r : regex) (input : string) : bool :=
  match exec ic r input with Some _ => true | None => false end.

Fixpoint lookup_cap (i : nat) (l : list (nat * (nat * nat))) : option (nat * nat) :=
  match l with
  | [] => None
  | (j, be) :: l' => if (i =? j)%nat then Some be else lookup_cap i l'
  end.

(** [match[i]]: the text of group [i], [None] for [undefined]. *)
Definition group (m : match_result) (i : nat) : option string :=
  match lookup_cap i (m_caps m) with
  | Some (b, e) => Some (substring b (e - b) (m_input m))
  | None => None
  end.

(** [text.replace(/r/g, f)]: every match, left to right, is replaced by what
    the callback returns; the search resumes where the match ended. *)
Fixpoint replace_from (ic : bool) (r : regex) (f : match_result -> string)
         (input : string) (fuel : nat) (s : mstate) : string :=
  match fuel with
  | O => rest s
  | S fuel' =>
      match search ic r input (String.length (rest s)) s with
      | None => rest s
      | Some m =>
          let skipped := substring 0 (m_index m - pos s) (rest s) in
          let after := substring (m_end m - pos s)
                         (String.length (rest s)) (rest s) in
          let last :=
            match get (m_end m - 1) input with
            | Some c => if (m_end m =? 0)%nat then None else Some c
            | None => None
            end in
          if (m_end m =? m_index m)%nat then
            match after with
            | String c after' =>
                skipped ++ f m ++ String c
                  (replace_from ic r f input fuel'
                     (MState (S (m_end m)) (Some c) after' []))
            | EmptyString => skipped ++ f m
            end
          else
            skipped ++ f m ++
              replace_from ic r f input fuel'
                (MState (m_end m) last after [])
      end
  end.

Definition replace_all (ic : bool) (r : regex) (f : match_result -> string)
           (input : string) : string :=
  replace_from ic r f input (S (String.length input)) (init_state input).

(** Builders that keep the patterns below close to the source text. *)
Fixpoint lit (s : string) : regex :=
  match s with
  | EmptyString => Eps
  | String c EmptyString => Chr (CLit c)
  | String c s' => Seq (Chr (CLit c)) (lit s')
  end.

Fixpoint seqs (l : list regex) : regex :=
  match l with
  | [] => Eps
  | [r] => r
  | r :: l' => Seq r (seqs l')
  end.

Fixpoint alts (l : list regex) : regex :=
  match l with
  | [] => Eps
  | [r] => r
  | r :: l' => Alt r (alts l')
  end.

Definition words (l : list string) : regex := alts (map lit l).

Definition opt (r : regex) : regex := Rep true 0 (Some 1%nat) r.
Definition star (r : regex) : regex := Rep true 0 None r.
Definition plus (r : regex) : regex := Rep true 1 None r.
Definition lazy_star (r : regex) : regex := Rep false 0 None r.
Definition times (lo hi : nat) (r : regex) : regex := Rep true lo (Some hi) r.

Definition digit : regex := Chr CDigit.
Definition ws : regex := Chr CSpace.
Definition d12 : regex := times 1 2 digit.       (* \d{1,2} *)
Definition d2 : regex := times 2 2 digit.        (* \d{2} *)
Definition sign : regex := Chr (COneOf "+-").     (* [+-] *)

End Regex.

Import Regex.

(* ================================================================== *)
(** ** ECMAScript [Date]: time values and the calendar *)
(* ================================================================== *)

Module JSDate.

Definition msPerSecond : Z := 1000.
Definition msPerMinute : Z := 60000.
Definition msPerHour : Z := 3600000.
Definition msPerDay : Z := 86400000.

Definition Day (t : Z) : Z := t / msPerDay.
Definition TimeWithinDay (t : Z) : Z := t mod msPerDay.

(** The proleptic Gregorian calendar, by 400-year eras of 146097 days
    that start on 1 March. *)
Definition civil_of_era_day (doe : Z) : Z * Z * Z :=
  let yoe := (doe - doe / 1460 + doe / 36524 - doe / 146096) / 365 in
  let doy := doe - (365 * yoe + yoe / 4 - yoe / 100) in
  let mp := (5 * doy + 2) / 153 in
  let d := doy - (153 * mp + 2) / 5 + 1 in
  let m := if mp <? 10 then mp + 3 else mp - 9 in
  (if m <=? 2 then yoe + 1 else yoe, m, d).

Definition civil_from_days (z : Z) : Z * Z * Z :=
  let z' := z + 719468 in
  let era := z' / 146097 in
  match civil_of_era_day (z' mod 146097) with
  | (y, m, d) => (y + era * 400, m, d)
  end.

Definition days_from_civil (y m d : Z) : Z :=
  let y' := if m <=? 2 then y - 1 else y in
  let era := y' / 400 in
  let yoe := y' mod 400 in
  let doy := (153 * (if m >? 2 then m - 3 else m + 9) + 2) / 5 + d - 1 in
  let doe := yoe * 365 + yoe / 4 - yoe / 100 + doy in
  era * 146097 + doe - 719468.

Definition YearFromTime (t : Z) : Z :=
  match civil_from_days (Day t) with (y, _, _) => y end.

(** Months count from 0, as in the language. *)
Definition MonthFromTime (t : Z) : Z :=
  match civil_from_days (Day t) with (_, m, _) => m - 1 end.

Definition DateFromTime (t : Z) : Z :=
  match civil_from_days (Day t) with (_, _, d) => d end.

(** Sunday is 0; 1 January 1970 was a Thursday. *)
Definition WeekDay (t : Z) : Z := (Day t + 4) mod 7.

Definition HourFromTime (t : Z) : Z := (t / msPerHour) mod 24.
Definition MinFromTime (t : Z) : Z := (t / msPerMinute) mod 60.
Definition SecFromTime (t : Z) : Z := (t / msPerSecond) mod 60.

Definition MakeTime (h m s ms : Z) : Z :=
  h * msPerHour + m * msPerMinute + s * msPerSecond + ms.

(** A month outside 0..11 carries into the year, a date outside the month
    carries into the following (or preceding) months. *)
Definition MakeDay (year month date : Z) : Z :=
  days_from_civil (year + month / 12) (month mod 12 + 1) 1 + date - 1.

Definition MakeDate (day time : Z) : Z := day * msPerDay + time.

(** The methods of a [Date] whose time value is [t], in a host whose local
    time is UTC plus [tza] milliseconds at every instant: a zone with a
    fixed offset, without daylight-saving transitions.  There
    [LocalTime] and [UTC] of the language are the two shifts below, every
    local day has 24 hours and every wall-clock time exists once.  In a
    zone with transitions the offset depends on the instant, and the
    methods that set local fields differ from these around a transition. *)
Section Local.
Variable tza : Z.

Definition LocalTime (t : Z) : Z := t + tza.
Definition UTC (t : Z) : Z := t - tza.

Definition getFullYear (t : Z) : Z := YearFromTime (LocalTime t).
Definition getMonth (t : Z) : Z := MonthFromTime (LocalTime t).
Definition getDate (t : Z) : Z := DateFromTime (LocalTime t).
Definition getDay (t : Z) : Z := WeekDay (LocalTime t).
Definition getHours (t : Z) : Z := HourFromTime (LocalTime t).
Definition getMinutes (t : Z) : Z := MinFromTime (LocalTime t).
Definition getSeconds (t : Z) : Z := SecFromTime (LocalTime t).

(** [d.setDate(date)] keeps the month and the local time of day.  At a
    fixed offset [setDate(getDate() + k)] moves the instant by exactly [k]
    times 24 hours; across a daylight-saving transition the real method
    moves it by an hour less or more. *)
Definition setDate (t : Z) (date : Z) : Z :=
  let lt := LocalTime t in
  UTC (MakeDate (MakeDay (YearFromTime lt) (MonthFromTime lt) date)
                (TimeWithinDay lt)).

(** [d.setHours(h, m, s, ms)] keeps the local day.  At a fixed offset the
    result reads [h:m:s] on the local clock; in a zone with transitions a
    wall-clock time that is skipped is moved forward by the real method
    (02:30 becomes 03:30 on the day the clocks go forward). *)
Definition setHours (t : Z) (h m s ms : Z) : Z :=
  UTC (MakeDate (Day (LocalTime t)) (MakeTime h m s ms)).

(** [d.setMonth(month)] keeps the date of the month and the local time of
    day (at a fixed offset, as above). *)
Definition setMonth (t : Z) (month : Z) : Z :=
  let lt := LocalTime t in
  UTC (MakeDate (MakeDay (YearFromTime lt) month (DateFromTime lt))
                (TimeWithinDay lt)).

(** [new Date(year, month, date, hours, minutes, seconds, ms)]; a year
    from 0 to 99 means 1900 + year. *)
Definition newDate (year month date h m s ms : Z) : Z :=
  let yr := if (0 <=? year) && (year <=? 99) then 1900 + year else year in
  UTC (MakeDate (MakeDay yr month date) (MakeTime h m s ms)).
End Local.

(** [toLocaleString('en', { month: 'long' })]. *)
Definition monthName (month : Z) : string :=
  nth (Z.to_nat month)
    ["January"; "February"; "March"; "April"; "May"; "June"; "July";
     "August"; "September"; "October"; "November"; "December"] "".

(** [Math.floor(date.getTime() / 1000)]. *)
Definition unixSeconds (t : Z) : Z := t / 1000.

End JSDate.

Import JSDate.

(* ================================================================== *)
(** ** The wall clock *)
(* ================================================================== *)

Module Clock.

(** A computation that may read the clock: [NewDate k] is [new Date()]
    followed by [k] applied to the instant that was read. *)
Inductive Clocked (A : Type) : Type :=
| Ret (a : A)
| NewDate (k : Z -> Clocked A).

Arguments Ret {A} a.
Arguments NewDate {A} k.

Fixpoint bind {A B} (m : Clocked A) (f : A -> Clocked B) : Clocked B :=
  match m with
  | Ret a => f a
  | NewDate k => NewDate (fun now => bind (k now) f)
  end.

Definition new_Date : Clocked Z := NewDate Ret.

(** A clock gives the instant of its n-th reading. *)
Definition clock : Type := nat -> Z.

(** Run against a clock from its n-th reading on: the value and the number
    of the next reading. *)
Fixpoint run {A} (m : Clocked A) (c : clock) (n : nat) : A * nat :=
  match m with
  | Ret a => (a, n)
  | NewDate k => run (k (c n)) c (S n)
  end.

(** Run with the clock stopped at [now]. *)
Fixpoint run_at {A} (now : Z) (m : Clocked A) : A :=
  match m with
  | Ret a => a
  | NewDate k => run_at now (k now)
  end.

Definition result {A} (m : Clocked A) (c : clock) : A := fst (run m c O).
Definition reads {A} (m : Clocked A) (c : clock) : nat := snd (run m c O).

Fixpoint mapM {A B} (f : A -> Clocked B) (l : list A) : Clocked (list B) :=
  match l with
  | [] => Ret []
  | x :: l' => bind (f x) (fun y => bind (mapM f l') (fun ys => Ret (y :: ys)))
  end.

End Clock.

Import Clock.

Notation "x <- m ;; k" := (bind m (fun x => k))
  (at level 61, m at next level, right associativity).

(* ================================================================== *)
(** ** String helpers of the language *)
(* ================================================================== *)

Module JSString.

(** [s.includes(sub)]. *)
Fixpoint includes (s sub : string) : bool :=
  prefix sub s ||
  match s with
  | EmptyString => false
  | String _ s' => includes s' sub
  end.

Fixpoint trimStart (s : string) : string :=
  match s with
  | String c s' => if is_space c then trimStart s' else s
  | EmptyString => EmptyString
  end.

Fixpoint trimEnd (s : string) : string :=
  match s with
  | EmptyString => EmptyString
  | String c s' =>
      match trimEnd s' with
      | EmptyString => if is_space c then EmptyString else String c EmptyString
      | t => String c t
      end
  end.

Definition trim (s : string) : string := trimEnd (trimStart s).

Fixpoint digits_value (acc : Z) (seen : bool) (s : string) : option Z :=
  match s with
  | String c s' =>
      if is_digit c
      then digits_value (acc * 10 + Z.of_nat (code c - 48)) true s'
      else if seen then Some acc else None
  | EmptyString => if seen then Some acc else None
  end.

(** [parseInt(s)]: leading white space, an optional sign, then the longest
    run of decimal digits; [None] is [NaN].  (The hexadecimal prefix is not
    modelled: every argument in this program is a run of digits, at most
    preceded by a minus sign.) *)
Definition parseInt (s : string) : option Z :=
  match trimStart s with
  | String "-" s' => option_map Z.opp (digits_value 0 false s')
  | String "+" s' => digits_value 0 false s'
  | s' => digits_value 0 false s'
  end.

(** [parseInt(x)] where [x] may be [undefined]. *)
Definition parseInt_opt (x : option string) : option Z :=
  match x with
  | Some s => parseInt s
  | None => None
  end.

(** [n || 0] for a number that may be [NaN] or [undefined]. *)
Definition or_zero (n : option Z) : Z :=
  match n with Some z => z | None => 0 end.

End JSString.

Import JSString.

(* ================================================================== *)
(** ** The collaborators outside the repository *)
(* ================================================================== *)

(** What [detectTimezone] returns.  The source packs both cases in one
    string: ["UTC_OFFSET_<minutes>"] for a manual offset, and the zone
    identifier of the alias table otherwise; the consumers take them apart
    with [startsWith('UTC_OFFSET_')] and [parseInt].  (No zone identifier
    starts with that prefix.) *)
Inductive TimezoneSpec : Type :=
| UTC_OFFSET (minutes : Z)
| ZoneId (id : string).

(** The fields handed to luxon's [DateTime.fromObject]. *)
Record DateFields : Type := mkFields {
  f_year : Z; f_month : Z; f_day : Z;
  f_hour : Z; f_minute : Z; f_second : Z
}.

(** What [DateTime.fromObject(fields, { zone })] can do: a valid
    [DateTime] (its instant and its offset in minutes), an invalid one
    ([isValid] is false), or an exception. *)
Inductive LuxonResult : Type :=
| Valid (ts : Z) (offset : Z)
| Invalid
| Thrown.

(** A date component of a chrono result: [get(field)] for the six fields
    ([None] when chrono has no value) and [date()]. *)
Record Component : Type := mkComponent {
  c_year : option Z; c_month : option Z; c_day : option Z;
  c_hour : option Z; c_minute : option Z; c_second : option Z;
  c_date : Z
}.

Record ChronoResult : Type := mkChrono {
  r_start : Component;
  r_end : option Component
}.

Record Host : Type := mkHost {
  (** local time of the process minus UTC, in milliseconds: one number,
      the process runs in a zone with a fixed offset *)
  LocalTZA : Z;
  (** [timezoneMap.json], in the order of [Object.entries]; the keys are
      plain words (no pattern syntax) *)
  timezoneMap : list (string * string);
  (** luxon's [DateTime.fromObject(fields, { zone })] *)
  fromObject : string -> DateFields -> LuxonResult;
  (** [chrono.parse(text)], which reads the clock for its reference date *)
  chrono_parse : string -> Z -> list ChronoResult
}.

(* ================================================================== *)
(** ** The source, function by function *)
(* ================================================================== *)

(** [\d{1,2}(?::\d{2})?\s*(?:am|pm)], the time token most patterns share. *)
Definition time_token : regex :=
  seqs [d12; opt (seqs [lit ":"; d2]); star ws; words ["am"; "pm"]].

(** [(?:st|nd|rd|th)]. *)
Definition ordinal_suffix : regex := words ["st"; "nd"; "rd"; "th"].

Definition weekday_names : list string :=
  ["monday"; "tuesday"; "wednesday"; "thursday"; "friday"; "saturday"; "sunday"].

(** *** hasTimeForScheduling *)

(** The patterns with their [i] flag. *)
Definition timeIndicators : list (bool * regex) :=
  [ (* /\d{1,2}(?::\d{2})?\s*(?:am|pm|AM|PM)/ *)
    (false, seqs [d12; opt (seqs [lit ":"; d2]); star ws;
                  words ["am"; "pm"; "AM"; "PM"]]);
    (* /\b(?:[01]?\d|2[0-3]):[0-5]\d\b/ *)
    (false, seqs [WordBoundary;
                  Alt (seqs [opt (Chr (COneOf "01")); digit])
                      (seqs [lit "2"; Chr (CRange "0" "3")]);
                  lit ":"; Chr (CRange "0" "5"); digit; WordBoundary]);
    (* /\b(?:[01]\d|2[0-3])[0-5]\d(?:\s*(?:hours?|hrs?|ist|est|pst|cst|utc|gmt|[+-]\d{1,2}(?::\d{2})?))?\b/i *)
    (true, seqs [WordBoundary;
                 Alt (seqs [Chr (COneOf "01"); digit])
                     (seqs [lit "2"; Chr (CRange "0" "3")]);
                 Chr (CRange "0" "5"); digit;
                 opt (seqs [star ws;
                            alts [seqs [lit "hour"; opt (lit "s")];
                                  seqs [lit "hr"; opt (lit "s")];
                                  lit "ist"; lit "est"; lit "pst"; lit "cst";
                                  lit "utc"; lit "gmt";
                                  seqs [sign; d12; opt (seqs [lit ":"; d2])]]]);
                 WordBoundary]);
    (* /\b(?:noon|midnight|evening|morning|afternoon)\b/i *)
    (true, seqs [WordBoundary;
                 words ["noon"; "midnight"; "evening"; "morning"; "afternoon"];
                 WordBoundary]);
    (* /\bat\s+\d/ *)
    (false, seqs [WordBoundary; lit "at"; plus ws; digit]);
    (* /\d+\s*o'?clock/i *)
    (true, seqs [plus digit; star ws; lit "o"; opt (lit "'"); lit "clock"]) ].

Definition hasTimeForScheduling (text : string) : bool :=
  existsb (fun p => test (fst p) (snd p) text) timeIndicators.

(** *** preprocessText *)

(** The suffix chosen by the callbacks of patterns 1, 2 and 4. *)
Definition suffix (dayNum : Z) : string :=
  if (dayNum >=? 11) && (dayNum <=? 13) then "th"
  else if dayNum mod 10 =? 1 then "st"
  else if dayNum mod 10 =? 2 then "nd"
  else if dayNum mod 10 =? 3 then "rd"
  else "th".

Definition group_text (m : match_result) (i : nat) : string :=
  match group m i with Some s => s | None => "" end.

(* /\b(\d{1,2}(?::\d{2})?\s*(?:am|pm))\s+on\s+(\d{1,2})(?:st|nd|rd|th)?\b/gi *)
Definition pattern1 : regex :=
  seqs [WordBoundary; Group 1 time_token; plus ws; lit "on"; plus ws;
        Group 2 d12; opt ordinal_suffix; WordBoundary].

(* /\b(\d{1,2})(?:st|nd|rd|th)?\s+(\d{1,2}(?::\d{2})?\s*(?:am|pm))\b/gi *)
Definition pattern2 : regex :=
  seqs [WordBoundary; Group 1 d12; opt ordinal_suffix; plus ws;
        Group 2 time_token; WordBoundary].

(* /\b(\d{1,2}(?::\d{2})?\s*(?:am|pm))\s+(\d{1,2}(?:st|nd|rd|th))\b/gi *)
Definition pattern3 : regex :=
  seqs [WordBoundary; Group 1 time_token; plus ws;
        Group 2 (seqs [d12; ordinal_suffix]); WordBoundary].

(* /\bat\s+(\d{1,2}(?::\d{2})?\s*(?:am|pm))\s+on\s+(\d{1,2})(?:st|nd|rd|th)?\b/gi *)
Definition pattern4 : regex :=
  seqs [WordBoundary; lit "at"; plus ws; Group 1 time_token; plus ws;
        lit "on"; plus ws; Group 2 d12; opt ordinal_suffix; WordBoundary].

(** [`${time} on ${day}${suffix} of ${currentMonth}`]; [parseInt] of one or
    two digits is a number, so the suffix is always defined. *)
Definition with_suffix (currentMonth : string) (time day : string) : string :=
  time ++ " on " ++ day ++ suffix (or_zero (parseInt day))
       ++ " of " ++ currentMonth.

(** The body of [preprocessText] once the month name is known. *)
Definition preprocessWith (currentMonth : string) (text : string) : string :=
  let processedText := trim text in
  let processedText :=
    replace_all true pattern1
      (fun m => with_suffix currentMonth (group_text m 1) (group_text m 2))
      processedText in
  let processedText :=
    replace_all true pattern2
      (fun m => with_suffix currentMonth (group_text m 2) (group_text m 1))
      processedText in
  let processedText :=
    replace_all true pattern3
      (fun m => group_text m 1 ++ " on " ++ group_text m 2
                  ++ " of " ++ currentMonth)
      processedText in
  let processedText :=
    replace_all true pattern4
      (fun m => "at " ++ with_suffix currentMonth (group_text m 1) (group_text m 2))
      processedText in
  processedText.

Definition preprocessText (H : Host) (text : string) : Clocked string :=
  now <- new_Date ;;
  Ret (preprocessWith (monthName (getMonth (LocalTZA H) now)) text).

(** *** detectTimezone *)

(** The offset patterns in the order of the source, each with its
    [hasSign] field.  The first eight carry the [i] flag, the last two have
    no letters. *)
Definition offsetPatterns : list (regex * bool) :=
  [ (* /\b(utc|gmt)\s+(\d{1,2}):(\d{2})\b/i *)
    (seqs [WordBoundary; Group 1 (words ["utc"; "gmt"]); plus ws;
           Group 2 d12; lit ":"; Group 3 d2; WordBoundary], false);
    (* /\b(utc|gmt)\s+(\d{1,2})(?!\d)\b/i *)
    (seqs [WordBoundary; Group 1 (words ["utc"; "gmt"]); plus ws;
           Group 2 d12; NegLookahead digit; WordBoundary], false);
    (* /\butc\s+([+-])\s*(\d{1,2}):(\d{2})\b/i *)
    (seqs [WordBoundary; lit "utc"; plus ws; Group 1 sign; star ws;
           Group 2 d12; lit ":"; Group 3 d2; WordBoundary], true);
    (* /\butc\s+([+-])\s*(\d{1,2})(?!\d)\b/i *)
    (seqs [WordBoundary; lit "utc"; plus ws; Group 1 sign; star ws;
           Group 2 d12; NegLookahead digit; WordBoundary], true);
    (* /\butc\s*([+-])\s*(\d{1,2})(?::?(\d{2}))?\b/i *)
    (seqs [WordBoundary; lit "utc"; star ws; Group 1 sign; star ws;
           Group 2 d12; opt (seqs [opt (lit ":"); Group 3 d2]);
           WordBoundary], true);
    (* /\bgmt\s+([+-])\s*(\d{1,2}):(\d{2})\b/i *)
    (seqs [WordBoundary; lit "gmt"; plus ws; Group 1 sign; star ws;
           Group 2 d12; lit ":"; Group 3 d2; WordBoundary], true);
    (* /\bgmt\s+([+-])\s*(\d{1,2})(?!\d)\b/i *)
    (seqs [WordBoundary; lit "gmt"; plus ws; Group 1 sign; star ws;
           Group 2 d12; NegLookahead digit; WordBoundary], true);
    (* /\bgmt\s*([+-])\s*(\d{1,2})(?::?(\d{2}))?\b/i *)
    (seqs [WordBoundary; lit "gmt"; star ws; Group 1 sign; star ws;
           Group 2 d12; opt (seqs [opt (lit ":"); Group 3 d2]);
           WordBoundary], true);
    (* /\b([+-])(\d{1,2})(?::?(\d{2}))\b/ *)
    (seqs [WordBoundary; Group 1 sign; Group 2 d12;
           seqs [opt (lit ":"); Group 3 d2]; WordBoundary], true);
    (* /\b([+-])(\d{1,2})\b/ *)
    (seqs [WordBoundary; Group 1 sign; Group 2 d12; WordBoundary], true) ].

(** The two range checks that [continue] the scan. *)
Definition offsetRejected (sign : string) (hours minutes : Z) : bool :=
  ((hours >? 14) || ((hours =? 14) && (minutes >? 0)))
  || ((hours >? 12) && String.eqb sign "-").

Definition offsetMinutes (sign : string) (hours minutes : Z) : Z :=
  let totalMinutes := hours * 60 + minutes in
  if String.eqb sign "+" then totalMinutes else - totalMinutes.

(** What one matching pattern yields: [None] when a range check rejects it. *)
Definition offsetOfMatch (hasSign : bool) (m : match_result) : option Z :=
  let sign :=
    if hasSign
    then match group m 1 with
         | Some s => if String.eqb s "" then "+" else s
         | None => "+"
         end
    else "+" in
  let hours := or_zero (parseInt_opt (group m 2)) in
  let minutes :=
    match group m 3 with
    | Some s => if String.eqb s "" then 0 else or_zero (parseInt s)
    | None => 0
    end in
  if offsetRejected sign hours minutes then None
  else Some (offsetMinutes sign hours minutes).

(** The [for] loop over the offset patterns. *)
Fixpoint scanOffsets (ps : list (regex * bool)) (lowerText : string) : option Z :=
  match ps with
  | [] => None
  | (pattern, hasSign) :: ps' =>
      match exec true pattern lowerText with
      | Some m =>
          match offsetOfMatch hasSign m with
          | Some minutes => Some minutes
          | None => scanOffsets ps' lowerText
          end
      | None => scanOffsets ps' lowerText
      end
  end.

(** [new RegExp(`\\b${key}\\b`, 'i')]. *)
Definition aliasPattern (key : string) : regex :=
  seqs [WordBoundary; lit key; WordBoundary].

(** The [for] loop over the entries of the alias table. *)
Fixpoint scanAliases (entries : list (string * string)) (lowerText : string)
  : option string :=
  match entries with
  | [] => None
  | (key, timezone) :: entries' =>
      if test true (aliasPattern key) lowerText then Some timezone
      else scanAliases entries' lowerText
  end.

Definition detectTimezone (H : Host) (text : string) : option TimezoneSpec :=
  let lowerText := toLowerCase text in
  match scanOffsets offsetPatterns lowerText with
  | Some minutes => Some (UTC_OFFSET minutes)
  | None => option_map ZoneId (scanAliases (timezoneMap H) lowerText)
  end.

(** [if (detectedTimezone)]: [null] and the empty string are falsy. *)
Definition truthy (tz : option TimezoneSpec) : option TimezoneSpec :=
  match tz with
  | Some (ZoneId "") => None
  | _ => tz
  end.

(** *** adjustToFuture *)

Definition oneDayMs : Z := 24 * 60 * 60 * 1000.
Definition oneWeekMs : Z := 7 * oneDayMs.

(* /\b(monday|tuesday|wednesday|thursday|friday|saturday|sunday)\b/i *)
Definition dayOfWeekPattern : regex :=
  seqs [WordBoundary; Group 1 (words weekday_names); WordBoundary].

(* /^\s*\d{1,2}(?::\d{2})?\s*(?:am|pm)/i *)
Definition timeOnlyPattern : regex :=
  seqs [StartAnchor; star ws; time_token].

(** The body of [adjustToFuture] after [const now = new Date()]. *)
Definition adjustToFutureAt (tza : Z) (now jsDate : Z) (originalText : string)
           (isEndDate : bool) (startDate : option Z) : Z :=
  match (if isEndDate then startDate else None) with
  | Some start =>
      if jsDate <=? start then jsDate + oneDayMs
      else if jsDate <? now then jsDate + oneDayMs
      else jsDate
  | None =>
      let lowerText := toLowerCase originalText in
      if includes lowerText "tomorrow" then
        let tomorrow := setDate tza now (getDate tza now + 1) in
        setHours tza tomorrow (getHours tza jsDate) (getMinutes tza jsDate)
                 (getSeconds tza jsDate) 0
      else if includes lowerText "today" then
        let today :=
          setHours tza now (getHours tza jsDate) (getMinutes tza jsDate)
                   (getSeconds tza jsDate) 0 in
        if today <=? now then setDate tza today (getDate tza today + 1)
        else today
      else if jsDate <=? now then
        if test true dayOfWeekPattern lowerText then jsDate + oneWeekMs
        else if test true timeOnlyPattern (trim lowerText) then
          let todayAtTime :=
            setHours tza now (getHours tza jsDate) (getMinutes tza jsDate)
                     (getSeconds tza jsDate) 0 in
          if todayAtTime >? now then todayAtTime
          else setDate tza todayAtTime (getDate tza todayAtTime + 1)
        else setDate tza jsDate (getDate tza jsDate + 1)
      else jsDate
  end.

Definition adjustToFuture (H : Host) (jsDate : Z) (originalText : string)
           (isEndDate : bool) (startDate : option Z) : Clocked Z :=
  now <- new_Date ;;
  Ret (adjustToFutureAt (LocalTZA H) now jsDate originalText isEndDate startDate).

(** *** The entries of a series and the timezone conversion they share *)

(** [timezoneInfo] without its display strings: the zone identifier (for
    a named zone), the offset in minutes and [isManualOffset]. *)
Record TimezoneInfo : Type := mkInfo {
  tz_zone : option string;
  tz_offset : Z;
  isManualOffset : bool
}.

Inductive Label : Type :=
| DayName (name : option string)
| DayNumber (day : Z).

Record Entry : Type := mkEntry {
  e_day : Label;
  e_jsDate : Z;
  e_timezoneInfo : option TimezoneInfo;
  e_unixTimestamp : Z
}.

(** The block "Apply timezone if detected" of [parseMultipleDays] and
    [parseDateRange]: a manual offset is subtracted from the instant
    ([DateTime.fromJSDate(d, { zone: 'UTC' }).minus({ minutes })], which is
    defined for every valid [Date]); a named zone goes through
    [DateTime.fromObject] inside [try], and the result is used only when
    [isValid]. *)
Definition applySeriesTimezone (H : Host) (detectedTimezone : option TimezoneSpec)
           (targetDate : Z) (hour24 minute : Z) : Z * option TimezoneInfo :=
  match truthy detectedTimezone with
  | None => (targetDate, None)
  | Some (UTC_OFFSET offsetMinutes) =>
      (targetDate - offsetMinutes * msPerMinute,
       Some (mkInfo None offsetMinutes true))
  | Some (ZoneId zone) =>
      match fromObject H zone
              (mkFields (getFullYear (LocalTZA H) targetDate)
                        (getMonth (LocalTZA H) targetDate + 1)
                        (getDate (LocalTZA H) targetDate)
                        hour24 minute 0) with
      | Valid ts offset => (ts, Some (mkInfo (Some zone) offset false))
      | Invalid => (targetDate, None)
      | Thrown => (targetDate, None)
      end
  end.

Definition mkSeriesEntry (label : Label) (final : Z * option TimezoneInfo) : Entry :=
  mkEntry label (fst final) (snd final) (unixSeconds (fst final)).

(** [hour24] of both expanders. *)
Definition hour24_of (meridiem : string) (hour : Z) : Z :=
  if String.eqb meridiem "pm" && negb (hour =? 12) then hour + 12
  else if String.eqb meridiem "am" && (hour =? 12) then 0
  else hour.

(** *** parseMultipleDays *)

(* /\b(monday|...|sunday)\s+.*?to\s+(monday|...|sunday)/i *)
Definition weeklyPattern : regex :=
  seqs [WordBoundary; Group 1 (words weekday_names); plus ws;
        lazy_star (Chr CAny); lit "to"; plus ws;
        Group 2 (words weekday_names)].

(* /(\d{1,2})(?::(\d{2}))?\s*(am|pm)/i *)
Definition timePattern : regex :=
  seqs [Group 1 d12; opt (seqs [lit ":"; Group 2 d2]); star ws;
        Group 3 (words ["am"; "pm"])].

Definition dayMap : list (string * Z) :=
  [("monday", 1); ("tuesday", 2); ("wednesday", 3); ("thursday", 4);
   ("friday", 5); ("saturday", 6); ("sunday", 0)].

(** [dayMap[name]]. *)
Fixpoint dayMap_get (l : list (string * Z)) (name : string) : option Z :=
  match l with
  | [] => None
  | (k, v) :: l' => if String.eqb k name then Some v else dayMap_get l' name
  end.

(** [Object.keys(dayMap)[Object.values(dayMap).indexOf(dayNum)]]. *)
Fixpoint dayMap_key (l : list (string * Z)) (dayNum : Z) : option string :=
  match l with
  | [] => None
  | (k, v) :: l' => if v =? dayNum then Some k else dayMap_key l' dayNum
  end.

(** The [while (true)] loop that collects the days; each round pushes the
    current day, stops on the end day, steps modulo 7, and stops once more
    than 7 days were pushed.  [None] only when the fuel runs out. *)
Fixpoint walkDays (fuel : nat) (days : list Z) (currentDay endDayNum : Z)
  : option (list Z) :=
  match fuel with
  | O => None
  | S fuel' =>
      let days := (days ++ [currentDay])%list in
      if currentDay =? endDayNum then Some days
      else
        let currentDay := (currentDay + 1) mod 7 in
        if (7 <? List.length days)%nat then Some days
        else walkDays fuel' days currentDay endDayNum
  end.

(** Eight rounds are always enough (see [walkDays_total]). *)
Definition daysBetween (startDayNum endDayNum : Z) : list Z :=
  match walkDays 8 [] startDayNum endDayNum with
  | Some days => days
  | None => []
  end.

(** [targetDate] in the callback of [days.map]: the next day that falls on
    [dayNum], never today, at the requested local time. *)
Definition nextOccurrence (tza now hour24 minute dayNum : Z) : Z :=
  let currentWeekday := getDay tza now in
  let daysUntil := dayNum - currentWeekday in
  let daysUntil := if daysUntil <=? 0 then daysUntil + 7 else daysUntil in
  let targetDate := setDate tza now (getDate tza now + daysUntil) in
  setHours tza targetDate hour24 minute 0 0.

(** The callback of [days.map]. *)
Definition weekdayEntry (H : Host) (detectedTimezone : option TimezoneSpec)
           (now hour24 minute : Z) (dayNum : Z) : Entry :=
  let targetDate := nextOccurrence (LocalTZA H) now hour24 minute dayNum in
  mkSeriesEntry (DayName (dayMap_key dayMap dayNum))
    (applySeriesTimezone H detectedTimezone targetDate hour24 minute).

(** The weekday names and the time read off the text: what the function
    computes before it looks at the clock.  The groups of [weeklyPattern]
    hold weekday names and those of [timePattern] digits, so the look-ups
    and [parseInt] of the hour are defined. *)
Definition weeklyRequest (text : string) : option (Z * Z * Z * Z) :=
  match exec true weeklyPattern text with
  | None => None
  | Some m =>
      match dayMap_get dayMap (toLowerCase (group_text m 1)),
            dayMap_get dayMap (toLowerCase (group_text m 2)) with
      | Some startDayNum, Some endDayNum =>
          match exec true timePattern text with
          | None => None
          | Some timeMatch =>
              let hour := or_zero (parseInt_opt (group timeMatch 1)) in
              let minute := or_zero (parseInt_opt (group timeMatch 2)) in
              let meridiem := toLowerCase (group_text timeMatch 3) in
              Some (startDayNum, endDayNum, hour24_of meridiem hour, minute)
          end
      | _, _ => None
      end
  end.

Definition parseMultipleDays (H : Host) (text : string)
           (detectedTimezone : option TimezoneSpec) : Clocked (option (list Entry)) :=
  match weeklyRequest text with
  | None => Ret None
  | Some (startDayNum, endDayNum, hour24, minute) =>
      let days := daysBetween startDayNum endDayNum in
      now <- new_Date ;;
      Ret (Some (map (weekdayEntry H detectedTimezone now hour24 minute) days))
  end.

(** *** parseDateRange *)

(* /(\d{1,2})(?:st|nd|rd|th)?\s+to\s+(\d{1,2})(?:st|nd|rd|th)?\s+at\s+(\d{1,2})(?::(\d{2}))?\s*(am|pm)/i *)
Definition dateRangePattern : regex :=
  seqs [Group 1 d12; opt ordinal_suffix; plus ws; lit "to"; plus ws;
        Group 2 d12; opt ordinal_suffix; plus ws; lit "at"; plus ws;
        Group 3 d12; opt (seqs [lit ":"; Group 4 d2]); star ws;
        Group 5 (words ["am"; "pm"])].

(** Start day, end day, [hour24] and minute of a matching text. *)
Definition dateRangeRequest (text : string) : option (Z * Z * Z * Z) :=
  match exec true dateRangePattern text with
  | None => None
  | Some m =>
      let startDay := or_zero (parseInt_opt (group m 1)) in
      let endDay := or_zero (parseInt_opt (group m 2)) in
      let hour := or_zero (parseInt_opt (group m 3)) in
      let minute := or_zero (parseInt_opt (group m 4)) in
      let meridiem := toLowerCase (group_text m 5) in
      Some (startDay, endDay, hour24_of meridiem hour, minute)
  end.

(** The values [day] takes in [for (let day = startDay; day <= endDay; day++)]. *)
Definition dayRange (startDay endDay : Z) : list Z :=
  map (fun i => startDay + Z.of_nat i)
      (seq 0 (Z.to_nat (endDay - startDay + 1))).

(** The body of the [for] loop. *)
Definition dateEntry (H : Host) (text : string)
           (detectedTimezone : option TimezoneSpec)
           (currentYear currentMonth hour24 minute : Z) (day : Z) : Clocked Entry :=
  let targetDate :=
    newDate (LocalTZA H) currentYear currentMonth day hour24 minute 0 0 in
  targetDate <- adjustToFuture H targetDate text false None ;;
  Ret (mkSeriesEntry (DayNumber day)
         (applySeriesTimezone H detectedTimezone targetDate hour24 minute)).

Definition parseDateRange (H : Host) (text : string)
           (detectedTimezone : option TimezoneSpec) : Clocked (option (list Entry)) :=
  match dateRangeRequest text with
  | None => Ret None
  | Some (startDay, endDay, hour24, minute) =>
      now <- new_Date ;;
      let currentMonth := getMonth (LocalTZA H) now in
      let currentYear := getFullYear (LocalTZA H) now in
      results <- mapM (dateEntry H text detectedTimezone
                         currentYear currentMonth hour24 minute)
                      (dayRange startDay endDay) ;;
      Ret (Some results)
  end.

(** *** parseDateRange in [src/src/scheduling-api.js]

    The file that has no [adjustToFuture] moves a past day of the range to
    the following month itself. *)

Module Earlier.

Definition dateEntry (H : Host) (detectedTimezone : option TimezoneSpec)
           (now currentYear currentMonth hour24 minute : Z) (day : Z) : Entry :=
  let targetDate :=
    newDate (LocalTZA H) currentYear currentMonth day hour24 minute 0 0 in
  let targetDate :=
    if targetDate <? now
    then setMonth (LocalTZA H) targetDate (currentMonth + 1)
    else targetDate in
  mkSeriesEntry (DayNumber day)
    (applySeriesTimezone H detectedTimezone targetDate hour24 minute).

Definition parseDateRange (H : Host) (text : string)
           (detectedTimezone : option TimezoneSpec) : Clocked (option (list Entry)) :=
  match dateRangeRequest text with
  | None => Ret None
  | Some (startDay, endDay, hour24, minute) =>
      now <- new_Date ;;
      let currentMonth := getMonth (LocalTZA H) now in
      let currentYear := getFullYear (LocalTZA H) now in
      Ret (Some (map (dateEntry H detectedTimezone now
                        currentYear currentMonth hour24 minute)
                     (dayRange startDay endDay)))
  end.

End Earlier.

(** *** processChronoDate *)

Record Resolved : Type := mkResolved {
  jsDate : Z;
  timezoneInfo : option TimezoneInfo;
  unixTimestamp : Z;
  wasAdjustedToFuture : bool
}.

(** [v || f(new Date())]: the clock is read only when [v] is missing or 0. *)
Definition or_now (v : option Z) (f : Z -> Z) : Clocked Z :=
  match v with
  | Some z => if z =? 0 then (now <- new_Date ;; Ret (f now)) else Ret z
  | None => now <- new_Date ;; Ret (f now)
  end.

(** The fields of both [DateTime.fromObject] calls. *)
Definition chronoFields (H : Host) (c : Component) : Clocked DateFields :=
  y <- or_now (c_year c) (getFullYear (LocalTZA H)) ;;
  m <- or_now (c_month c) (fun now => getMonth (LocalTZA H) now + 1) ;;
  d <- or_now (c_day c) (getDate (LocalTZA H)) ;;
  Ret (mkFields y m d (or_zero (c_hour c)) (or_zero (c_minute c))
                (or_zero (c_second c))).

(** The block that handles the timezone before the future adjustment:
    the instant to adjust and the [timezoneInfo]. *)
Definition convertChrono (H : Host) (c : Component)
           (timezone : option TimezoneSpec) : Clocked (Z * option TimezoneInfo) :=
  let initialDate := c_date c in
  match truthy timezone with
  | None => Ret (initialDate, None)
  | Some (UTC_OFFSET offsetMinutes) =>
      fields <- chronoFields H c ;;
      match fromObject H "UTC" fields with
      | Valid ts _ =>
          Ret (ts - offsetMinutes * msPerMinute,
               Some (mkInfo None offsetMinutes true))
      | Invalid => Ret (initialDate, None)
      | Thrown => Ret (initialDate, None)
      end
  | Some (ZoneId zone) =>
      fields <- chronoFields H c ;;
      match fromObject H zone fields with
      | Valid ts offset => Ret (ts, Some (mkInfo (Some zone) offset false))
      | Invalid => Ret (initialDate, None)
      | Thrown => Ret (initialDate, None)
      end
  end.

Definition processChronoDate (H : Host) (chronoComponent : Component)
           (timezone : option TimezoneSpec) (isEndDate : bool)
           (startDate : option Z) (originalText : string) : Clocked Resolved :=
  converted <- convertChrono H chronoComponent timezone ;;
  let timezoneAdjustedDate := fst converted in
  finalDate <- adjustToFuture H timezoneAdjustedDate originalText
                              isEndDate startDate ;;
  Ret (mkResolved finalDate (snd converted) (unixSeconds finalDate)
                  (negb (finalDate =? timezoneAdjustedDate))).

(** *** The [/parse] handler *)

Record Series : Type := mkSeries {
  s_original_text : string;
  s_preprocessed_text : option string;
  s_is_range : bool;
  s_detected_timezone : option TimezoneSpec;
  s_timezone_info : option TimezoneInfo;
  s_multiple_times : list (Label * Z);
  s_unix_timestamp : Z;
  s_count : nat
}.

Record Single : Type := mkSingle {
  g_original_text : string;
  g_preprocessed_text : option string;
  g_is_range : bool;
  g_detected_timezone : option TimezoneSpec;
  g_start : Resolved;
  g_end : option Resolved;
  g_duration_ms : option Z
}.

(** What the client receives: one of the JSON bodies of the handler, or the
    500 of the error middleware when the handler throws. *)
Inductive Response : Type :=
| MissingText
| NotRelevant (original_text : string)
| MultipleTimes (body : Series)
| NoDates (original_text : string) (preprocessed_text : option string)
          (detected_timezone : option TimezoneSpec)
| Found (body : Single)
| InternalError.

(** [text !== originalText ? text : undefined]. *)
Definition preprocessed_field (text originalText : string) : option string :=
  if String.eqb text originalText then None else Some text.

(** The body sent for a series; reading [results[0]] of an empty array
    throws a [TypeError]. *)
Definition seriesResponse (originalText text : string) (is_range : bool)
           (detectedTimezone : option TimezoneSpec) (results : list Entry) : Response :=
  match results with
  | [] => InternalError
  | first :: _ =>
      MultipleTimes
        (mkSeries originalText (preprocessed_field text originalText) is_range
           detectedTimezone (e_timezoneInfo first)
           (map (fun r => (e_day r, e_unixTimestamp r)) results)
           (e_unixTimestamp first) (List.length results))
  end.

(** The last part of the handler, "Parse the text with Chrono": only the
    first result is used; its end component, if any, is resolved against
    the resolved start. *)
Definition resolveGeneric (H : Host) (originalText text : string)
           (detectedTimezone : option TimezoneSpec) : Clocked Response :=
  results <- (ref <- new_Date ;; Ret (chrono_parse H text ref)) ;;
  match results with
  | [] =>
      Ret (NoDates originalText
             (preprocessed_field text originalText) detectedTimezone)
  | result :: _ =>
      startResult <- processChronoDate H (r_start result)
                       detectedTimezone false None originalText ;;
      match r_end result with
      | None =>
          Ret (Found (mkSingle originalText
                 (preprocessed_field text originalText) false
                 detectedTimezone startResult None None))
      | Some endComponent =>
          endResult <- processChronoDate H endComponent
                         detectedTimezone true
                         (Some (jsDate startResult)) originalText ;;
          Ret (Found (mkSingle originalText
                 (preprocessed_field text originalText) true
                 detectedTimezone startResult (Some endResult)
                 (Some (jsDate endResult - jsDate startResult))))
      end
  end.

(** The handler once the text is known to be present. *)
Definition resolve (H : Host) (originalText : string) : Clocked Response :=
  if negb (hasTimeForScheduling originalText) then Ret (NotRelevant originalText)
  else
    text <- preprocessText H originalText ;;
    let detectedTimezone := detectTimezone H text in
    multipleDaysResult <- parseMultipleDays H text detectedTimezone ;;
    match multipleDaysResult with
    | Some results =>
        Ret (seriesResponse originalText text false detectedTimezone results)
    | None =>
        dateRangeResult <- parseDateRange H text detectedTimezone ;;
        match dateRangeResult with
        | Some results =>
            Ret (seriesResponse originalText text true detectedTimezone results)
        | None => resolveGeneric H originalText text detectedTimezone
        end
    end.

(** [app.get('/parse', ...)]: [req.query.text] is [None] when the parameter
    is absent; [!originalText] also holds for the empty string. *)
Definition parse (H : Host) (query_text : option string) : Clocked Response :=
  match query_text with
  | None => Ret MissingText
  | Some originalText =>
      if String.eqb originalText "" then Ret MissingText
      else resolve H originalText
  end.

(* ================================================================== *)
(** ** Vocabulary of the statements *)
(* ================================================================== *)

(** The instant whose UTC reading has the given fields. *)
Definition utcReading (f : DateFields) : Z :=
  MakeDate (days_from_civil (f_year f) (f_month f) (f_day f))
           (MakeTime (f_hour f) (f_minute f) (f_second f) 0).

(** A conversion that did not produce a valid [DateTime]. *)
Definition failed (r : LuxonResult) : Prop :=
  match r with
  | Valid _ _ => False
  | Invalid => True
  | Thrown => True
  end.

(** The fields both expanders hand to [DateTime.fromObject] for an entry
    whose naive target is [targetDate]: the local date of the target and
    the requested time. *)
Definition seriesFields (H : Host) (targetDate hour24 minute : Z) : DateFields :=
  mkFields (getFullYear (LocalTZA H) targetDate)
           (getMonth (LocalTZA H) targetDate + 1)
           (getDate (LocalTZA H) targetDate)
           hour24 minute 0.

(** luxon converts the fields [f] in [zone] by the offset it reports: if
    the result is valid, it is the UTC reading of the fields moved by that
    offset, and the offset is at most [bound] milliseconds ahead of the
    host's own.  This is asked of one field set at a time: luxon keeps the
    first half for a wall-clock time that exists in the zone, and moves a
    time that a daylight-saving transition skips. *)
Definition converts_fields (H : Host) (zone : string) (bound : Z)
           (f : DateFields) : Prop :=
  match fromObject H zone f with
  | Valid ts offset =>
      ts = utcReading f - offset * msPerMinute
      /\ offset * msPerMinute - LocalTZA H <= bound
  | Invalid => True
  | Thrown => True
  end.

(** [sign], [hours] and [minutes] as the loop of [detectTimezone] reads
    them off the groups of a match (see [offsetOfMatch]). *)
Definition matchSign (hasSign : bool) (m : match_result) : string :=
  if hasSign
  then match group m 1 with
       | Some s => if String.eqb s "" then "+" else s
       | None => "+"
       end
  else "+".

Definition matchHours (m : match_result) : Z :=
  or_zero (parseInt_opt (group m 2)).

Definition matchMinutes (m : match_result) : Z :=
  match group m 3 with
  | Some s => if String.eqb s "" then 0 else or_zero (parseInt s)
  | None => 0
  end.

(** A pattern of the scan that does not end it on [lowerText]: it does not
    match, or a range check rejects its match. *)
Definition passedOver (lowerText : string) (p : regex * bool) : Prop :=
  match exec true (fst p) lowerText with
  | Some m => offsetOfMatch (snd p) m = None
  | None => True
  end.

(** [v || f(new Date())] once the instant of the reading is given, and the
    number of readings it takes: one when [v] is missing or 0. *)
Definition or_at (v : option Z) (f : Z -> Z) (now : Z) : Z :=
  match v with
  | Some z => if z =? 0 then f now else z
  | None => f now
  end.

Definition fallbacks (v : option Z) : nat :=
  match v with
  | Some z => if z =? 0 then 1 else 0
  | None => 1
  end.

(** The readings the conversion of a component takes: with a timezone, one
    for each of year, month and day that chrono does not give. *)
Definition conversionReads (c : Component) (timezone : option TimezoneSpec) : nat :=
  match truthy timezone with
  | None => 0
  | Some _ => fallbacks (c_year c) + fallbacks (c_month c) + fallbacks (c_day c)
  end.

(** What [processChronoDate] makes of the answer of luxon: the instant to
    adjust and the [timezoneInfo]. *)
Definition converted (initialDate : Z) (tz : TimezoneSpec) (r : LuxonResult)
  : Z * option TimezoneInfo :=
  match r with
  | Valid ts offset =>
      match tz with
      | UTC_OFFSET offsetMinutes =>
          (ts - offsetMinutes * msPerMinute, Some (mkInfo None offsetMinutes true))
      | ZoneId zone => (ts, Some (mkInfo (Some zone) offset false))
      end
  | Invalid => (initialDate, None)
  | Thrown => (initialDate, None)
  end.

(** The entry [dateEntry] builds when its [adjustToFuture] reads [now]. *)
Definition dateEntryAt (H : Host) (text : string)
           (detectedTimezone : option TimezoneSpec)
           (now currentYear currentMonth hour24 minute : Z) (day : Z) : Entry :=
  let targetDate :=
    newDate (LocalTZA H) currentYear currentMonth day hour24 minute 0 0 in
  let targetDate :=
    adjustToFutureAt (LocalTZA H) now targetDate text false None in
  mkSeriesEntry (DayNumber day)
    (applySeriesTimezone H detectedTimezone targetDate hour24 minute).

(** The zone luxon is asked to build a [DateTime] in, when the generic path
    resolves a component: ["UTC"] for a manual offset (the offset is
    subtracted afterwards), the zone itself otherwise. *)
Definition conversionZone (tz : TimezoneSpec) : string :=
  match tz with
  | UTC_OFFSET _ => "UTC"
  | ZoneId zone => zone
  end.

(** Two clocks that give the same instants from reading [lo] up to, and
    not including, reading [hi]. *)
Definition agree (c1 c2 : clock) (lo hi : nat) : Prop :=
  forall k, (lo <= k < hi)%nat -> c1 k = c2 k.

(** Used to check a property of every day of a 400-year era by
    computation. *)
Definition era_day_ok (doe : Z) : bool :=
  match civil_of_era_day doe with
  | (y, m, d) =>
      let y' := if m <=? 2 then y - 1 else y in
      (0 <=? y') && (y' <? 400) && (1 <=? m) && (m <=? 12) && (1 <=? d) &&
      (y' * 365 + y' / 4 - y' / 100
       + (153 * (if m >? 2 then m - 3 else m + 9) + 2) / 5 + d - 1 =? doe)
  end.

Fixpoint all_from (n : nat) (z : Z) (P : Z -> bool) : bool :=
  match n with
  | O => true
  | S n' => P z && all_from n' (z + 1) P
  end.

(** *** A concrete host for the examples *)

Module Example.

(** Offsets, in minutes, of the zones of the examples in summer: the one
    offset Amsterdam and New York each keep from April to September, the
    season of every example below (June and July 2024).  It is a table for
    that season, not a zone database: in winter both zones are an hour
    further west. *)
Definition zoneOffset (zone : string) : option Z :=
  if String.eqb zone "UTC" then Some 0
  else if String.eqb zone "Europe/Amsterdam" then Some 120
  else if String.eqb zone "America/New_York" then Some (-240)
  else None.

(** The number of days of a month, 1 to 12, of a year. *)
Definition daysInMonth (year month : Z) : Z :=
  days_from_civil (if month =? 12 then year + 1 else year)
                  (if month =? 12 then 1 else month + 1) 1
  - days_from_civil year month 1.

(** The checks of luxon on the units of [fromObject]: a month from 1 to
    12, a day of that month, an hour from 0 to 23 (or 24:00:00), minutes
    and seconds from 0 to 59. *)
Definition validFields (f : DateFields) : bool :=
  (1 <=? f_month f) && (f_month f <=? 12)
  && (1 <=? f_day f) && (f_day f <=? daysInMonth (f_year f) (f_month f))
  && (((0 <=? f_hour f) && (f_hour f <=? 23))
      || ((f_hour f =? 24) && (f_minute f =? 0) && (f_second f =? 0)))
  && (0 <=? f_minute f) && (f_minute f <=? 59)
  && (0 <=? f_second f) && (f_second f <=? 59).

(** An unknown zone gives an invalid [DateTime], and so does a unit out of
    range (an hour of 25, the 31st of June). *)
Definition luxon (zone : string) (f : DateFields) : LuxonResult :=
  match zoneOffset zone with
  | Some offset =>
      if validFields f
      then Valid (utcReading f - offset * msPerMinute) offset
      else Invalid
  | None => Invalid
  end.

Definition aliases : list (string * string) :=
  [("netherlands", "Europe/Amsterdam"); ("est", "America/New_York");
   ("utc", "UTC"); ("atlantis", "Atlantis/Capital")].

(** A chrono component with all six fields known, on a host in UTC. *)
Definition component (y m d h mi s : Z) : Component :=
  mkComponent (Some y) (Some m) (Some d) (Some h) (Some mi) (Some s)
              (newDate 0 y (m - 1) d h mi s 0).

(** What chrono returns, with a reference date of 23 June 2024 (a Sunday),
    for the two texts below: the Friday closest to the reference date, and
    the first of June of the reference year. *)
Definition chrono (text : string) (ref : Z) : list ChronoResult :=
  if String.eqb text "friday 3pm to 5pm" then
    [mkChrono (component 2024 6 21 15 0 0) (Some (component 2024 6 21 17 0 0))]
  else if String.eqb text "meeting 3pm on 1st of June" then
    [mkChrono (component 2024 6 1 15 0 0) None]
  else [].

(** A process running in UTC. *)
Definition host : Host := mkHost 0 aliases luxon chrono.

(** The same host with a zone database that knows no zone. *)
Definition host_without_zones : Host :=
  mkHost 0 aliases (fun _ _ => Invalid) chrono.

(** The two examples of the service description. *)
Definition weekday_text : string :=
  "available on monday 10pm to thursday 10pm est".
Definition daterange_text : string :=
  "available from 15th to 20th at 10pm netherlands".

(** Sunday 23 June 2024, 12:00 UTC, and Tuesday 25 June 2024, 12:00 UTC. *)
Definition sunday_noon : Z := 1719144000000.
Definition tuesday_noon : Z := 1719316800000.

(** The timestamps the two examples get on this host, the weekday range on
    the Sunday and the date range on the Tuesday. *)
Definition weekday_times : list (Label * Z) :=
  [(DayName (Some "monday"), 1719280800); (DayName (Some "tuesday"), 1719367200);
   (DayName (Some "wednesday"), 1719453600); (DayName (Some "thursday"), 1719540000)].

Definition daterange_times : list (Label * Z) :=
  [(DayNumber 15, 1718568000); (DayNumber 16, 1718654400);
   (DayNumber 17, 1718740800); (DayNumber 18, 1718827200);
   (DayNumber 19, 1718913600); (DayNumber 20, 1719000000)].

(** An entry moved by a number of seconds. *)
Definition later (seconds : Z) (e : Label * Z) : Label * Z :=
  (fst e, snd e + seconds).

(** A clock stopped at an instant, and one that is a week later from its
    second reading on. *)
Definition stopped (now : Z) : clock := fun _ => now.
Definition jumping (now : Z) : clock :=
  fun n => match n with O => now | S _ => now + oneWeekMs end.

End Example.

(* ================================================================== *)
(** ** The name of a manual offset *)
(* ================================================================== *)

(** [String(n)] for an integer. *)
Definition String_of (n : Z) : string := NilZero.string_of_int (Z.to_int n).

(** [n] times the character [c]. *)
Fixpoint fill (n : nat) (c : ascii) : string :=
  match n with
  | O => EmptyString
  | S n' => String c (fill n' c)
  end.

(** [s.padStart(targetLength, c)] for a filler of one character. *)
Definition padStart (s : string) (targetLength : nat) (c : ascii) : string :=
  fill (targetLength - String.length s) c ++ s.

(** [offsetStr] of [parseMultipleDays], [parseDateRange] and
    [processChronoDate]. *)
Definition offsetStr (offsetMinutes : Z) : string :=
  let offsetHours := Z.abs offsetMinutes / 60 in
  let offsetMins := Z.abs offsetMinutes mod 60 in
  let offsetSign := if offsetMinutes >=? 0 then "+" else "-" in
  if offsetMins >? 0
  then offsetSign ++ String_of offsetHours ++ ":" ++ padStart (String_of offsetMins) 2 "0"
  else offsetSign ++ String_of offsetHours.

(** [timezoneInfo.timezone] of a manual offset: [`UTC${offsetStr}`]. *)
Definition manualTimezone (offsetMinutes : Z) : string :=
  "UTC" ++ offsetStr offsetMinutes.

(** Used to check by computation that the name of an offset is read back
    as that offset. *)
Definition label_read_back (v : Z) : bool :=
  match scanOffsets offsetPatterns (toLowerCase (manualTimezone v)) with
  | Some v' => v' =? v
  | None => false
  end.

(* ================================================================== *)
(** ** adjustToFuture and parseDateRange in the second revision of [part_000] *)
(* ================================================================== *)

(** Lines 940 to 994 of [src/unnamed/part_000]: an instant counts as past
    once it is more than one hour old; a past instant moves by one week or
    to the next month; the end of a range that is past moves by whole
    weeks. *)
Module Second.

(* /\bweekend\b/i *)
Definition weekendPattern : regex :=
  seqs [WordBoundary; lit "weekend"; WordBoundary].

(* /\d{1,2}(?:st|nd|rd|th)?\s+to\s+\d{1,2}(?:st|nd|rd|th)?/i *)
Definition dateRangePattern : regex :=
  seqs [d12; opt ordinal_suffix; plus ws; lit "to"; plus ws;
        d12; opt ordinal_suffix].

(** [Math.ceil(a / b)] for integers [a] and [b > 0]; the quotient of the
    language is a double, and its ceiling is the exact one while [a] is
    below 2^53. *)
Definition ceil_div (a b : Z) : Z := - ((- a) / b).

(** The body of [adjustToFuture] after [const now = new Date()]. *)
Definition adjustToFutureAt (tza : Z) (now jsDate : Z) (originalText : string)
           (isEndDate : bool) (startDate : option Z) : Z :=
  match (if isEndDate then startDate else None) with
  | Some start =>
      if jsDate <=? start then jsDate + oneWeekMs
      else if jsDate <? now then
        let weeksToAdd := ceil_div (now - jsDate) oneWeekMs in
        jsDate + weeksToAdd * oneWeekMs
      else jsDate
  | None =>
      if jsDate <? now - 60 * 60 * 1000 then
        let lowerText := toLowerCase originalText in
        if test true dayOfWeekPattern lowerText || test true weekendPattern lowerText
        then jsDate + oneWeekMs
        else if test true dateRangePattern lowerText
        then setMonth tza jsDate (getMonth tza jsDate + 1)
        else if jsDate <? now - oneWeekMs
        then setMonth tza jsDate (getMonth tza jsDate + 1)
        else jsDate + oneWeekMs
      else jsDate
  end.

Definition adjustToFuture (H : Host) (jsDate : Z) (originalText : string)
           (isEndDate : bool) (startDate : option Z) : Clocked Z :=
  now <- new_Date ;;
  Ret (adjustToFutureAt (LocalTZA H) now jsDate originalText isEndDate startDate).

(** [parseDateRange] of that revision (lines 1112 to 1201) has the text of
    the first one, and calls this [adjustToFuture]. *)
Definition dateEntry (H : Host) (text : string)
           (detectedTimezone : option TimezoneSpec)
           (currentYear currentMonth hour24 minute : Z) (day : Z) : Clocked Entry :=
  let targetDate :=
    newDate (LocalTZA H) currentYear currentMonth day hour24 minute 0 0 in
  targetDate <- adjustToFuture H targetDate text false None ;;
  Ret (mkSeriesEntry (DayNumber day)
         (applySeriesTimezone H detectedTimezone targetDate hour24 minute)).

Definition parseDateRange (H : Host) (text : string)
           (detectedTimezone : option TimezoneSpec) : Clocked (option (list Entry)) :=
  match dateRangeRequest text with
  | None => Ret None
  | Some (startDay, endDay, hour24, minute) =>
      now <- new_Date ;;
      let currentMonth := getMonth (LocalTZA H) now in
      let currentYear := getFullYear (LocalTZA H) now in
      results <- mapM (dateEntry H text detectedTimezone
                         currentYear currentMonth hour24 minute)
                      (dayRange startDay endDay) ;;
      Ret (Some results)
  end.

End Second.

(* ================================================================== *)
(** ** The matcher, as a relation *)
(* ================================================================== *)

(** [n] successive matches. *)
Fixpoint iterP (R : mstate -> mstate -> Prop) (n : nat) (s s' : mstate) : Prop :=
  match n with
  | O => s' = s
  | S n' => exists s1, R s s1 /\ iterP R n' s1 s'
  end.

(** What a successful run of the matcher went through: the state after the
    pattern, given the state before it. *)
Fixpoint matches (ic : bool) (r : regex) (s s' : mstate) : Prop :=
  match r with
  | Eps => s' = s
  | Chr cs =>
      exists c r', rest s = String c r' /\ char_matches ic cs c = true
                   /\ s' = advance c r' s
  | Seq r1 r2 => exists s1, matches ic r1 s s1 /\ matches ic r2 s1 s'
  | Alt r1 r2 => matches ic r1 s s' \/ matches ic r2 s s'
  | Rep _ lo hi r' =>
      exists n, (lo <= n)%nat
                /\ match hi with Some h => (n <= h)%nat | None => True end
                /\ iterP (matches ic r') n s s'
  | Group i r' => exists s1, matches ic r' s s1 /\ s' = set_cap i (pos s) (pos s1) s1
  | WordBoundary => s' = s /\ xorb (word_before s) (word_after s) = true
  | NegLookahead _ => s' = s
  | StartAnchor => s' = s /\ pos s = 0%nat
  end.

(** The loop of a quantifier, as [rmatch] runs it. *)
Definition rep_loop (step : (mstate -> option mstate) -> mstate -> option mstate)
           (k : mstate -> option mstate) (greedy : bool) (lo : nat)
  : nat -> nat -> mstate -> option mstate :=
  fix loop (n cnt : nat) (s0 : mstate) {struct n} : option mstate :=
    let stop := if (lo <=? cnt)%nat then k s0 else None in
    match n with
    | O => stop
    | S n' =>
        let more :=
          step (fun s1 =>
                  if (cnt <? lo)%nat || negb (pos s1 =? pos s0)%nat
                  then loop n' (S cnt) s1 else None) s0 in
        if greedy then or_else more stop else or_else stop more
    end.

(** The state is at position [pos] of the input. *)
Definition at_input (input : string) (s : mstate) : Prop :=
  exists pre, input = pre ++ rest s /\ String.length pre = pos s.

(** Going from [s] to [s'] consumed the word [w]. *)
Definition consumed (s s' : mstate) (w : string) : Prop :=
  rest s = w ++ rest s' /\ pos s' = (pos s + String.length w)%nat.

(** The sub-patterns that group [i] encloses. *)
Fixpoint group_bodies (r : regex) (i : nat) : list regex :=
  match r with
  | Seq r1 r2 => group_bodies r1 i ++ group_bodies r2 i
  | Alt r1 r2 => group_bodies r1 i ++ group_bodies r2 i
  | Rep _ _ _ r' => group_bodies r' i
  | Group j r' => (if (i =? j)%nat then [r'] else []) ++ group_bodies r' i
  | _ => []
  end%list.

(** A group that is set after a match was set before it, or encloses a
    match of one of its sub-patterns. *)
Definition group_origin (ic : bool) (input : string) (bodies : list regex)
           (before : option (nat * nat)) (after : nat * nat) : Prop :=
  before = Some after
  \/ exists g sa sb, In g bodies /\ at_input input sa /\ matches ic g sa sb
                     /\ after = (pos sa, pos sb).

(** The state after the characters of [w], which are the next ones. *)
Fixpoint walk (w : string) (s : mstate) : mstate :=
  match w with
  | EmptyString => s
  | String c w' =>
      match rest s with
      | String _ r' => walk w' (advance c r' s)
      | EmptyString => s
      end
  end.

(** The last character of a text. *)
Fixpoint last_char (s : string) : option ascii :=
  match s with
  | EmptyString => None
  | String c EmptyString => Some c
  | String _ s' => last_char s'
  end.

(** The text ends, or starts, with a letter, a digit or an underscore. *)
Definition word_end (s : string) : bool :=
  match last_char s with Some c => is_word c | None => false end.

Definition word_start (s : string) : bool :=
  match s with String c _ => is_word c | EmptyString => false end.

(** Every character is white space. *)
Fixpoint all_space (s : string) : bool :=
  match s with
  | EmptyString => true
  | String c s' => is_space c && all_space s'
  end.

(** The pattern without its groups. *)
Fixpoint ungroup (r : regex) : regex :=
  match r with
  | Seq r1 r2 => Seq (ungroup r1) (ungroup r2)
  | Alt r1 r2 => Alt (ungroup r1) (ungroup r2)
  | Rep greedy lo hi r' => Rep greedy lo hi (ungroup r')
  | Group _ r' => ungroup r'
  | NegLookahead r' => NegLookahead (ungroup r')
  | _ => r
  end.

(** The state at the same position of the lower-cased text, with no group
    closed. *)
Definition lower_state (s : mstate) : mstate :=
  MState (pos s) (option_map lower_char (prev s)) (toLowerCase (rest s)) [].

(* ================================================================== *)
(** ** What a pattern needs of a text *)
(* ================================================================== *)

(** Every character is a digit. *)
Fixpoint all_digits (s : string) : bool :=
  match s with
  | EmptyString => true
  | String c s' => is_digit c && all_digits s'
  end.

(** What the scan needs of a pattern: hours in group 2, minutes in group 3,
    and, when it has a sign, the sign in group 1. *)
Definition offset_groups (p : regex * bool) : Prop :=
  (forall g, In g (group_bodies (fst p) 2) -> g = d12 \/ g = d2)
  /\ (forall g, In g (group_bodies (fst p) 3) -> g = d12 \/ g = d2)
  /\ (snd p = true -> forall g, In g (group_bodies (fst p) 1) -> g = sign).

(** [/\d/.test(s)]. *)
Fixpoint has_digit (s : string) : bool :=
  match s with
  | EmptyString => false
  | String c s' => is_digit c || has_digit s'
  end.

(** Every match of the pattern consumes a digit. *)
Fixpoint needs_digit (r : regex) : bool :=
  match r with
  | Chr CDigit => true
  | Seq r1 r2 => needs_digit r1 || needs_digit r2
  | Alt r1 r2 => needs_digit r1 && needs_digit r2
  | Rep _ lo _ r' => (1 <=? lo)%nat && needs_digit r'
  | Group _ r' => needs_digit r'
  | _ => false
  end.

(** The five words of the fourth time pattern. *)
Definition time_words : list string :=
  ["noon"; "midnight"; "evening"; "morning"; "afternoon"].

(** The word a pattern made of literal characters spells. *)
Fixpoint literal (r : regex) : option string :=
  match r with
  | Eps => Some EmptyString
  | Chr (CLit c) => Some (String c EmptyString)
  | Seq r1 r2 =>
      match literal r1, literal r2 with
      | Some w1, Some w2 => Some (w1 ++ w2)
      | _, _ => None
      end
  | _ => None
  end.

(** Every match of the pattern consumes one of the words [ws], in some
    letter case. *)
Fixpoint needs_word (ws : list string) (r : regex) : bool :=
  match literal r with
  | Some w => existsb (includes (toLowerCase w)) ws
  | None => false
  end
  || match r with
     | Seq r1 r2 => needs_word ws r1 || needs_word ws r2
     | Alt r1 r2 => needs_word ws r1 && needs_word ws r2
     | Rep _ lo _ r' => (1 <=? lo)%nat && needs_word ws r'
     | Group _ r' => needs_word ws r'
     | _ => false
     end.

(** Every match of the pattern consumes at least one character. *)
Fixpoint consumes (r : regex) : bool :=
  match r with
  | Chr _ => true
  | Seq r1 r2 => consumes r1 || consumes r2
  | Alt r1 r2 => consumes r1 && consumes r2
  | Rep _ lo _ r' => (1 <=? lo)%nat && consumes r'
  | Group _ r' => consumes r'
  | _ => false
  end.

(** A pattern without lookahead whose quantifiers repeat patterns that
    consume: the matcher finds a match of it whenever there is one. *)
Fixpoint plain (r : regex) : bool :=
  match r with
  | Seq r1 r2 => plain r1 && plain r2
  | Alt r1 r2 => plain r1 && plain r2
  | Rep _ _ _ r' => consumes r' && plain r'
  | Group _ r' => plain r'
  | NegLookahead _ => false
  | _ => true
  end.

(** [text] contains neither "am" nor "pm", in any letter case. *)
Definition no_meridiem (text : string) : Prop :=
  forall x, In x ["am"; "pm"] -> includes (toLowerCase text) x = false.

(* ================================================================== *)
(** ** Months *)
(* ================================================================== *)

(** The month after month [m] (1 to 12) of year [y]. *)
Definition next_month (y m : Z) : Z * Z :=
  if m =? 12 then (y + 1, 1) else (y, m + 1).

(** The day number of the first day of that month. *)
Definition next_month_first (y m : Z) : Z :=
  days_from_civil (fst (next_month y m)) (snd (next_month y m)) 1.

(** Used to check by computation how the civil date of a day follows from
    that of the day before: the next date of the same month, or, from the
    28th on, the first of the next month. *)
Definition day_step_ok (prev cur : Z * Z * Z) : bool :=
  match prev, cur with
  | (y0, m0, d0), (y, m, d) =>
      (d <=? 31)
      && (((y =? y0) && (m =? m0) && (d =? d0 + 1))
          || ((d =? 1) && (28 <=? d0) && (y =? fst (next_month y0 m0))
              && (m =? snd (next_month y0 m0))))
  end.

(** The check on [n] days from day [z] on, [prev] being the date of the
    day before. *)
Fixpoint days_scan (n : nat) (z : Z) (prev : Z * Z * Z) : bool :=
  match n with
  | O => true
  | S n' =>
      let cur := civil_from_days z in
      day_step_ok prev cur && days_scan n' (z + 1) cur
  end.

(* ================================================================== *)
(** ** Facts about the calendar and the [Date] methods *)
(* ================================================================== *)

Section CalendarFacts.

Lemma all_from_spec (P : Z -> bool) (n : nat) :
  forall z, all_from n z P = true ->
  forall x, z <= x < z + Z.of_nat n -> P x = true.
Proof.
  induction n as [|n IH]; intros z Hall x Hx.
  - simpl in Hx. lia.
  - simpl in Hall. apply andb_true_iff in Hall as [Hz Hrest].
    destruct (Z.eq_dec x z) as [->|Hne]; [exact Hz|].
    apply (IH (z + 1) Hrest). lia.
Qed.

Lemma era_days_checked : all_from (Z.to_nat 146097) 0 era_day_ok = true.
Proof. vm_compute. reflexivity. Qed.

Lemma era_day_ok_all (doe : Z) : 0 <= doe < 146097 -> era_day_ok doe = true.
Proof.
  intros Hd.
  apply (all_from_spec era_day_ok (Z.to_nat 146097) 0 era_days_checked).
  rewrite Z2Nat.id; lia.
Qed.

(** Converting a day number to a civil date and back is the identity. *)
Lemma days_from_civil_from_days (z : Z) :
  match civil_from_days z with
  | (y, m, d) => days_from_civil y m d = z /\ 1 <= m <= 12 /\ 1 <= d
  end.
Proof.
  unfold civil_from_days.
  set (z' := z + 719468).
  assert (Hdoe : 0 <= z' mod 146097 < 146097) by (apply Z.mod_pos_bound; lia).
  pose proof (era_day_ok_all _ Hdoe) as Hok.
  unfold era_day_ok in Hok.
  destruct (civil_of_era_day (z' mod 146097)) as [[y m] d].
  repeat (apply andb_true_iff in Hok as [Hok ?]).
  unfold days_from_civil.
  assert (Hy : (if m <=? 2 then y + z' / 146097 * 400 - 1
                else y + z' / 146097 * 400)
               = (if m <=? 2 then y - 1 else y) + z' / 146097 * 400)
    by (destruct (m <=? 2); lia).
  rewrite Hy.
  set (y' := if m <=? 2 then y - 1 else y) in *.
  assert (Hy400 : 0 <= y' < 400) by lia.
  rewrite Z.div_add by lia. rewrite Z.mod_add by lia.
  rewrite (Z.div_small y' 400) by lia. rewrite (Z.mod_small y' 400) by lia.
  split; [|lia].
  apply Z.eqb_eq in H.
  pose proof (Z.div_mod z' 146097 ltac:(lia)). subst z'. lia.
Qed.

Lemma days_from_civil_date (y m d k : Z) :
  days_from_civil y m (d + k) = days_from_civil y m d + k.
Proof. unfold days_from_civil. lia. Qed.

(** [MakeDay] on the year and month of an instant counts from the first day
    of its month. *)
Lemma MakeDay_from_time (t k : Z) :
  MakeDay (YearFromTime t) (MonthFromTime t) (DateFromTime t + k) = Day t + k.
Proof.
  unfold MakeDay, YearFromTime, MonthFromTime, DateFromTime.
  pose proof (days_from_civil_from_days (Day t)) as Hrt.
  destruct (civil_from_days (Day t)) as [[y m] d].
  destruct Hrt as (Hrt & Hm & Hd).
  rewrite (Z.div_small (m - 1) 12) by lia.
  rewrite (Z.mod_small (m - 1) 12) by lia.
  replace (y + 0) with y by lia. replace (m - 1 + 1) with m by lia.
  replace 1 with (d + (1 - d)) at 1 by lia.
  rewrite days_from_civil_date. lia.
Qed.

Lemma day_time_split (t : Z) : Day t * msPerDay + TimeWithinDay t = t.
Proof.
  unfold Day, TimeWithinDay.
  pose proof (Z.div_mod t msPerDay ltac:(unfold msPerDay; lia)). lia.
Qed.

(** [d.setDate(d.getDate() + k)] moves the instant by [k] days. *)
Lemma setDate_getDate (tza t k : Z) :
  setDate tza t (getDate tza t + k) = t + k * msPerDay.
Proof.
  unfold setDate, getDate, UTC, MakeDate.
  rewrite MakeDay_from_time.
  pose proof (day_time_split (LocalTime tza t)) as Hs.
  unfold LocalTime in *. lia.
Qed.

Lemma Day_shift (t k : Z) : Day (t + k * msPerDay) = Day t + k.
Proof. unfold Day. apply Z.div_add. unfold msPerDay. lia. Qed.

(** The civil fields of an instant read back as the start of its day. *)
Lemma utcReading_fields (t h m s : Z) :
  utcReading (mkFields (YearFromTime t) (MonthFromTime t + 1) (DateFromTime t) h m s)
  = Day t * msPerDay + MakeTime h m s 0.
Proof.
  unfold utcReading, MakeDate, YearFromTime, MonthFromTime, DateFromTime.
  cbn [f_year f_month f_day f_hour f_minute f_second].
  pose proof (days_from_civil_from_days (Day t)) as Hrt.
  destruct (civil_from_days (Day t)) as [[y mo] d].
  destruct Hrt as (Hrt & _).
  replace (mo - 1 + 1) with mo by lia. rewrite Hrt. reflexivity.
Qed.

End CalendarFacts.

(* ================================================================== *)
(** ** Facts about clocked computations *)
(* ================================================================== *)

Section ClockFacts.
Context {A B : Type}.

Lemma run_bind (m : Clocked A) (f : A -> Clocked B) (c : clock) :
  forall n, run (bind m f) c n = run (f (fst (run m c n))) c (snd (run m c n)).
Proof. induction m as [a|k IH]; intros n; simpl; [reflexivity|apply IH]. Qed.

Lemma run_at_bind (now : Z) (m : Clocked A) (f : A -> Clocked B) :
  run_at now (bind m f) = run_at now (f (run_at now m)).
Proof. induction m as [a|k IH]; simpl; [reflexivity|apply IH]. Qed.

Lemma run_mono (m : Clocked A) (c : clock) :
  forall n, (n <= snd (run m c n))%nat.
Proof.
  induction m as [a|k IH]; intros n; simpl; [lia|].
  specialize (IH (c n) (S n)). lia.
Qed.

Lemma run_agree (m : Clocked A) (c1 c2 : clock) :
  forall n, agree c1 c2 n (snd (run m c1 n)) -> run m c1 n = run m c2 n.
Proof.
  induction m as [a|k IH]; intros n Hag; simpl in *; [reflexivity|].
  assert (Hn : c1 n = c2 n).
  { apply Hag. pose proof (run_mono (k (c1 n)) c1 (S n)). lia. }
  rewrite <- Hn. apply IH. intros j Hj. apply Hag. lia.
Qed.

Lemma run_stopped (m : Clocked A) (c : clock) (now : Z) :
  (forall k, c k = now) -> forall n, fst (run m c n) = run_at now m.
Proof.
  intros Hc. induction m as [a|k IH]; intros n; simpl; [reflexivity|].
  rewrite Hc. apply IH.
Qed.
End ClockFacts.

(* ================================================================== *)
(** ** [setHours], [setDate] and the next occurrence of a weekday *)
(* ================================================================== *)

Section DateMethodFacts.

Lemma getHours_setHours tza t h m : 0 <= h < 24 -> 0 <= m < 60 ->
  getHours tza (setHours tza t h m 0 0) = h /\
  getMinutes tza (setHours tza t h m 0 0) = m /\
  getSeconds tza (setHours tza t h m 0 0) = 0.
Proof.
  intros Hh Hm.
  unfold getHours, getMinutes, getSeconds, setHours, UTC, LocalTime, MakeDate, MakeTime,
    HourFromTime, MinFromTime, SecFromTime, msPerDay, msPerHour, msPerMinute, msPerSecond.
  set (D := Day (t + tza)).
  replace (D * 86400000 + (h * 3600000 + m * 60000 + 0 * 1000 + 0) - tza + tza)
    with (D * 86400000 + h * 3600000 + m * 60000) by lia.
  repeat split.
  - replace (D * 86400000 + h * 3600000 + m * 60000) with (m * 60000 + (D * 24 + h) * 3600000) by lia.
    rewrite Z.div_add by lia. rewrite (Z.div_small (m * 60000)) by lia.
    replace (0 + (D * 24 + h)) with (h + D * 24) by lia.
    rewrite Z.mod_add by lia. apply Z.mod_small; lia.
  - replace (D * 86400000 + h * 3600000 + m * 60000) with (0 + (D * 1440 + h * 60 + m) * 60000) by lia.
    rewrite Z.div_add by lia. rewrite (Z.div_small 0) by lia.
    replace (0 + (D * 1440 + h * 60 + m)) with (m + (D * 24 + h) * 60) by lia.
    rewrite Z.mod_add by lia. apply Z.mod_small; lia.
  - replace (D * 86400000 + h * 3600000 + m * 60000) with (0 + (D * 86400 + h * 3600 + m * 60) * 1000) by lia.
    rewrite Z.div_add by lia. rewrite (Z.div_small 0) by lia.
    replace (0 + (D * 86400 + h * 3600 + m * 60)) with (0 + (D * 1440 + h * 60 + m) * 60) by lia.
    rewrite Z.mod_add by lia. reflexivity.
Qed.

(** The local reading of an instant set by [setHours]. *)
Lemma setHours_local tza t h m s ms :
  setHours tza t h m s ms + tza = Day (t + tza) * msPerDay + MakeTime h m s ms.
Proof. unfold setHours, UTC, LocalTime, MakeDate. lia. Qed.

Lemma Day_setHours tza t h m : 0 <= h < 24 -> 0 <= m < 60 ->
  Day (setHours tza t h m 0 0 + tza) = Day (t + tza).
Proof.
  intros Hh Hm. rewrite setHours_local. unfold Day at 1.
  unfold MakeTime, msPerDay, msPerHour, msPerMinute, msPerSecond.
  rewrite Z.add_comm. rewrite Z.div_add by lia.
  rewrite Z.div_small by lia. lia.
Qed.

Lemma nextOccurrence_spec tza now h m dayNum :
  0 <= dayNum <= 6 -> 0 <= h < 24 -> 0 <= m < 60 ->
  let t := nextOccurrence tza now h m dayNum in
  getDay tza t = dayNum
  /\ getHours tza t = h /\ getMinutes tza t = m /\ getSeconds tza t = 0
  /\ t + tza = Day (t + tza) * msPerDay + MakeTime h m 0 0
  /\ Day (now + tza) + 1 <= Day (t + tza) <= Day (now + tza) + 7.
Proof.
  intros Hd Hh Hm t. subst t. unfold nextOccurrence.
  set (w := getDay tza now).
  set (du := if dayNum - w <=? 0 then dayNum - w + 7 else dayNum - w).
  assert (Hw : 0 <= w < 7) by (apply Z.mod_pos_bound; lia).
  assert (Hdu : 1 <= du <= 7 /\ (du = dayNum - w \/ du = dayNum - w + 7)).
  { subst du. destruct (Z.leb_spec (dayNum - w) 0); lia. }
  rewrite setDate_getDate.
  destruct (getHours_setHours tza (now + du * msPerDay) h m Hh Hm) as (H1 & H2 & H3).
  assert (HD : Day (setHours tza (now + du * msPerDay) h m 0 0 + tza) = Day (now + tza) + du).
  { rewrite Day_setHours by assumption.
    replace (now + du * msPerDay + tza) with (now + tza + du * msPerDay) by lia.
    apply Day_shift. }
  repeat split; try assumption.
  - unfold getDay, WeekDay, LocalTime. rewrite HD.
    unfold getDay, WeekDay, LocalTime in w.
    destruct Hdu as (_ & [Hdu|Hdu]); rewrite Hdu.
    + replace (Day (now + tza) + (dayNum - w) + 4) with (dayNum + (Day (now + tza) + 4 - w)) by lia.
      pose proof (Z.div_mod (Day (now + tza) + 4) 7 ltac:(lia)) as Hq. fold w in Hq.
      replace (Day (now + tza) + 4 - w) with ((Day (now + tza) + 4) / 7 * 7) by lia.
      rewrite Z.mod_add by lia. apply Z.mod_small. lia.
    + replace (Day (now + tza) + (dayNum - w + 7) + 4) with (dayNum + (Day (now + tza) + 4 - w + 7)) by lia.
      pose proof (Z.div_mod (Day (now + tza) + 4) 7 ltac:(lia)) as Hq. fold w in Hq.
      replace (Day (now + tza) + 4 - w + 7) with (((Day (now + tza) + 4) / 7 + 1) * 7) by lia.
      rewrite Z.mod_add by lia. apply Z.mod_small. lia.
  - rewrite HD. rewrite setHours_local.
    replace (now + du * msPerDay + tza) with (now + tza + du * msPerDay) by lia.
    rewrite Day_shift. reflexivity.
  - rewrite HD. lia.
  - rewrite HD. lia.
Qed.

Lemma time_of_day_bounds (tza t : Z) :
  0 <= MakeTime (getHours tza t) (getMinutes tza t) (getSeconds tza t) 0 < msPerDay.
Proof.
  unfold getHours, getMinutes, getSeconds, HourFromTime, MinFromTime, SecFromTime.
  pose proof (Z.mod_pos_bound (LocalTime tza t / msPerHour) 24 ltac:(lia)).
  pose proof (Z.mod_pos_bound (LocalTime tza t / msPerMinute) 60 ltac:(lia)).
  pose proof (Z.mod_pos_bound (LocalTime tza t / msPerSecond) 60 ltac:(lia)).
  unfold MakeTime, msPerDay, msPerHour, msPerMinute, msPerSecond in *. lia.
Qed.

(** An instant set to a time of day on the day after [now] is after [now];
    on the day of [now] it is less than a day before it. *)
Lemma setHours_bounds (tza now h m s : Z) :
  0 <= MakeTime h m s 0 < msPerDay ->
  now - msPerDay < setHours tza now h m s 0 < now + msPerDay
  /\ now < setHours tza now h m s 0 + msPerDay
  /\ now < setHours tza (now + msPerDay) h m s 0.
Proof.
  intros Ht.
  pose proof (setHours_local tza now h m s 0) as H1.
  pose proof (setHours_local tza (now + msPerDay) h m s 0) as H2.
  replace (now + msPerDay + tza) with (now + tza + 1 * msPerDay) in H2 by lia.
  rewrite Day_shift in H2.
  pose proof (day_time_split (now + tza)) as Hs.
  assert (Hb : 0 <= TimeWithinDay (now + tza) < msPerDay)
    by (apply Z.mod_pos_bound; unfold msPerDay; lia).
  lia.
Qed.

End DateMethodFacts.


(* ================================================================== *)
(** ** The future policy, branch by branch *)
(* ================================================================== *)

Section FuturePolicyFacts.

(** Where the future policy leaves an instant that is not the end of a
    range: after [now], or, for a past instant, one week or one day after
    the instant itself. *)
Lemma adjustToFutureAt_cases (tza now jsDate : Z) (text : string) :
  now < adjustToFutureAt tza now jsDate text false None
  \/ (jsDate <= now
      /\ (adjustToFutureAt tza now jsDate text false None = jsDate + oneWeekMs
          \/ adjustToFutureAt tza now jsDate text false None = jsDate + oneDayMs)).
Proof.
  unfold adjustToFutureAt.
  pose proof (time_of_day_bounds tza jsDate) as Ht.
  destruct (setHours_bounds tza now _ _ _ Ht) as (Hb1 & Hb2 & Hb3).
  destruct (includes (toLowerCase text) "tomorrow").
  { left. rewrite setDate_getDate. replace (1 * msPerDay) with msPerDay by lia.
    exact Hb3. }
  destruct (includes (toLowerCase text) "today").
  { left. destruct (Z.leb_spec (setHours tza now (getHours tza jsDate)
                      (getMinutes tza jsDate) (getSeconds tza jsDate) 0) now).
    - rewrite setDate_getDate. lia.
    - assumption. }
  destruct (Z.leb_spec jsDate now) as [Hpast|Hfut]; [|left; exact Hfut].
  destruct (test true dayOfWeekPattern (toLowerCase text)).
  { right. split; [exact Hpast|]. left. reflexivity. }
  destruct (test true timeOnlyPattern (trim (toLowerCase text))).
  { left. destruct (Z.gtb_spec (setHours tza now (getHours tza jsDate)
                      (getMinutes tza jsDate) (getSeconds tza jsDate) 0) now).
    - assumption.
    - rewrite setDate_getDate. lia. }
  right. split; [exact Hpast|]. right. rewrite setDate_getDate.
  unfold oneDayMs, msPerDay. lia.
Qed.

Lemma unixSeconds_mono (a b : Z) : a <= b -> unixSeconds a <= unixSeconds b.
Proof. intros. unfold unixSeconds. apply Z.div_le_mono; lia. Qed.

End FuturePolicyFacts.

(* ================================================================== *)
(** ** The handler, path by path *)
(* ================================================================== *)

Section HandlerFacts.

Lemma walkDays_total (fuel : nat) :
  forall days currentDay endDayNum,
    (8 <= fuel + List.length days)%nat -> (1 <= fuel)%nat ->
    exists l, walkDays fuel days currentDay endDayNum = Some l /\ l <> [].
Proof.
  induction fuel as [|fuel IH]; intros days cur e Hsum Hpos; [lia|].
  cbn [walkDays].
  assert (Hne : (days ++ [cur])%list <> []) by (destruct days; discriminate).
  destruct (cur =? e); [eexists; split; [reflexivity|exact Hne]|].
  destruct (Nat.ltb_spec 7 (List.length (days ++ [cur]))) as [Hlt|Hge];
    [eexists; split; [reflexivity|exact Hne]|].
  rewrite length_app in Hge. cbn [List.length] in Hge.
  apply IH; rewrite ?length_app; cbn [List.length]; lia.
Qed.

(** The loop always ends, with at least the start day. *)
Lemma daysBetween_nonempty (s e : Z) : daysBetween s e <> [].
Proof.
  unfold daysBetween.
  destruct (walkDays_total 8 [] s e ltac:(cbn; lia) ltac:(lia)) as (l & -> & Hl).
  exact Hl.
Qed.

Lemma mapM_length {A B} (f : A -> Clocked B) (l : list A) (c : clock) :
  forall n, List.length (fst (run (mapM f l) c n)) = List.length l.
Proof.
  induction l as [|x l IH]; intros n; [reflexivity|].
  cbn [mapM]. rewrite !run_bind. cbn [run fst List.length]. rewrite IH. reflexivity.
Qed.

Lemma dayRange_length (s e : Z) : List.length (dayRange s e) = Z.to_nat (e - s + 1).
Proof. unfold dayRange. rewrite length_map, length_seq. reflexivity. Qed.

(** What [parseDateRange] returns, by the shape of the text. *)
Lemma run_parseDateRange (H : Host) (text : string) tz (c : clock) (n : nat) :
  match dateRangeRequest text with
  | None => run (parseDateRange H text tz) c n = (None, n)
  | Some (s, e, _, _) =>
      exists results,
        fst (run (parseDateRange H text tz) c n) = Some results
        /\ List.length results = Z.to_nat (e - s + 1)
  end.
Proof.
  unfold parseDateRange.
  destruct (dateRangeRequest text) as [[[[s e] h] m]|]; [|reflexivity].
  cbn [bind new_Date run]. rewrite run_bind. cbn [run fst].
  eexists. split; [reflexivity|]. rewrite mapM_length. apply dayRange_length.
Qed.

(** What [parseMultipleDays] returns, by the shape of the text. *)
Lemma run_parseMultipleDays (H : Host) (text : string) tz (c : clock) (n : nat) :
  run (parseMultipleDays H text tz) c n
  = match weeklyRequest text with
    | None => (None, n)
    | Some (s, e, h, m) =>
        (Some (map (weekdayEntry H tz (c n) h m) (daysBetween s e)), S n)
    end.
Proof.
  unfold parseMultipleDays.
  destruct (weeklyRequest text) as [[[[s e] h] m]|]; reflexivity.
Qed.

Lemma run_preprocessText (H : Host) (text : string) (c : clock) (n : nat) :
  run (preprocessText H text) c n
  = (preprocessWith (monthName (getMonth (LocalTZA H) (c n))) text, S n).
Proof. reflexivity. Qed.

Lemma seriesResponse_error o text r tz results :
  seriesResponse o text r tz results = InternalError <-> results = [].
Proof.
  unfold seriesResponse. destruct results; split; intros Hx;
    try reflexivity; discriminate.
Qed.

(** The generic path always answers with a body. *)
Lemma run_resolveGeneric_answers (H : Host) o text tz (c : clock) (n : nat) :
  fst (run (resolveGeneric H o text tz) c n) <> InternalError.
Proof.
  unfold resolveGeneric. rewrite run_bind. cbn [bind new_Date run fst snd].
  destruct (chrono_parse H text (c n)) as [|result rest]; [discriminate|].
  rewrite run_bind. destruct (r_end result); [rewrite run_bind|]; discriminate.
Qed.

(** The handler on a text of the weekday-range shape: two readings of the
    clock, the first for the month of the normalizer, the second for the
    expander. *)
Lemma run_resolve_weekly (H : Host) (c : clock) (n : nat) (originalText : string)
      s e h m :
  hasTimeForScheduling originalText = true ->
  weeklyRequest (preprocessWith (monthName (getMonth (LocalTZA H) (c n))) originalText)
    = Some (s, e, h, m) ->
  let text := preprocessWith (monthName (getMonth (LocalTZA H) (c n))) originalText in
  run (resolve H originalText) c n
  = (seriesResponse originalText text false (detectTimezone H text)
       (map (weekdayEntry H (detectTimezone H text) (c (S n)) h m) (daysBetween s e)),
     S (S n)).
Proof.
  intros Hrel Hreq text. unfold resolve. rewrite Hrel. cbn [negb].
  rewrite run_bind, run_preprocessText. cbn [fst snd]. fold text.
  rewrite run_bind, run_parseMultipleDays. fold text in Hreq. rewrite Hreq.
  reflexivity.
Qed.

Lemma detectTimezone_no_offset (H : Host) (text : string) :
  scanOffsets offsetPatterns (toLowerCase text) = None ->
  forall minutes, detectTimezone H text <> Some (UTC_OFFSET minutes).
Proof.
  intros Hs minutes. unfold detectTimezone. rewrite Hs.
  destruct (scanAliases _ _); discriminate.
Qed.

End HandlerFacts.

(* ================================================================== *)
(** ** The generic path: ranges and single instants *)
(* ================================================================== *)

Section GenericPath.

(** On Sunday 23 June 2024 chrono reads "friday 3pm to 5pm" as the Friday
    two days before. *)
Lemma friday_range_response :
  run_at Example.sunday_noon (parse Example.host (Some "friday 3pm to 5pm"))
  = Found (mkSingle "friday 3pm to 5pm" None true None
             (mkResolved 1719586800000 None 1719586800 true)
             (Some (mkResolved 1719075600000 None 1719075600 true))
             (Some (-511200000))).
Proof. vm_compute. reflexivity. Qed.

(** C1 (the code departs from the claim).  The end-of-range branch pushes
    an end that is not after the start forward by one day, once: an end
    that is a day or more before the start stays at or before it.  On
    Sunday 23 June 2024, 12:00 UTC, "friday 3pm to 5pm" resolves to a start
    on Friday 28 June, 15:00 (the past Friday plus one week) and an end on
    Saturday 22 June, 17:00 (the past Friday plus one day): the end is
    before the start. *)
Theorem range_end_not_after_start :
  (forall tza now jsDate text start,
      jsDate + oneDayMs <= start ->
      adjustToFutureAt tza now jsDate text true (Some start) = jsDate + oneDayMs
      /\ adjustToFutureAt tza now jsDate text true (Some start) <= start)
  /\ exists body endResult,
      run_at Example.sunday_noon (parse Example.host (Some "friday 3pm to 5pm"))
      = Found body
      /\ g_end body = Some endResult
      /\ unixTimestamp (g_start body) = 1719586800
      /\ unixTimestamp endResult = 1719075600
      /\ unixTimestamp endResult < unixTimestamp (g_start body).
Proof.
  split.
  - intros tza now jsDate text start Hle. unfold adjustToFutureAt.
    assert (Hd : 0 < oneDayMs) by (vm_compute; reflexivity).
    destruct (Z.leb_spec jsDate start); [split; lia|lia].
  - rewrite friday_range_response.
    exists (mkSingle "friday 3pm to 5pm" None true None
              (mkResolved 1719586800000 None 1719586800 true)
              (Some (mkResolved 1719075600000 None 1719075600 true))
              (Some (-511200000))),
           (mkResolved 1719075600000 None 1719075600 true).
    cbn [g_end g_start unixTimestamp].
    split; [reflexivity|]. split; [reflexivity|]. split; [reflexivity|].
    split; [reflexivity|]. lia.
Qed.

(** The normalizer turns "meeting 3pm on 1st" into "meeting 3pm on 1st of
    June", which chrono reads as 1 June of the current year. *)
Lemma first_of_month_response :
  run_at Example.sunday_noon (parse Example.host (Some "meeting 3pm on 1st"))
  = Found (mkSingle "meeting 3pm on 1st" (Some "meeting 3pm on 1st of June")
             false None (mkResolved 1717340400000 None 1717340400 true)
             None None).
Proof. vm_compute. reflexivity. Qed.

(** C2 (the code departs from the claim).  The policy leaves an instant
    after [now] in every branch but two: a past instant of a text with a
    weekday is moved by one week, and a past instant of any other text that
    does not start with a time is moved by one day, wherever that lands.  On
    Sunday 23 June 2024, 12:00 UTC, "meeting 3pm on 1st" resolves to 2 June
    2024, 15:00, three weeks before [now]. *)
Theorem single_instant_in_the_past :
  (forall tza now jsDate text,
      now < adjustToFutureAt tza now jsDate text false None
      \/ (jsDate <= now
          /\ (adjustToFutureAt tza now jsDate text false None = jsDate + oneWeekMs
              \/ adjustToFutureAt tza now jsDate text false None = jsDate + oneDayMs)))
  /\ exists body,
      run_at Example.sunday_noon (parse Example.host (Some "meeting 3pm on 1st"))
      = Found body
      /\ g_end body = None
      /\ wasAdjustedToFuture (g_start body) = true
      /\ unixTimestamp (g_start body) = 1717340400
      /\ unixSeconds Example.sunday_noon = 1719144000
      /\ unixTimestamp (g_start body) < unixSeconds Example.sunday_noon.
Proof.
  split; [exact adjustToFutureAt_cases|].
  rewrite first_of_month_response.
  exists (mkSingle "meeting 3pm on 1st" (Some "meeting 3pm on 1st of June")
            false None (mkResolved 1717340400000 None 1717340400 true)
            None None).
  cbn [g_end g_start unixTimestamp wasAdjustedToFuture].
  replace (unixSeconds Example.sunday_noon) with 1719144000
    by (vm_compute; reflexivity).
  split; [reflexivity|]. split; [reflexivity|]. split; [reflexivity|].
  split; [reflexivity|]. split; [reflexivity|]. lia.
Qed.

End GenericPath.

(* ================================================================== *)
(** ** The date-range expander *)
(* ================================================================== *)

Section DateRange.

Lemma daterange_text_request :
  dateRangeRequest Example.daterange_text = Some (15, 20, 22, 0).
Proof. vm_compute. reflexivity. Qed.

Lemma daterange_response :
  run_at Example.tuesday_noon (parse Example.host (Some Example.daterange_text))
  = MultipleTimes
      (mkSeries Example.daterange_text None true (Some (ZoneId "Europe/Amsterdam"))
         (Some (mkInfo (Some "Europe/Amsterdam") 120 false))
         Example.daterange_times 1718568000 6).
Proof. vm_compute. reflexivity. Qed.

(** The same text through [parseDateRange] of [src/src/scheduling-api.js]:
    15 to 20 July 2024 at 20:00 UTC, which is 22:00 in Amsterdam. *)
Lemma earlier_daterange_response :
  run_at Example.tuesday_noon
    (Earlier.parseDateRange Example.host Example.daterange_text
       (detectTimezone Example.host Example.daterange_text))
  = Some (map (fun d => mkEntry (DayNumber d)
                 (newDate 0 2024 6 d 20 0 0 0)
                 (Some (mkInfo (Some "Europe/Amsterdam") 120 false))
                 (unixSeconds (newDate 0 2024 6 d 20 0 0 0)))
              [15; 16; 17; 18; 19; 20]).
Proof. vm_compute. reflexivity. Qed.

(** C3 (the code departs from the claim).  For "available from 15th to
    20th at 10pm netherlands" the expander always returns six entries.  On
    Tuesday 25 June 2024, 12:00 UTC, when 15 to 20 June have passed, the
    future policy moves each day forward by one day only: the entries
    labelled 15 to 20 are 16 to 21 June at 22:00 in Amsterdam, all before
    [now], none in July.  [parseDateRange] of [src/src/scheduling-api.js]
    answers the same request with 15 to 20 July, all after [now]. *)
Theorem date_range_left_in_the_past :
  (forall H tz c n,
      exists results,
        fst (run (parseDateRange H Example.daterange_text tz) c n) = Some results
        /\ List.length results = 6%nat)
  /\ (exists body,
        run_at Example.tuesday_noon (parse Example.host (Some Example.daterange_text))
        = MultipleTimes body
        /\ s_is_range body = true
        /\ s_detected_timezone body = Some (ZoneId "Europe/Amsterdam")
        /\ s_multiple_times body = Example.daterange_times
        /\ map (fun e => DateFromTime (snd e * 1000 + 120 * msPerMinute))
               (s_multiple_times body)
           = [16; 17; 18; 19; 20; 21]
        /\ map (fun e => MonthFromTime (snd e * 1000 + 120 * msPerMinute))
               (s_multiple_times body)
           = [5; 5; 5; 5; 5; 5]
        /\ map (fun e => HourFromTime (snd e * 1000 + 120 * msPerMinute))
               (s_multiple_times body)
           = [22; 22; 22; 22; 22; 22]
        /\ getMonth 0 Example.tuesday_noon = 5
        /\ Forall (fun e => snd e < unixSeconds Example.tuesday_noon)
                  (s_multiple_times body))
  /\ (exists entries,
        run_at Example.tuesday_noon
          (Earlier.parseDateRange Example.host Example.daterange_text
             (detectTimezone Example.host Example.daterange_text))
        = Some entries
        /\ map e_unixTimestamp entries
           = [1721073600; 1721160000; 1721246400; 1721332800; 1721419200; 1721505600]
        /\ Forall (fun e => unixSeconds Example.tuesday_noon <= e_unixTimestamp e)
                  entries).
Proof.
  split; [|split].
  - intros H tz c n.
    pose proof (run_parseDateRange H Example.daterange_text tz c n) as Hdr.
    rewrite daterange_text_request in Hdr.
    destruct Hdr as (results & Hrun & Hlen).
    exists results. split; [exact Hrun|]. rewrite Hlen. reflexivity.
  - rewrite daterange_response. eexists. split; [reflexivity|].
    cbn [s_is_range s_detected_timezone s_multiple_times].
    split; [reflexivity|]. split; [reflexivity|]. split; [reflexivity|].
    split; [vm_compute; reflexivity|]. split; [vm_compute; reflexivity|].
    split; [vm_compute; reflexivity|]. split; [vm_compute; reflexivity|].
    replace (unixSeconds Example.tuesday_noon) with 1719316800
      by (vm_compute; reflexivity).
    unfold Example.daterange_times. repeat constructor.
  - rewrite earlier_daterange_response. eexists. split; [reflexivity|].
    split; [vm_compute; reflexivity|].
    replace (unixSeconds Example.tuesday_noon) with 1719316800
      by (vm_compute; reflexivity).
    cbn [map e_unixTimestamp].
    repeat (constructor; [vm_compute; discriminate|]). constructor.
Qed.

End DateRange.

(* ================================================================== *)
(** ** The weekday-range expander *)
(* ================================================================== *)

Section WeekdayRange.

Lemma weekday_text_relevant : hasTimeForScheduling Example.weekday_text = true.
Proof. vm_compute. reflexivity. Qed.

Lemma weekday_text_normal month :
  preprocessWith month Example.weekday_text = Example.weekday_text.
Proof. vm_compute. reflexivity. Qed.

Lemma weekday_text_request : weeklyRequest Example.weekday_text = Some (1, 4, 22, 0).
Proof. vm_compute. reflexivity. Qed.

Lemma weekday_text_no_offset :
  scanOffsets offsetPatterns (toLowerCase Example.weekday_text) = None.
Proof. vm_compute. reflexivity. Qed.

Lemma daysBetween_walk (s e : Z) :
  0 <= s <= 6 -> 0 <= e <= 6 ->
  daysBetween s e
  = map (fun i => (s + Z.of_nat i) mod 7) (seq 0 (Z.to_nat ((e - s) mod 7) + 1))
  /\ (List.length (daysBetween s e) <= 7)%nat.
Proof.
  intros Hs He.
  assert (Hs' : s = 0 \/ s = 1 \/ s = 2 \/ s = 3 \/ s = 4 \/ s = 5 \/ s = 6) by lia.
  assert (He' : e = 0 \/ e = 1 \/ e = 2 \/ e = 3 \/ e = 4 \/ e = 5 \/ e = 6) by lia.
  repeat (destruct Hs' as [->|Hs']); try subst s;
    repeat (destruct He' as [->|He']); try subst e;
    (split; [vm_compute; reflexivity | vm_compute; lia]).
Qed.

(** The instant of a series entry is never more than the host's bound
    before its naive target. *)
Lemma applySeriesTimezone_named (H : Host) (bound : Z) tz (t h m : Z) :
  (forall zone, tz = Some (ZoneId zone) ->
                converts_fields H zone bound (seriesFields H t h m)) ->
  (forall minutes, tz <> Some (UTC_OFFSET minutes)) ->
  t + LocalTZA H = Day (t + LocalTZA H) * msPerDay + MakeTime h m 0 0 ->
  0 <= bound ->
  t - bound <= fst (applySeriesTimezone H tz t h m).
Proof.
  intros Hconv Hno Hlocal Hb. unfold applySeriesTimezone.
  destruct (truthy tz) as [[minutes|zone]|] eqn:Htz.
  - exfalso. destruct tz as [[mi|z]|]; try discriminate.
    + apply (Hno mi). reflexivity.
    + destruct z; discriminate.
  - assert (Hz : tz = Some (ZoneId zone)).
    { destruct tz as [[mi|z]|]; try discriminate.
      destruct z; [discriminate|]. exact Htz. }
    specialize (Hconv zone Hz). unfold converts_fields, seriesFields in Hconv.
    destruct (fromObject H zone _) as [ts off| |]; cbn [fst]; try lia.
    destruct Hconv as (Hts & Hoff).
    unfold getFullYear, getMonth, getDate in Hts. rewrite utcReading_fields in Hts.
    unfold LocalTime in Hts. lia.
  - cbn [fst]. lia.
Qed.

(** The next occurrence is at least 22 hours away when the time is 22:00. *)
Lemma nextOccurrence_after (tza now dayNum : Z) :
  0 <= dayNum <= 6 ->
  now + 22 * msPerHour < nextOccurrence tza now 22 0 dayNum.
Proof.
  intros Hd.
  destruct (nextOccurrence_spec tza now 22 0 dayNum Hd ltac:(lia) ltac:(lia))
    as (_ & _ & _ & _ & Hloc & Hday & _).
  pose proof (day_time_split (now + tza)) as Hsplit.
  assert (Hlt : 0 <= TimeWithinDay (now + tza) < msPerDay)
    by (apply Z.mod_pos_bound; unfold msPerDay; lia).
  unfold MakeTime, msPerDay, msPerHour, msPerMinute, msPerSecond in *. lia.
Qed.

(** C4.  For the text "available on monday 10pm to thursday 10pm est", on
    every host whose local time is UTC plus a fixed offset and on every
    clock, with [now] the instant the expander reads (the second reading
    of the request): the handler answers with a series that is not a
    range, labelled monday, tuesday, wednesday, thursday; the naive target
    of each entry falls on that weekday at 22:00:00 local time, after
    [now]; and every timestamp is at or after [now].  The last part is
    proved for the four conversions the request makes, one for each
    target, with the local date of the target and the time 22:00:00: when
    luxon gives a valid [DateTime] for such a field set, it is the UTC
    reading of the fields moved by the offset of the zone, an offset at
    most 22 hours ahead of the host's (US Eastern time is behind UTC, and
    22:00 is not a time its transitions skip).  Nothing is asked of other
    field sets.  In general the walk from a start to an end weekday is the
    forward walk modulo 7, both ends included, of at most 7 days. *)
Theorem weekday_range_example (H : Host) (c : clock)
        (Hconv : forall zone d,
            detectTimezone H Example.weekday_text = Some (ZoneId zone) ->
            In d [1; 2; 3; 4] ->
            converts_fields H zone (22 * msPerHour)
              (seriesFields H (nextOccurrence (LocalTZA H) (c 1%nat) 22 0 d) 22 0)) :
  let now := c 1%nat in
  let tza := LocalTZA H in
  let tz := detectTimezone H Example.weekday_text in
  let targets := map (nextOccurrence tza now 22 0) [1; 2; 3; 4] in
  (forall s e, 0 <= s <= 6 -> 0 <= e <= 6 ->
     daysBetween s e
     = map (fun i => (s + Z.of_nat i) mod 7) (seq 0 (Z.to_nat ((e - s) mod 7) + 1))
     /\ (List.length (daysBetween s e) <= 7)%nat)
  /\ (exists body,
        run (parse H (Some Example.weekday_text)) c 0 = (MultipleTimes body, 2%nat)
        /\ s_is_range body = false
        /\ s_multiple_times body
           = combine (map (fun n => DayName (Some n))
                          ["monday"; "tuesday"; "wednesday"; "thursday"])
                     (map (fun t => unixSeconds (fst (applySeriesTimezone H tz t 22 0)))
                          targets)
        /\ Forall (fun e => unixSeconds now <= snd e) (s_multiple_times body))
  /\ map (getDay tza) targets = [1; 2; 3; 4]
  /\ Forall (fun t => getHours tza t = 22 /\ getMinutes tza t = 0
                      /\ getSeconds tza t = 0 /\ now < t) targets.
Proof.
  intros now tza tz targets.
  assert (Hspec : forall d, In d [1; 2; 3; 4] ->
            getDay tza (nextOccurrence tza now 22 0 d) = d
            /\ getHours tza (nextOccurrence tza now 22 0 d) = 22
            /\ getMinutes tza (nextOccurrence tza now 22 0 d) = 0
            /\ getSeconds tza (nextOccurrence tza now 22 0 d) = 0
            /\ now < nextOccurrence tza now 22 0 d
            /\ unixSeconds now
               <= unixSeconds (fst (applySeriesTimezone H tz (nextOccurrence tza now 22 0 d) 22 0))).
  { intros d Hin.
    assert (Hd : 0 <= d <= 6) by (destruct Hin as [<-|[<-|[<-|[<-|[]]]]]; lia).
    destruct (nextOccurrence_spec tza now 22 0 d Hd ltac:(lia) ltac:(lia))
      as (H1 & H2 & H3 & H4 & Hloc & _).
    pose proof (nextOccurrence_after tza now d Hd) as Hafter.
    assert (Hmh : 0 <= 22 * msPerHour) by (unfold msPerHour; lia).
    pose proof (applySeriesTimezone_named H (22 * msPerHour) tz
                  (nextOccurrence tza now 22 0 d) 22 0
                  (fun zone Hz => Hconv zone d Hz Hin)
                  (detectTimezone_no_offset H _ weekday_text_no_offset) Hloc Hmh) as Hb.
    repeat split; try assumption; try lia.
    apply unixSeconds_mono. fold tza in Hb. lia. }
  split; [exact daysBetween_walk|]. split; [|split].
  - unfold parse. change (String.eqb Example.weekday_text "") with false. cbv iota.
    pose proof (run_resolve_weekly H c 0 Example.weekday_text 1 4 22 0
                  weekday_text_relevant) as Hrun.
    rewrite weekday_text_normal in Hrun. specialize (Hrun weekday_text_request).
    cbv zeta in Hrun. rewrite Hrun. fold tz. fold tza. fold now.
    change (daysBetween 1 4) with [1; 2; 3; 4].
    eexists. split; [reflexivity|]. cbn [s_is_range s_multiple_times].
    split; [reflexivity|]. split; [reflexivity|].
    cbn [map e_day e_unixTimestamp weekdayEntry mkSeriesEntry].
    repeat constructor; cbn [snd]; apply Hspec; cbn [In]; tauto.
  - subst targets. cbn [map].
    rewrite (proj1 (Hspec 1 ltac:(cbn [In]; tauto))), (proj1 (Hspec 2 ltac:(cbn [In]; tauto))),
      (proj1 (Hspec 3 ltac:(cbn [In]; tauto))), (proj1 (Hspec 4 ltac:(cbn [In]; tauto))).
    reflexivity.
  - subst targets. cbn [map]. repeat constructor; apply Hspec; cbn [In]; tauto.
Qed.

(** The example host converts by the offset of its table, and no zone of
    the table is more than two hours ahead of it. *)
Lemma example_host_converts (zone : string) (f : DateFields) :
  converts_fields Example.host zone (22 * msPerHour) f.
Proof.
  unfold converts_fields, Example.host, fromObject, Example.luxon, Example.zoneOffset.
  destruct (String.eqb zone "UTC");
    [destruct (Example.validFields f); [split; [reflexivity|vm_compute; discriminate]|exact I]|].
  destruct (String.eqb zone "Europe/Amsterdam");
    [destruct (Example.validFields f); [split; [reflexivity|vm_compute; discriminate]|exact I]|].
  destruct (String.eqb zone "America/New_York");
    [destruct (Example.validFields f); [split; [reflexivity|vm_compute; discriminate]|exact I]|].
  exact I.
Defined.

(** On Sunday 23 June 2024: Monday to Thursday at 22:00 in New York. *)
Lemma weekday_range_example_witness :
  exists body,
    run (parse Example.host (Some Example.weekday_text))
        (Example.stopped Example.sunday_noon) 0
    = (MultipleTimes body, 2%nat)
    /\ s_multiple_times body = Example.weekday_times.
Proof.
  destruct (weekday_range_example Example.host (Example.stopped Example.sunday_noon)
              (fun zone d _ _ => example_host_converts zone _))
    as (_ & (body & Hrun & _ & Htimes & _) & _).
  exists body. split; [exact Hrun|]. rewrite Htimes. vm_compute. reflexivity.
Defined.

End WeekdayRange.

(* ================================================================== *)
(** ** The normalizer and the relevance filter *)
(* ================================================================== *)

Section Normalizer.

(** C6 (the code departs from the claim).  In June, "11pm on 23" becomes
    "11pm on 23rd of June"; normalizing that again gives "11pm on 23rd of
    June of June".  With a leading "at", pattern 4 rewrites what pattern 1
    produced, and one call already yields the month twice. *)
Theorem preprocessText_appends_month_twice :
  run_at Example.sunday_noon (preprocessText Example.host "11pm on 23")
  = "11pm on 23rd of June"
  /\ run_at Example.sunday_noon (preprocessText Example.host "11pm on 23rd of June")
     = "11pm on 23rd of June of June"
  /\ run_at Example.sunday_noon
       (t <- preprocessText Example.host "11pm on 23" ;; preprocessText Example.host t)
     = "11pm on 23rd of June of June"
  /\ run_at Example.sunday_noon (preprocessText Example.host "at 11pm on 23")
     = "at 11pm on 23rd of June of June".
Proof. vm_compute. repeat split; reflexivity. Qed.

(** C7, the input the claim fails on: the empty text has no time
    indicator, and the handler answers it as a missing parameter. *)
Lemma empty_text_is_missing_text :
  forallb (fun p => negb (test (fst p) (snd p) "")) timeIndicators = true
  /\ hasTimeForScheduling "" = false
  /\ run (parse Example.host (Some "")) (Example.stopped Example.sunday_noon) 0
     = (MissingText, 0%nat).
Proof. vm_compute. repeat split; reflexivity. Qed.

(** C7, as amended.  For a text that is not empty and that none of the six
    time patterns matches, [hasTimeForScheduling] is false and the handler
    is the constant answer "not scheduling relevant": it depends neither on
    the host (alias table, luxon, chrono) nor on the clock, which it does
    not read. *)
Theorem irrelevant_text_short_circuits (H : Host) (text : string) :
  text <> "" ->
  (forall p, In p timeIndicators -> test (fst p) (snd p) text = false) ->
  hasTimeForScheduling text = false
  /\ parse H (Some text) = Ret (NotRelevant text)
  /\ (forall c n, run (parse H (Some text)) c n = (NotRelevant text, n)).
Proof.
  intros Hne Hnone.
  assert (Hrel : hasTimeForScheduling text = false).
  { unfold hasTimeForScheduling. apply not_true_is_false. intros Hex.
    apply existsb_exists in Hex as (p & Hin & Hp).
    rewrite (Hnone p Hin) in Hp. discriminate. }
  assert (Hparse : parse H (Some text) = Ret (NotRelevant text)).
  { unfold parse. destruct (String.eqb_spec text "") as [->|_]; [contradiction|].
    unfold resolve. rewrite Hrel. reflexivity. }
  split; [exact Hrel|]. split; [exact Hparse|].
  intros c n. rewrite Hparse. reflexivity.
Qed.

(** "see you next week" names no time. *)
Lemma irrelevant_text_short_circuits_witness :
  parse Example.host (Some "see you next week")
  = Ret (NotRelevant "see you next week").
Proof.
  apply (irrelevant_text_short_circuits Example.host "see you next week").
  - discriminate.
  - intros p Hin. unfold timeIndicators in Hin. cbn [In] in Hin.
    repeat (destruct Hin as [<-|Hin]; [vm_compute; reflexivity|]).
    destruct Hin.
Defined.

End Normalizer.

(* ================================================================== *)
(** ** Conversion failures *)
(* ================================================================== *)

Section ConversionFailures.

(** The requests the handler fails on (status 500) are the relevant texts
    that are not a weekday range and hold a date range that counts down;
    nothing else of the request or of the host decides it. *)
Lemma parse_error_iff (H : Host) (q : option string) (c : clock) :
  result (parse H q) c = InternalError <->
  exists o, q = Some o /\ o <> "" /\ hasTimeForScheduling o = true
    /\ let text := preprocessWith (monthName (getMonth (LocalTZA H) (c 0%nat))) o in
       weeklyRequest text = None
       /\ exists s e h m, dateRangeRequest text = Some (s, e, h, m) /\ e < s.
Proof.
  unfold result, parse. split.
  - destruct q as [o|]; [|discriminate].
    destruct (String.eqb_spec o "") as [|Hne]; [discriminate|].
    unfold resolve. destruct (hasTimeForScheduling o) eqn:Hrel; [|discriminate].
    cbn [negb]. rewrite run_bind, run_preprocessText. cbn [fst snd].
    set (text := preprocessWith _ o). rewrite run_bind, run_parseMultipleDays.
    destruct (weeklyRequest text) as [[[[s e] h] m]|] eqn:Hweek; cbn [fst snd].
    + cbn [run fst]. intros Herr. apply seriesResponse_error in Herr.
      apply map_eq_nil in Herr. exfalso. exact (daysBetween_nonempty _ _ Herr).
    + rewrite run_bind.
      pose proof (run_parseDateRange H text (detectTimezone H text) c 1) as Hdr.
      destruct (dateRangeRequest text) as [[[[s e] h] m]|] eqn:Hreq.
      * destruct Hdr as (results & -> & Hlen). cbn [run fst].
        intros Herr. apply seriesResponse_error in Herr. subst results.
        exists o. split; [reflexivity|]. split; [exact Hne|]. split; [exact Hrel|].
        cbv zeta. fold text. split; [exact Hweek|].
        exists s, e, h, m. split; [exact Hreq|]. cbn [List.length] in Hlen. lia.
      * rewrite Hdr. cbn [fst snd]. intros Herr.
        exfalso. exact (run_resolveGeneric_answers _ _ _ _ _ _ Herr).
  - intros (o & -> & Hne & Hrel & Hrest). cbv zeta in Hrest.
    destruct Hrest as (Hweek & s & e & h & m & Hreq & Hlt).
    destruct (String.eqb_spec o "") as [|_]; [contradiction|].
    unfold resolve. rewrite Hrel. cbn [negb].
    rewrite run_bind, run_preprocessText. cbn [fst snd].
    set (text := preprocessWith _ o) in *. rewrite run_bind, run_parseMultipleDays.
    rewrite Hweek. cbn [fst snd]. rewrite run_bind.
    pose proof (run_parseDateRange H text (detectTimezone H text) c 1) as Hdr.
    rewrite Hreq in Hdr. destruct Hdr as (results & -> & Hlen). cbn [run fst].
    apply seriesResponse_error.
    replace (Z.to_nat (e - s + 1)) with 0%nat in Hlen by lia.
    destruct results; [reflexivity|discriminate].
Qed.

(** A failed conversion of a chrono component leaves its naive date. *)
Lemma convertChrono_failed (H : Host) (comp : Component) (tz : TimezoneSpec)
      (c : clock) (n : nat) :
  failed (fromObject H (conversionZone tz) (fst (run (chronoFields H comp) c n))) ->
  fst (run (convertChrono H comp (Some tz)) c n) = (c_date comp, None).
Proof.
  intros Hfail. unfold convertChrono.
  destruct tz as [minutes|zone]; cbn [truthy conversionZone] in *.
  - rewrite run_bind.
    destruct (fromObject H "UTC" _); [destruct Hfail|reflexivity|reflexivity].
  - destruct zone as [|a zone'].
    + reflexivity.
    + rewrite run_bind.
      destruct (fromObject H (String a zone') _);
        [destruct Hfail|reflexivity|reflexivity].
Qed.

Lemma applySeriesTimezone_failed (H : Host) (zone : string) (target h m : Z) :
  failed (fromObject H zone (seriesFields H target h m)) ->
  applySeriesTimezone H (Some (ZoneId zone)) target h m = (target, None).
Proof.
  intros Hfail. unfold applySeriesTimezone. unfold seriesFields in Hfail.
  destruct zone as [|a zone']; cbn [truthy]; [reflexivity|].
  destruct (fromObject H (String a zone') _); [destruct Hfail|reflexivity|reflexivity].
Qed.

(** C8.  Every conversion is one call of luxon's [DateTime.fromObject],
    which may give a valid [DateTime], an invalid one, or throw.  When the
    call made for a component of the generic path fails (for a named zone,
    or in the zone "UTC" for a manual offset), the component is resolved
    from its naive date, exactly as with no timezone: the future policy is
    applied to that date and there is no [timezoneInfo].  When the call
    made for an entry of a weekday series or of a date-range series fails,
    the entry is the one the text would get with no timezone: its naive
    target.  A manual offset in a series makes no such call: the offset is
    subtracted from the target.  Each of these is about the one call: the
    same zone may convert other field sets.  And no failure escapes: the
    handler fails (status 500) exactly on a relevant text that is not a
    weekday range and holds a date range that counts down, so replacing
    luxon by any other, one that always fails included, does not change
    which requests fail. *)
Theorem conversion_failure_falls_back (H : Host) :
  (forall comp tz isEnd start text clk n,
      failed (fromObject H (conversionZone tz) (fst (run (chronoFields H comp) clk n))) ->
      let now := clk (snd (run (convertChrono H comp (Some tz)) clk n)) in
      let final := adjustToFutureAt (LocalTZA H) now (c_date comp) text isEnd start in
      fst (run (convertChrono H comp (Some tz)) clk n) = (c_date comp, None)
      /\ fst (run (convertChrono H comp (Some tz)) clk n)
         = fst (run (convertChrono H comp None) clk n)
      /\ fst (run (processChronoDate H comp (Some tz) isEnd start text) clk n)
         = mkResolved final None (unixSeconds final) (negb (final =? c_date comp)))
  /\ (forall zone target h m,
        failed (fromObject H zone (seriesFields H target h m)) ->
        applySeriesTimezone H (Some (ZoneId zone)) target h m = (target, None))
  /\ (forall zone now h m d,
        failed (fromObject H zone
                  (seriesFields H (nextOccurrence (LocalTZA H) now h m d) h m)) ->
        weekdayEntry H (Some (ZoneId zone)) now h m d = weekdayEntry H None now h m d
        /\ e_jsDate (weekdayEntry H (Some (ZoneId zone)) now h m d)
           = nextOccurrence (LocalTZA H) now h m d
        /\ e_timezoneInfo (weekdayEntry H (Some (ZoneId zone)) now h m d) = None)
  /\ (forall zone text y mo h m d clk n,
        let target :=
          adjustToFutureAt (LocalTZA H) (clk n)
            (newDate (LocalTZA H) y mo d h m 0 0) text false None in
        failed (fromObject H zone (seriesFields H target h m)) ->
        run (dateEntry H text (Some (ZoneId zone)) y mo h m d) clk n
        = run (dateEntry H text None y mo h m d) clk n
        /\ e_jsDate (fst (run (dateEntry H text (Some (ZoneId zone)) y mo h m d) clk n))
           = target
        /\ e_timezoneInfo (fst (run (dateEntry H text (Some (ZoneId zone)) y mo h m d) clk n))
           = None)
  /\ (forall v target h m,
        applySeriesTimezone H (Some (UTC_OFFSET v)) target h m
        = (target - v * msPerMinute, Some (mkInfo None v true)))
  /\ (forall q clk,
        result (parse H q) clk = InternalError <->
        exists o, q = Some o /\ o <> "" /\ hasTimeForScheduling o = true
          /\ let text := preprocessWith (monthName (getMonth (LocalTZA H) (clk 0%nat))) o in
             weeklyRequest text = None
             /\ exists s e h m, dateRangeRequest text = Some (s, e, h, m) /\ e < s)
  /\ (forall (luxon : string -> DateFields -> LuxonResult) q clk,
        result (parse (mkHost (LocalTZA H) (timezoneMap H) luxon (chrono_parse H)) q) clk
        = InternalError
        <-> result (parse H q) clk = InternalError).
Proof.
  split; [|split; [|split; [|split; [|split; [|split]]]]].
  - intros comp tz isEnd start text clk n Hfail now final.
    pose proof (convertChrono_failed H comp tz clk n Hfail) as Hconv.
    split; [exact Hconv|]. split; [rewrite Hconv; reflexivity|].
    unfold processChronoDate. rewrite run_bind. subst final now.
    destruct (run (convertChrono H comp (Some tz)) clk n) as [conv k].
    cbn [fst snd] in *. subst conv. reflexivity.
  - exact (applySeriesTimezone_failed H).
  - intros zone now h m d Hfail. unfold weekdayEntry.
    rewrite (applySeriesTimezone_failed H zone _ h m Hfail).
    repeat split; reflexivity.
  - intros zone text y mo h m d clk n target Hfail. unfold dateEntry.
    rewrite !run_bind. unfold adjustToFuture. cbn [bind new_Date run fst snd].
    fold target.
    rewrite (applySeriesTimezone_failed H zone target h m Hfail).
    repeat split; reflexivity.
  - intros v target h m. reflexivity.
  - exact (parse_error_iff H).
  - intros luxon q clk. rewrite !parse_error_iff. reflexivity.
Qed.

(** On the example host, which knows New York: the 31st of June is no day
    for luxon, and the component resolves from its naive date, while the
    30th converts; 25 is no hour in the zone "UTC" of a manual offset;
    "Atlantis" is no zone, and the entry keeps its target. *)
Lemma conversion_failure_falls_back_witness :
  fst (run (convertChrono Example.host
              (mkComponent (Some 2024) (Some 6) (Some 31) (Some 15) (Some 0) (Some 0)
                           Example.tuesday_noon)
              (Some (ZoneId "America/New_York")))
           (Example.stopped Example.sunday_noon) 0)
  = (Example.tuesday_noon, None)
  /\ fst (run (convertChrono Example.host
                 (mkComponent (Some 2024) (Some 6) (Some 30) (Some 15) (Some 0) (Some 0)
                              Example.tuesday_noon)
                 (Some (ZoneId "America/New_York")))
              (Example.stopped Example.sunday_noon) 0)
     = (1719774000000, Some (mkInfo (Some "America/New_York") (-240) false))
  /\ fst (run (convertChrono Example.host
                 (mkComponent (Some 2024) (Some 6) (Some 30) (Some 25) (Some 0) (Some 0)
                              Example.tuesday_noon)
                 (Some (UTC_OFFSET 120)))
              (Example.stopped Example.sunday_noon) 0)
     = (Example.tuesday_noon, None)
  /\ applySeriesTimezone Example.host (Some (ZoneId "Atlantis/Capital"))
       Example.sunday_noon 22 0
     = (Example.sunday_noon, None).
Proof.
  destruct (conversion_failure_falls_back Example.host) as (Hgen & Hseries & _).
  split; [|split; [|split]].
  - refine (proj1 (Hgen _ (ZoneId "America/New_York") false None ""
                        (Example.stopped Example.sunday_noon) 0%nat _)).
    vm_compute. exact I.
  - vm_compute. reflexivity.
  - refine (proj1 (Hgen _ (UTC_OFFSET 120) false None ""
                        (Example.stopped Example.sunday_noon) 0%nat _)).
    vm_compute. exact I.
  - apply Hseries. vm_compute. exact I.
Defined.

End ConversionFailures.

(* ================================================================== *)
(** ** The clock *)
(* ================================================================== *)

Section ClockReadings.

(** C9, the input the claim fails on: the date-range example reads the
    clock 8 times and the weekday example twice; two clocks that show the
    same instant when the request arrives, one of them a week later from
    the second reading on, give series a week apart. *)
Lemma clock_is_read_by_every_step :
  reads (parse Example.host (Some Example.daterange_text))
        (Example.stopped Example.tuesday_noon) = 8%nat
  /\ reads (parse Example.host (Some Example.weekday_text))
           (Example.stopped Example.sunday_noon) = 2%nat
  /\ Example.stopped Example.sunday_noon 0%nat = Example.jumping Example.sunday_noon 0%nat
  /\ result (parse Example.host (Some Example.weekday_text))
            (Example.stopped Example.sunday_noon)
     = MultipleTimes
         (mkSeries Example.weekday_text None false (Some (ZoneId "America/New_York"))
            (Some (mkInfo (Some "America/New_York") (-240) false))
            Example.weekday_times 1719280800 4)
  /\ result (parse Example.host (Some Example.weekday_text))
            (Example.jumping Example.sunday_noon)
     = MultipleTimes
         (mkSeries Example.weekday_text None false (Some (ZoneId "America/New_York"))
            (Some (mkInfo (Some "America/New_York") (-240) false))
            (map (Example.later 604800) Example.weekday_times) (1719280800 + 604800) 4).
Proof. vm_compute. repeat split; reflexivity. Qed.

Lemma run_or_now (v : option Z) (f : Z -> Z) (c : clock) (n : nat) :
  run (or_now v f) c n = (or_at v f (c n), (n + fallbacks v)%nat).
Proof.
  unfold or_now, or_at, fallbacks.
  destruct v as [z|]; [destruct (z =? 0)|]; cbn [bind new_Date run];
    f_equal; lia.
Qed.

Lemma run_chronoFields (H : Host) (comp : Component) (c : clock) (n : nat) :
  let tza := LocalTZA H in
  let fy := fallbacks (c_year comp) in
  let fm := fallbacks (c_month comp) in
  let fd := fallbacks (c_day comp) in
  run (chronoFields H comp) c n
  = (mkFields (or_at (c_year comp) (getFullYear tza) (c n))
              (or_at (c_month comp) (fun now => getMonth tza now + 1) (c (n + fy)%nat))
              (or_at (c_day comp) (getDate tza) (c (n + fy + fm)%nat))
              (or_zero (c_hour comp)) (or_zero (c_minute comp))
              (or_zero (c_second comp)),
     (n + fy + fm + fd)%nat).
Proof.
  cbv zeta. unfold chronoFields.
  rewrite run_bind, run_or_now. cbn [fst snd].
  rewrite run_bind, run_or_now. cbn [fst snd].
  rewrite run_bind, run_or_now. cbn [fst snd run]. reflexivity.
Qed.

Lemma run_convertChrono (H : Host) (comp : Component) tz (c : clock) (n : nat) :
  run (convertChrono H comp tz) c n
  = match truthy tz with
    | None => ((c_date comp, None), n)
    | Some z =>
        (converted (c_date comp) z
           (fromObject H (conversionZone z) (fst (run (chronoFields H comp) c n))),
         (n + conversionReads comp tz)%nat)
    end.
Proof.
  unfold convertChrono, conversionReads.
  destruct (truthy tz) as [[v|zone]|]; [| |reflexivity];
    rewrite run_bind;
    pose proof (run_chronoFields H comp c n) as Hf; cbv zeta in Hf;
    rewrite Hf; cbn [fst snd conversionZone];
    match goal with
    | |- context [fromObject H ?z ?f] => destruct (fromObject H z f)
    end; cbn [run converted]; f_equal; lia.
Qed.

Lemma run_processChronoDate_at (H : Host) (comp : Component) tz isEnd start text
      (c : clock) (n : nat) :
  let k := (n + conversionReads comp tz)%nat in
  let conv := fst (run (convertChrono H comp tz) c n) in
  let final := adjustToFutureAt (LocalTZA H) (c k) (fst conv) text isEnd start in
  run (processChronoDate H comp tz isEnd start text) c n
  = (mkResolved final (snd conv) (unixSeconds final) (negb (final =? fst conv)), S k).
Proof.
  cbv zeta. unfold processChronoDate. rewrite run_bind.
  assert (Hk : snd (run (convertChrono H comp tz) c n) = (n + conversionReads comp tz)%nat).
  { rewrite run_convertChrono. unfold conversionReads.
    destruct (truthy tz); cbn [snd]; lia. }
  rewrite <- Hk.
  destruct (run (convertChrono H comp tz) c n) as [conv m]. reflexivity.
Qed.

Lemma run_resolveGeneric (H : Host) o text tz (c : clock) (n : nat) :
  run (resolveGeneric H o text tz) c n
  = match chrono_parse H text (c n) with
    | [] => (NoDates o (preprocessed_field text o) tz, S n)
    | r :: _ =>
        let st := run (processChronoDate H (r_start r) tz false None o) c (S n) in
        match r_end r with
        | None =>
            (Found (mkSingle o (preprocessed_field text o) false tz
                      (fst st) None None), snd st)
        | Some endComponent =>
            let en := run (processChronoDate H endComponent tz true
                             (Some (jsDate (fst st))) o) c (snd st) in
            (Found (mkSingle o (preprocessed_field text o) true tz
                      (fst st) (Some (fst en))
                      (Some (jsDate (fst en) - jsDate (fst st)))), snd en)
        end
    end.
Proof.
  unfold resolveGeneric. rewrite run_bind. cbn [bind new_Date run fst snd].
  destruct (chrono_parse H text (c n)) as [|r rest]; [reflexivity|].
  rewrite run_bind. cbv zeta.
  destruct (r_end r) as [endComponent|]; [rewrite run_bind|]; reflexivity.
Qed.

Lemma conversionReads_bound (comp : Component) tz : (conversionReads comp tz <= 3)%nat.
Proof.
  unfold conversionReads, fallbacks.
  destruct (truthy tz); [|lia].
  destruct (c_year comp) as [y|]; [destruct (y =? 0)|];
    (destruct (c_month comp) as [m|]; [destruct (m =? 0)|]);
    (destruct (c_day comp) as [d|]; [destruct (d =? 0)|]); cbn; lia.
Qed.

Lemma resolveGeneric_reads (H : Host) o text tz (c : clock) :
  (2 <= snd (run (resolveGeneric H o text tz) c 1) <= 10)%nat.
Proof.
  rewrite run_resolveGeneric.
  destruct (chrono_parse H text (c 1%nat)) as [|r rest]; [cbn [snd]; lia|].
  cbv zeta.
  pose proof (run_processChronoDate_at H (r_start r) tz false None o c 2) as Hs.
  cbv zeta in Hs. rewrite Hs. cbn [fst snd].
  pose proof (conversionReads_bound (r_start r) tz) as Hb1.
  destruct (r_end r) as [ec|]; [|cbn [snd]; lia].
  match goal with
  | |- context [run (processChronoDate H ec tz true ?st o) c ?k] =>
      pose proof (run_processChronoDate_at H ec tz true st o c k) as He
  end.
  cbv zeta in He. rewrite He. cbn [snd].
  pose proof (conversionReads_bound ec tz) as Hb2. lia.
Qed.

Lemma run_mapM_range {B} (f : Z -> Clocked B) (g : Z -> Z -> B) (s : Z) (c : clock) :
  (forall x n, run (f x) c n = (g (c n) x, S n)) ->
  forall k j n,
    run (mapM f (map (fun i => s + Z.of_nat i) (seq j k))) c n
    = (map (fun i => g (c (n + (i - j))%nat) (s + Z.of_nat i)) (seq j k), (n + k)%nat).
Proof.
  intros Hf. induction k as [|k IH]; intros j n.
  - cbn. f_equal. lia.
  - cbn [seq map mapM]. rewrite run_bind, Hf. cbn [fst snd].
    rewrite run_bind, IH. cbn [fst snd run].
    f_equal; [|lia]. f_equal.
    + f_equal. f_equal. lia.
    + apply map_ext_in. intros i Hi. apply in_seq in Hi.
      f_equal. f_equal. lia.
Qed.

Lemma run_mapM_from {B} (f : Z -> Clocked B) (g : Z -> Z -> B) (s : Z) (c : clock) :
  (forall x n, run (f x) c n = (g (c n) x, S n)) ->
  forall k n,
    run (mapM f (map (fun i => s + Z.of_nat i) (seq 0 k))) c n
    = (map (fun i => g (c (n + i)%nat) (s + Z.of_nat i)) (seq 0 k), (n + k)%nat).
Proof.
  intros Hf k n. rewrite (run_mapM_range f g s c Hf).
  assert (E : map (fun i => g (c (n + (i - 0))%nat) (s + Z.of_nat i)) (seq 0 k)
              = map (fun i => g (c (n + i)%nat) (s + Z.of_nat i)) (seq 0 k)).
  { apply map_ext. intros i. rewrite Nat.sub_0_r. reflexivity. }
  rewrite E. reflexivity.
Qed.

Lemma run_dateEntry_at (H : Host) (text : string) tz y mo h m d (c : clock) (n : nat) :
  run (dateEntry H text tz y mo h m d) c n
  = (dateEntryAt H text tz (c n) y mo h m d, S n).
Proof. reflexivity. Qed.

Lemma run_parseDateRange_at (H : Host) (text : string) tz (c : clock) (n : nat) :
  run (parseDateRange H text tz) c n
  = match dateRangeRequest text with
    | None => (None, n)
    | Some (s, e, h, m) =>
        (Some (map (fun i => dateEntryAt H text tz (c (S n + i)%nat)
                               (getFullYear (LocalTZA H) (c n))
                               (getMonth (LocalTZA H) (c n)) h m (s + Z.of_nat i))
                   (seq 0 (Z.to_nat (e - s + 1)))),
         (S n + Z.to_nat (e - s + 1))%nat)
    end.
Proof.
  unfold parseDateRange.
  destruct (dateRangeRequest text) as [[[[s e] h] m]|]; [|reflexivity].
  cbn [bind new_Date run]. rewrite run_bind. unfold dayRange.
  rewrite (run_mapM_from
             (dateEntry H text tz (getFullYear (LocalTZA H) (c n))
                        (getMonth (LocalTZA H) (c n)) h m)
             (fun now day => dateEntryAt H text tz now (getFullYear (LocalTZA H) (c n))
                               (getMonth (LocalTZA H) (c n)) h m day)
             s c (fun x k => run_dateEntry_at H text tz _ _ h m x c k)
             (Z.to_nat (e - s + 1)) (S n)).
  reflexivity.
Qed.

(** C9, as amended.  Each step reads the clock itself, and the equations
    below say which reading (counted from [n], the number of readings made
    before the step) each value comes from.  [preprocessText] reads once,
    for the name of the month.  [parseMultipleDays] reads once when the
    text is a weekday range, and every entry uses that reading.
    [parseDateRange] reads once for the year and the month, and then
    [adjustToFuture] reads once for every day of the range.
    [processChronoDate] reads once for each of year, month and day that
    chrono does not give (only when a timezone was detected), and then
    once more in [adjustToFuture].  On the generic path [chrono.parse]
    takes a reading for its reference date, then the start is processed,
    then the end.  So a request makes no reading when the text is missing
    or not relevant, 2 for a weekday range, 2 and one for each day for a
    date range, and from 2 to 10 on the generic path; the first reading
    only names the month.  The answer is a function of the text and of the
    readings in this order: a clock that agrees on them gives the same
    answer. *)
Theorem each_step_reads_the_clock (H : Host) (c : clock) :
  let tza := LocalTZA H in
  (forall o n,
      run (preprocessText H o) c n
      = (preprocessWith (monthName (getMonth tza (c n))) o, S n))
  /\ (forall text tz n,
        run (parseMultipleDays H text tz) c n
        = match weeklyRequest text with
          | None => (None, n)
          | Some (s, e, h, m) =>
              (Some (map (weekdayEntry H tz (c n) h m) (daysBetween s e)), S n)
          end)
  /\ (forall jsDate text isEnd start n,
        run (adjustToFuture H jsDate text isEnd start) c n
        = (adjustToFutureAt tza (c n) jsDate text isEnd start, S n))
  /\ (forall text tz n,
        run (parseDateRange H text tz) c n
        = match dateRangeRequest text with
          | None => (None, n)
          | Some (s, e, h, m) =>
              (Some (map (fun i => dateEntryAt H text tz (c (S n + i)%nat)
                                     (getFullYear tza (c n)) (getMonth tza (c n))
                                     h m (s + Z.of_nat i))
                         (seq 0 (Z.to_nat (e - s + 1)))),
               (S n + Z.to_nat (e - s + 1))%nat)
          end)
  /\ (forall comp n,
        let fy := fallbacks (c_year comp) in
        let fm := fallbacks (c_month comp) in
        let fd := fallbacks (c_day comp) in
        run (chronoFields H comp) c n
        = (mkFields (or_at (c_year comp) (getFullYear tza) (c n))
                    (or_at (c_month comp) (fun now => getMonth tza now + 1)
                           (c (n + fy)%nat))
                    (or_at (c_day comp) (getDate tza) (c (n + fy + fm)%nat))
                    (or_zero (c_hour comp)) (or_zero (c_minute comp))
                    (or_zero (c_second comp)),
           (n + fy + fm + fd)%nat))
  /\ (forall comp tz n,
        run (convertChrono H comp tz) c n
        = match truthy tz with
          | None => ((c_date comp, None), n)
          | Some z =>
              (converted (c_date comp) z
                 (fromObject H (conversionZone z)
                    (fst (run (chronoFields H comp) c n))),
               (n + conversionReads comp tz)%nat)
          end)
  /\ (forall comp tz isEnd start text n,
        let k := (n + conversionReads comp tz)%nat in
        let conv := fst (run (convertChrono H comp tz) c n) in
        let final := adjustToFutureAt tza (c k) (fst conv) text isEnd start in
        run (processChronoDate H comp tz isEnd start text) c n
        = (mkResolved final (snd conv) (unixSeconds final)
                      (negb (final =? fst conv)), S k))
  /\ (forall o text tz n,
        run (resolveGeneric H o text tz) c n
        = match chrono_parse H text (c n) with
          | [] => (NoDates o (preprocessed_field text o) tz, S n)
          | r :: _ =>
              let st := run (processChronoDate H (r_start r) tz false None o) c (S n) in
              match r_end r with
              | None =>
                  (Found (mkSingle o (preprocessed_field text o) false tz
                            (fst st) None None), snd st)
              | Some endComponent =>
                  let en := run (processChronoDate H endComponent tz true
                                   (Some (jsDate (fst st))) o) c (snd st) in
                  (Found (mkSingle o (preprocessed_field text o) true tz
                            (fst st) (Some (fst en))
                            (Some (jsDate (fst en) - jsDate (fst st)))), snd en)
              end
          end)
  /\ run (parse H None) c 0 = (MissingText, 0%nat)
  /\ run (parse H (Some "")) c 0 = (MissingText, 0%nat)
  /\ (forall o, o <> "" -> hasTimeForScheduling o = false ->
                run (parse H (Some o)) c 0 = (NotRelevant o, 0%nat))
  /\ (forall o, o <> "" -> hasTimeForScheduling o = true ->
        let text := preprocessWith (monthName (getMonth tza (c 0%nat))) o in
        let tz := detectTimezone H text in
        run (parse H (Some o)) c 0
        = match weeklyRequest text with
          | Some (s, e, h, m) =>
              (seriesResponse o text false tz
                 (map (weekdayEntry H tz (c 1%nat) h m) (daysBetween s e)), 2%nat)
          | None =>
              match dateRangeRequest text with
              | Some (s, e, h, m) =>
                  (seriesResponse o text true tz
                     (map (fun i => dateEntryAt H text tz (c (2 + i)%nat)
                                      (getFullYear tza (c 1%nat)) (getMonth tza (c 1%nat))
                                      h m (s + Z.of_nat i))
                          (seq 0 (Z.to_nat (e - s + 1)))),
                   (2 + Z.to_nat (e - s + 1))%nat)
              | None => run (resolveGeneric H o text tz) c 1
              end
          end)
  /\ (forall o text tz,
        (2 <= snd (run (resolveGeneric H o text tz) c 1) <= 10)%nat)
  /\ (forall q c', agree c c' 0 (reads (parse H q) c) ->
                   run (parse H q) c 0 = run (parse H q) c' 0).
Proof.
  intros tza.
  split; [intros; reflexivity|].
  split; [intros; apply run_parseMultipleDays|].
  split; [intros; reflexivity|].
  split; [intros; apply run_parseDateRange_at|].
  split; [intros; apply run_chronoFields|].
  split; [intros; apply run_convertChrono|].
  split; [intros; apply run_processChronoDate_at|].
  split; [intros; apply run_resolveGeneric|].
  split; [reflexivity|]. split; [reflexivity|].
  split.
  { intros o Hne Hrel. unfold parse.
    destruct (String.eqb_spec o "") as [|_]; [contradiction|].
    unfold resolve. rewrite Hrel. reflexivity. }
  split.
  { intros o Hne Hrel text tz. unfold parse.
    destruct (String.eqb_spec o "") as [|_]; [contradiction|].
    unfold resolve. rewrite Hrel. cbn [negb].
    rewrite run_bind, run_preprocessText. cbn [fst snd]. fold tza. fold text. fold tz.
    rewrite run_bind, run_parseMultipleDays.
    destruct (weeklyRequest text) as [[[[s e] h] m]|]; [reflexivity|].
    cbn [fst snd]. rewrite run_bind, run_parseDateRange_at.
    destruct (dateRangeRequest text) as [[[[s e] h] m]|]; reflexivity. }
  split; [intros; apply resolveGeneric_reads|].
  intros q c' Hag. apply run_agree. exact Hag.
Qed.

End ClockReadings.

(* ================================================================== *)
(** ** A date range that counts down *)
(* ================================================================== *)

Section CountdownRange.

(** C10, the inputs the claim fails on: a text that also has the
    weekday-range shape is answered by the weekday expander, and a text
    whose meridiem is written "Pm" does not pass the relevance filter. *)
Lemma countdown_range_answered_otherwise :
  dateRangeRequest "monday 9am to friday 20th to 15th at 10pm" = Some (20, 15, 22, 0)
  /\ result (parse Example.host (Some "monday 9am to friday 20th to 15th at 10pm"))
            (Example.stopped Example.sunday_noon)
     = MultipleTimes
         (mkSeries "monday 9am to friday 20th to 15th at 10pm" None false None None
            [(DayName (Some "monday"), 1719219600);
             (DayName (Some "tuesday"), 1719306000);
             (DayName (Some "wednesday"), 1719392400);
             (DayName (Some "thursday"), 1719478800);
             (DayName (Some "friday"), 1719565200)] 1719219600 5)
  /\ dateRangeRequest "20 TO 15 AT 10Pm" = Some (20, 15, 22, 0)
  /\ result (parse Example.host (Some "20 TO 15 AT 10Pm"))
            (Example.stopped Example.sunday_noon)
     = NotRelevant "20 TO 15 AT 10Pm".
Proof. vm_compute. repeat split; reflexivity. Qed.

(** C10, as amended.  For a text of the date-range shape whose start day
    is after its end day, [parseDateRange] returns an empty series; when
    such a text is what the normalizer hands over for a request that passed
    the relevance filter and the weekday expander does not match it, the
    handler reads the first entry of the empty series and the request
    fails with status 500. *)
Theorem countdown_range_is_internal_error (H : Host) (text : string) (s e h m : Z)
        (Hreq : dateRangeRequest text = Some (s, e, h, m)) (Hlt : e < s) :
  (forall tz c n, fst (run (parseDateRange H text tz) c n) = Some [])
  /\ (forall originalText c,
        hasTimeForScheduling originalText = true ->
        fst (run (preprocessText H originalText) c 0) = text ->
        weeklyRequest text = None ->
        result (parse H (Some originalText)) c = InternalError).
Proof.
  assert (Hempty : forall tz c n, fst (run (parseDateRange H text tz) c n) = Some []).
  { intros tz c n. pose proof (run_parseDateRange H text tz c n) as Hdr.
    rewrite Hreq in Hdr. destruct Hdr as (results & -> & Hlen).
    replace (Z.to_nat (e - s + 1)) with 0%nat in Hlen by lia.
    destruct results; [reflexivity|discriminate]. }
  split; [exact Hempty|].
  intros o c Hrel Hpre Hweek. unfold result, parse.
  destruct (String.eqb_spec o "") as [->|_]; [discriminate Hrel|].
  unfold resolve. rewrite Hrel. cbn [negb].
  rewrite run_bind. rewrite Hpre.
  rewrite run_bind, run_parseMultipleDays, Hweek. cbn [fst snd].
  rewrite run_bind, Hempty. reflexivity.
Qed.

(** "20th to 15th at 10pm" on the example host. *)
Lemma countdown_range_is_internal_error_witness :
  result (parse Example.host (Some "20th to 15th at 10pm"))
         (Example.stopped Example.sunday_noon) = InternalError.
Proof.
  destruct (countdown_range_is_internal_error Example.host "20th to 15th at 10pm"
              20 15 22 0 ltac:(vm_compute; reflexivity) ltac:(lia)) as (_ & Hparse).
  apply Hparse; vm_compute; reflexivity.
Defined.

End CountdownRange.

(* ================================================================== *)
(** ** The matcher is sound *)
(* ================================================================== *)

Section MatcherFacts.

Lemma rmatch_Rep (ic greedy : bool) (lo : nat) (hi : option nat) (r : regex) k s :
  rmatch ic (Rep greedy lo hi r) k s
  = rep_loop (rmatch ic r) k greedy lo
      (match hi with Some h => h | None => (lo + String.length (rest s))%nat end)
      O s.
Proof. reflexivity. Qed.

Lemma rep_loop_sound (R : mstate -> mstate -> Prop)
      (step : (mstate -> option mstate) -> mstate -> option mstate)
      (k : mstate -> option mstate) (greedy : bool) (lo : nat)
      (Hstep : forall k' s e, step k' s = Some e -> exists s', R s s' /\ k' s' = Some e) :
  forall n cnt s0 e,
    rep_loop step k greedy lo n cnt s0 = Some e ->
    exists j s', iterP R j s0 s' /\ (lo <= cnt + j)%nat /\ (j <= n)%nat
                 /\ k s' = Some e.
Proof.
  induction n as [|n IHn]; intros cnt s0 e Hl.
  - cbn in Hl. destruct (Nat.leb_spec lo cnt); [|discriminate].
    exists O, s0. cbn. repeat split; auto; lia.
  - cbn [rep_loop] in Hl. cbv zeta in Hl.
    set (stop := if (lo <=? cnt)%nat then k s0 else None) in Hl.
    set (more := step _ s0) in Hl.
    assert (Hstop : stop = Some e ->
              exists j s', iterP R j s0 s' /\ (lo <= cnt + j)%nat
                           /\ (j <= S n)%nat /\ k s' = Some e).
    { subst stop. intros Hs. destruct (Nat.leb_spec lo cnt); [|discriminate].
      exists O, s0. cbn. repeat split; auto; lia. }
    assert (Hmore : more = Some e ->
              exists j s', iterP R j s0 s' /\ (lo <= cnt + j)%nat
                           /\ (j <= S n)%nat /\ k s' = Some e).
    { subst more. intros Hs. apply Hstep in Hs as (s1 & Hr & Hk).
      destruct ((cnt <? lo)%nat || negb (pos s1 =? pos s0)%nat); [|discriminate].
      apply IHn in Hk as (j & s' & Hit & Hlo & Hj & Hk).
      exists (S j), s'. cbn. repeat split; try lia; auto. exists s1. auto. }
    unfold or_else in Hl.
    destruct greedy.
    + destruct more; [injection Hl as <-; apply Hmore; reflexivity|apply Hstop, Hl].
    + destruct stop; [injection Hl as <-; apply Hstop; reflexivity|apply Hmore, Hl].
Qed.

Lemma rmatch_sound (ic : bool) (r : regex) :
  forall k s e, rmatch ic r k s = Some e ->
                exists s', matches ic r s s' /\ k s' = Some e.
Proof.
  induction r as [|cs|r1 IH1 r2 IH2|r1 IH1 r2 IH2|g lo hi r IH|i r IH| |r IH|];
    intros k s e Hm.
  - exists s. split; [reflexivity|exact Hm].
  - cbn [rmatch matches] in *.
    destruct (rest s) as [|c r'] eqn:Hr; [discriminate|].
    destruct (char_matches ic cs c) eqn:Hc; [|discriminate].
    exists (advance c r' s). split; [|exact Hm]. exists c, r'. auto.
  - cbn [rmatch matches] in *.
    apply IH1 in Hm as (s1 & H1 & Hm). apply IH2 in Hm as (s2 & H2 & Hm).
    exists s2. split; [exists s1; auto|exact Hm].
  - cbn [rmatch matches] in *. unfold or_else in Hm.
    destruct (rmatch ic r1 k s) eqn:H1.
    + injection Hm as <-. apply IH1 in H1 as (s' & H1 & Hk). exists s'. auto.
    + apply IH2 in Hm as (s' & H2 & Hk). exists s'. auto.
  - rewrite rmatch_Rep in Hm.
    apply (rep_loop_sound (matches ic r) _ _ _ _ IH) in Hm
      as (j & s' & Hit & Hlo & Hj & Hk).
    exists s'. split; [|exact Hk]. cbn [matches]. exists j.
    repeat split; try lia; auto. destruct hi; [lia|exact I].
  - cbn [rmatch matches] in *.
    apply IH in Hm as (s1 & H1 & Hk). eexists. split; [|exact Hk]. exists s1. auto.
  - cbn [rmatch matches] in *.
    destruct (xorb (word_before s) (word_after s)) eqn:Hx; [|discriminate].
    exists s. auto.
  - cbn [rmatch matches] in *.
    destruct (rmatch ic r Some s); [discriminate|]. exists s. auto.
  - cbn [rmatch matches] in *.
    destruct (Nat.eqb_spec (pos s) 0); [|discriminate]. exists s. auto.
Qed.

(** *** String facts *)

Lemma sapp_assoc (a b c : string) : (a ++ b) ++ c = a ++ (b ++ c).
Proof. induction a as [|x a IH]; cbn; [reflexivity|now rewrite IH]. Qed.

Lemma sapp_nil_r (a : string) : a ++ "" = a.
Proof. induction a as [|x a IH]; cbn; [reflexivity|now rewrite IH]. Qed.

Lemma sapp_length (a b : string) :
  String.length (a ++ b) = (String.length a + String.length b)%nat.
Proof. induction a as [|x a IH]; cbn; [reflexivity|now rewrite IH]. Qed.

Lemma substring_prefix (w post : string) :
  substring 0 (String.length w) (w ++ post) = w.
Proof. induction w as [|x w IH]; cbn; [destruct post; reflexivity|now rewrite IH]. Qed.

Lemma substring_middle (pre w post : string) :
  substring (String.length pre) (String.length w) (pre ++ w ++ post) = w.
Proof. induction pre as [|x pre IH]; cbn; [apply substring_prefix|exact IH]. Qed.

Lemma substring_all (s : string) : substring 0 (String.length s) s = s.
Proof. rewrite <- (sapp_nil_r s) at 2. apply substring_prefix. Qed.

Lemma consumed_refl (s : mstate) : consumed s s "".
Proof. split; cbn; [reflexivity|lia]. Qed.

Lemma consumed_trans (s s1 s2 : mstate) (w1 w2 : string) :
  consumed s s1 w1 -> consumed s1 s2 w2 -> consumed s s2 (w1 ++ w2).
Proof.
  intros (H1 & P1) (H2 & P2). split.
  - rewrite H1, H2, sapp_assoc. reflexivity.
  - rewrite P2, P1, sapp_length. lia.
Qed.

Lemma consumed_set_cap (s s1 : mstate) (w : string) i b e :
  consumed s s1 w -> consumed s (set_cap i b e s1) w.
Proof. intros H. exact H. Qed.

Lemma iterP_consumed (R : mstate -> mstate -> Prop)
      (HR : forall s s', R s s' -> exists w, consumed s s' w) :
  forall n s s', iterP R n s s' -> exists w, consumed s s' w.
Proof.
  induction n as [|n IH]; intros s s' H; cbn in H.
  - subst. exists "". apply consumed_refl.
  - destruct H as (s1 & H1 & H2). apply HR in H1 as (w1 & H1).
    apply IH in H2 as (w2 & H2). exists (w1 ++ w2). eapply consumed_trans; eauto.
Qed.

Lemma matches_consumed (ic : bool) (r : regex) :
  forall s s', matches ic r s s' -> exists w, consumed s s' w.
Proof.
  induction r as [|cs|r1 IH1 r2 IH2|r1 IH1 r2 IH2|g lo hi r IH|i r IH| |r IH|];
    intros s s' H; cbn [matches] in H.
  - subst. exists "". apply consumed_refl.
  - destruct H as (c & r' & Hr & _ & ->). exists (String c "").
    split; cbn; [exact Hr|lia].
  - destruct H as (s1 & H1 & H2). apply IH1 in H1 as (w1 & H1).
    apply IH2 in H2 as (w2 & H2). exists (w1 ++ w2). eapply consumed_trans; eauto.
  - destruct H as [H|H]; [apply IH1 in H|apply IH2 in H]; exact H.
  - destruct H as (n & _ & _ & H). exact (iterP_consumed _ IH _ _ _ H).
  - destruct H as (s1 & H1 & ->). apply IH in H1 as (w & H1). exists w. exact H1.
  - destruct H as (-> & _). exists "". apply consumed_refl.
  - subst. exists "". apply consumed_refl.
  - destruct H as (-> & _). exists "". apply consumed_refl.
Qed.

Lemma consumed_at_input (input : string) (s s' : mstate) (w : string) :
  at_input input s -> consumed s s' w ->
  at_input input s' /\ substring (pos s) (pos s' - pos s) input = w.
Proof.
  intros (pre & Hin & Hlen) (Hr & Hp). split.
  - exists (pre ++ w). split.
    + rewrite Hin, Hr, sapp_assoc. reflexivity.
    + rewrite sapp_length. lia.
  - rewrite Hp, Hin, Hr, <- Hlen.
    replace (String.length pre + String.length w - String.length pre)%nat
      with (String.length w) by lia.
    apply substring_middle.
Qed.

Lemma matches_at_input (ic : bool) (r : regex) (input : string) (s s' : mstate) :
  matches ic r s s' -> at_input input s -> at_input input s'.
Proof.
  intros H Ha. apply matches_consumed in H as (w & H).
  exact (proj1 (consumed_at_input _ _ _ _ Ha H)).
Qed.

Lemma group_origin_weaken ic input l1 l2 before after :
  (forall g, In g l1 -> In g l2) ->
  group_origin ic input l1 before after -> group_origin ic input l2 before after.
Proof.
  intros Hin [H|(g & sa & sb & Hg & H)]; [left; exact H|].
  right. exists g, sa, sb. split; [apply Hin, Hg|exact H].
Qed.

Lemma iterP_group (ic : bool) (input : string) (r : regex) (i : nat)
      (IH : forall s s' be, matches ic r s s' -> at_input input s ->
                            lookup_cap i (caps s') = Some be ->
                            group_origin ic input (group_bodies r i)
                                         (lookup_cap i (caps s)) be) :
  forall n s s' be, iterP (matches ic r) n s s' -> at_input input s ->
                    lookup_cap i (caps s') = Some be ->
                    group_origin ic input (group_bodies r i) (lookup_cap i (caps s)) be.
Proof.
  induction n as [|n IHn]; intros s s' be H Ha Hl; cbn in H.
  - subst. left. exact Hl.
  - destruct H as (s1 & H1 & H2).
    pose proof (matches_at_input _ _ _ _ _ H1 Ha) as Ha1.
    destruct (IHn _ _ _ H2 Ha1 Hl) as [Hb|Hb]; [|right; exact Hb].
    exact (IH _ _ _ H1 Ha Hb).
Qed.

Lemma matches_group (ic : bool) (input : string) (i : nat) (r : regex) :
  forall s s' be, matches ic r s s' -> at_input input s ->
                  lookup_cap i (caps s') = Some be ->
                  group_origin ic input (group_bodies r i) (lookup_cap i (caps s)) be.
Proof.
  induction r as [|cs|r1 IH1 r2 IH2|r1 IH1 r2 IH2|g lo hi r IH|j r IH| |r IH|];
    intros s s' be H Ha Hl; cbn [matches group_bodies] in *.
  - subst. left. exact Hl.
  - destruct H as (c & r' & _ & _ & ->). left. exact Hl.
  - destruct H as (s1 & H1 & H2).
    pose proof (matches_at_input _ _ _ _ _ H1 Ha) as Ha1.
    destruct (IH2 _ _ _ H2 Ha1 Hl) as [Hb|Hb].
    + eapply group_origin_weaken; [|exact (IH1 _ _ _ H1 Ha Hb)].
      intros g Hg. apply in_or_app. left. exact Hg.
    + eapply group_origin_weaken; [|right; exact Hb].
      intros g Hg. apply in_or_app. right. exact Hg.
  - destruct H as [H|H].
    + eapply group_origin_weaken; [|exact (IH1 _ _ _ H Ha Hl)].
      intros g Hg. apply in_or_app. left. exact Hg.
    + eapply group_origin_weaken; [|exact (IH2 _ _ _ H Ha Hl)].
      intros g Hg. apply in_or_app. right. exact Hg.
  - destruct H as (n & _ & _ & H). exact (iterP_group _ _ _ _ IH _ _ _ _ H Ha Hl).
  - destruct H as (s1 & H1 & ->). cbn [set_cap caps lookup_cap] in Hl.
    destruct (Nat.eqb_spec i j) as [->|Hne].
    + injection Hl as <-. right. exists r, s, s1.
      split; [left; reflexivity|]. auto.
    + cbn [app]. exact (IH _ _ _ H1 Ha Hl).
  - destruct H as (-> & _). left. exact Hl.
  - subst. left. exact Hl.
  - destruct H as (-> & _). left. exact Hl.
Qed.

(** Where a search starts an attempt, and what the attempt went through. *)
Lemma search_sound (ic : bool) (r : regex) (input : string) :
  forall fuel s m,
    at_input input s ->
    search ic r input fuel s = Some m ->
    exists s0 e, at_input input s0 /\ caps s0 = [] /\ (pos s <= pos s0)%nat
                 /\ matches ic r s0 e
                 /\ m = MatchResult (pos s0) (pos e) (caps e) input.
Proof.
  induction fuel as [|fuel IH]; intros s m Ha Hs; cbn [search] in Hs.
  - destruct (rmatch ic r Some _) as [e|] eqn:Hm; [|destruct (rest s); discriminate].
    injection Hs as <-. apply rmatch_sound in Hm as (e' & Hm & He).
    injection He as <-. exists (MState (pos s) (prev s) (rest s) []), e'.
    split; [exact Ha|]. split; [reflexivity|]. split; [cbn; lia|]. split; [exact Hm|].
    reflexivity.
  - destruct (rmatch ic r Some _) as [e|] eqn:Hm.
    + injection Hs as <-. apply rmatch_sound in Hm as (e' & Hm & He).
      injection He as <-. exists (MState (pos s) (prev s) (rest s) []), e'.
      split; [exact Ha|]. split; [reflexivity|]. split; [cbn; lia|]. split; [exact Hm|].
      reflexivity.
    + destruct (rest s) as [|c r'] eqn:Hr; [discriminate|].
      assert (Ha' : at_input input (advance c r' s)).
      { destruct Ha as (pre & Hin & Hlen). exists (pre ++ String c "").
        cbn [advance rest pos]. split.
        - rewrite Hin, Hr, sapp_assoc. reflexivity.
        - rewrite sapp_length. cbn. lia. }
      apply (IH _ _ Ha') in Hs as (s0 & e & H0 & Hc & Hp & Hm' & ->).
      exists s0, e. cbn [advance pos] in Hp. repeat split; auto; lia.
Qed.

Lemma at_input_init (input : string) : at_input input (init_state input).
Proof. exists "". split; reflexivity. Qed.

Lemma exec_sound (ic : bool) (r : regex) (input : string) (m : match_result) :
  exec ic r input = Some m ->
  exists s0 e, at_input input s0 /\ caps s0 = [] /\ matches ic r s0 e
               /\ m = MatchResult (pos s0) (pos e) (caps e) input.
Proof.
  intros H. apply (search_sound _ _ _ _ _ _ (at_input_init input)) in H
    as (s0 & e & H0 & Hc & _ & Hm & ->).
  exists s0, e. auto.
Qed.

(** The text of a group is a word that one of its sub-patterns matched. *)
Lemma exec_group (ic : bool) (r : regex) (input : string) (m : match_result)
      (i : nat) (w : string) :
  exec ic r input = Some m -> group m i = Some w ->
  exists g sa sb, In g (group_bodies r i) /\ matches ic g sa sb /\ consumed sa sb w.
Proof.
  intros He Hg. apply exec_sound in He as (s0 & e & H0 & Hc & Hm & ->).
  unfold group in Hg. cbn [m_caps m_input] in Hg.
  destruct (lookup_cap i (caps e)) as [[b e']|] eqn:Hl; [|discriminate].
  injection Hg as <-.
  destruct (matches_group ic input i r _ _ _ Hm H0 Hl) as [Hb|(g & sa & sb & Hin & Ha & Hg & Hbe)].
  - rewrite Hc in Hb. discriminate.
  - injection Hbe as -> ->. exists g, sa, sb. split; [exact Hin|]. split; [exact Hg|].
    destruct (matches_consumed _ _ _ _ Hg) as (w & Hw).
    rewrite (proj2 (consumed_at_input _ _ _ _ Ha Hw)). exact Hw.
Qed.

End MatcherFacts.

(* ================================================================== *)
(** ** The range of manual offsets *)
(* ================================================================== *)

Section OffsetRange.

Lemma sapp_inv (a b c d : string) :
  a ++ c = b ++ d -> String.length a = String.length b -> a = b /\ c = d.
Proof.
  revert b. induction a as [|x a IH]; intros [|y b] H Hl; cbn in *; try discriminate.
  - auto.
  - injection H as -> H. destruct (IH b H ltac:(lia)) as (-> & ->). auto.
Qed.

Lemma iterP_digits (ic : bool) :
  forall n s s' w, iterP (matches ic digit) n s s' -> consumed s s' w ->
                   String.length w = n /\ all_digits w = true.
Proof.
  induction n as [|n IH]; intros s s' w H (Hr & Hp); cbn in H.
  - subst s'. assert (String.length w = 0%nat) by lia.
    destruct w; [auto|discriminate].
  - destruct H as (s1 & (c & r' & Hc & Hd & ->) & H2).
    destruct (iterP_consumed _ (matches_consumed ic digit) _ _ _ H2) as (w2 & Hw2).
    destruct (IH _ _ _ H2 Hw2) as (Hl2 & Hd2).
    destruct Hw2 as (Hr2 & Hp2). cbn [advance rest pos] in *.
    assert (Hlen : String.length w = String.length (String c w2)) by (cbn; lia).
    assert (Heq : w ++ rest s' = String c w2 ++ rest s').
    { rewrite <- Hr. cbn. rewrite Hc, Hr2. reflexivity. }
    destruct (sapp_inv _ _ _ _ Heq Hlen) as (-> & _).
    cbn. rewrite Hl2. split; [reflexivity|].
    cbn in Hd. rewrite Hd, Hd2. reflexivity.
Qed.

Lemma digit_facts (c : ascii) :
  is_digit c = true ->
  is_space c = false /\ c <> "-"%char /\ c <> "+"%char
  /\ 0 <= Z.of_nat (code c - 48) <= 9.
Proof.
  destruct c as [[] [] [] [] [] [] [] []]; cbn; intros H; try discriminate H;
    (split; [reflexivity|]); (split; [discriminate|]); (split; [discriminate|]); lia.
Qed.

Lemma digits_value_range (w : string) :
  forall acc seen, all_digits w = true -> 0 <= acc ->
    (seen = true \/ w <> "") ->
    exists v, digits_value acc seen w = Some v
              /\ acc * 10 ^ Z.of_nat (String.length w) <= v
              /\ v < (acc + 1) * 10 ^ Z.of_nat (String.length w).
Proof.
  induction w as [|c w IH]; intros acc seen Hd Hacc Hs.
  - destruct Hs as [->|Hs]; [|contradiction]. exists acc. cbn. split; [reflexivity|lia].
  - cbn in Hd. apply andb_true_iff in Hd as (Hc & Hd).
    cbn [digits_value]. rewrite Hc.
    destruct (digit_facts c Hc) as (_ & _ & _ & Hv).
    destruct (IH (acc * 10 + Z.of_nat (code c - 48)) true Hd ltac:(lia) (or_introl eq_refl))
      as (v & Hval & Hlo & Hhi).
    exists v. split; [exact Hval|].
    cbn [String.length]. rewrite Nat2Z.inj_succ, Z.pow_succ_r by lia.
    set (p := 10 ^ Z.of_nat (String.length w)) in *.
    assert (0 < p) by (apply Z.pow_pos_nonneg; lia).
    split; nia.
Qed.

Lemma parseInt_digits (w : string) :
  all_digits w = true -> w <> "" ->
  exists v, parseInt w = Some v /\ 0 <= v < 10 ^ Z.of_nat (String.length w).
Proof.
  intros Hd Hne. destruct w as [|c w]; [contradiction|].
  pose proof Hd as Hd'. cbn in Hd'. apply andb_true_iff in Hd' as (Hc & _).
  destruct (digit_facts c Hc) as (Hsp & Hm & Hp & _).
  destruct (digits_value_range (String c w) 0 false Hd ltac:(lia) (or_intror Hne))
    as (v & Hv & Hlo & Hhi).
  exists v. split; [|lia].
  unfold parseInt. cbn [trimStart]. rewrite Hsp.
  destruct c as [b0 b1 b2 b3 b4 b5 b6 b7].
  destruct b0, b1, b2, b3, b4, b5, b6, b7; try exact Hv;
    first [exfalso; apply Hm; reflexivity | exfalso; apply Hp; reflexivity].
Qed.

(** One or two digits read as a number from 0 to 99; so do exactly two. *)
Lemma matches_d12 (ic : bool) (s s' : mstate) (w : string) :
  (matches ic d12 s s' \/ matches ic d2 s s') -> consumed s s' w ->
  exists v, parseInt w = Some v /\ 0 <= v <= 99.
Proof.
  intros H Hw.
  assert (Hn : exists n, (1 <= n <= 2)%nat /\ iterP (matches ic digit) n s s').
  { destruct H as [H|H]; cbn [matches d12 d2 times] in H;
      destruct H as (n & Hlo & Hhi & H); exists n; split; auto; lia. }
  destruct Hn as (n & Hn & Hit).
  destruct (iterP_digits ic n s s' w Hit Hw) as (Hl & Hd).
  destruct (parseInt_digits w Hd) as (v & Hv & Hr).
  { intros ->. cbn in Hl. lia. }
  exists v. split; [exact Hv|].
  assert (10 ^ Z.of_nat (String.length w) <= 100).
  { rewrite Hl. destruct Hn as (H1 & H2).
    assert (n = 1 \/ n = 2)%nat as [->| ->] by lia; cbn; lia. }
  lia.
Qed.

(** The number read from a group that encloses one or two digits. *)
Lemma group_number (ic : bool) (r : regex) (input : string) (m : match_result) (i : nat) :
  exec ic r input = Some m ->
  (forall g, In g (group_bodies r i) -> g = d12 \/ g = d2) ->
  0 <= or_zero (parseInt_opt (group m i)) <= 99
  /\ (forall w, group m i = Some w -> w <> "" /\ 0 <= or_zero (parseInt w) <= 99).
Proof.
  intros He Hb.
  assert (Hw : forall w, group m i = Some w -> w <> "" /\ 0 <= or_zero (parseInt w) <= 99).
  { intros w Hg.
    destruct (exec_group _ _ _ _ _ _ He Hg) as (g & sa & sb & Hin & Hm & Hc).
    assert (Hm' : matches ic d12 sa sb \/ matches ic d2 sa sb).
    { destruct (Hb g Hin) as [->| ->]; auto. }
    destruct (matches_d12 _ _ _ _ Hm' Hc) as (v & Hv & Hr).
    rewrite Hv. cbn. split; [|exact Hr]. intros ->. discriminate Hv. }
  split; [|exact Hw].
  destruct (group m i) as [w|] eqn:Hg; [|cbn; lia].
  cbn [parseInt_opt]. apply Hw. reflexivity.
Qed.

(** A sign group holds "+" or "-". *)
Lemma group_sign (ic : bool) (r : regex) (input : string) (m : match_result) (i : nat) (w : string) :
  exec ic r input = Some m ->
  (forall g, In g (group_bodies r i) -> g = sign) ->
  group m i = Some w -> w = "+" \/ w = "-".
Proof.
  intros He Hb Hg.
  destruct (exec_group _ _ _ _ _ _ He Hg) as (g & sa & sb & Hin & Hm & Hc).
  rewrite (Hb g Hin) in Hm. cbn [matches sign] in Hm.
  destruct Hm as (c & r' & Hr & Hch & ->).
  destruct Hc as (Hr' & Hp). cbn [advance rest pos] in *.
  assert (Hlen : String.length w = String.length (String c "")) by (cbn; lia).
  assert (Heq : w ++ r' = String c "" ++ r') by (rewrite <- Hr'; exact Hr).
  destruct (sapp_inv _ _ _ _ Heq Hlen) as (-> & _).
  cbn in Hch. destruct ic; cbn in Hch;
    destruct c as [[] [] [] [] [] [] [] []]; cbn in Hch; try discriminate Hch; auto.
Qed.

Lemma offsetPatterns_groups : Forall offset_groups offsetPatterns.
Proof.
  unfold offsetPatterns.
  repeat (constructor;
          [ unfold offset_groups; cbn [fst snd group_bodies app Nat.eqb];
            (split; [|split]);
            [ intros g Hg; cbn in Hg; intuition
            | intros g Hg; cbn in Hg; intuition
            | intros Hs g Hg; try discriminate Hs; cbn in Hg; intuition ] | ]).
  constructor.
Qed.

Lemma offsetOfMatch_range (p : regex) (hasSign : bool) (text : string)
      (m : match_result) (v : Z) :
  offset_groups (p, hasSign) ->
  exec true p text = Some m -> offsetOfMatch hasSign m = Some v ->
  -819 <= v <= 879.
Proof.
  intros (H2 & H3 & H1) He Hv. cbn [fst snd] in *.
  destruct (group_number _ _ _ _ 2%nat He H2) as (Hh & _).
  destruct (group_number _ _ _ _ 3%nat He H3) as (_ & Hm3).
  unfold offsetOfMatch in Hv.
  set (hours := or_zero (parseInt_opt (group m 2))) in *.
  set (minutes := match group m 3 with
                  | Some s => if String.eqb s "" then 0 else or_zero (parseInt s)
                  | None => 0 end) in *.
  assert (Hmin : 0 <= minutes <= 99).
  { subst minutes. destruct (group m 3) as [w|]; [|lia].
    destruct (String.eqb w ""); [lia|]. apply Hm3. reflexivity. }
  set (sg := if hasSign then match group m 1 with
                              | Some s => if String.eqb s "" then "+" else s
                              | None => "+" end else "+") in *.
  assert (Hsg : sg = "+" \/ sg = "-").
  { subst sg. destruct hasSign; [|auto].
    destruct (group m 1) as [w|] eqn:Hg; [|auto].
    destruct (group_sign _ _ _ _ _ _ He (H1 eq_refl) Hg) as [->| ->]; cbn; auto. }
  destruct (offsetRejected sg hours minutes) eqn:Hrej; [discriminate|].
  injection Hv as <-. unfold offsetRejected in Hrej.
  apply orb_false_iff in Hrej as (Hr1 & Hr2).
  apply orb_false_iff in Hr1 as (Hr1 & Hr3).
  unfold offsetMinutes.
  destruct Hsg as [->| ->]; cbn [String.eqb Ascii.eqb Bool.eqb] in *.
  - cbn in Hr2. destruct (Z.gtb_spec hours 14); [discriminate|].
    destruct (Z.eqb_spec hours 14); [destruct (Z.gtb_spec minutes 0); [discriminate|]; lia|lia].
  - cbn in Hr2. rewrite andb_true_r in Hr2.
    destruct (Z.gtb_spec hours 12); [discriminate|]. lia.
Qed.

Lemma scanOffsets_range (ps : list (regex * bool)) (text : string) (v : Z) :
  Forall offset_groups ps -> scanOffsets ps text = Some v -> -819 <= v <= 879.
Proof.
  induction ps as [|[p hs] ps IH]; intros Hok Hs; cbn [scanOffsets] in Hs;
    [discriminate|].
  inversion Hok as [|? ? Hp Hps]; subst.
  destruct (exec true p text) as [m|] eqn:He; [|exact (IH Hps Hs)].
  destruct (offsetOfMatch hs m) as [w|] eqn:Hw; [|exact (IH Hps Hs)].
  injection Hs as <-. exact (offsetOfMatch_range _ _ _ _ _ Hp He Hw).
Qed.

(** X1.  A manual offset that [detectTimezone] returns lies between -819
    and 879 minutes, whatever the text: the hours are checked (at most 14,
    at most 12 behind UTC), the two digits of the minutes are not, so
    "utc-12:99" is read as 12 hours and 99 minutes behind UTC and
    "utc+13:99" as 13 hours and 99 minutes ahead.  Both bounds are
    reached. *)
Theorem manual_offset_range :
  (forall (H : Host) (text : string) (v : Z),
      detectTimezone H text = Some (UTC_OFFSET v) -> -819 <= v <= 879)
  /\ (forall H : Host,
        detectTimezone H "utc-12:99" = Some (UTC_OFFSET (-819))
        /\ detectTimezone H "utc+13:99" = Some (UTC_OFFSET 879)
        /\ detectTimezone H "utc-12:59" = Some (UTC_OFFSET (-779))).
Proof.
  split.
  - intros H text v. unfold detectTimezone.
    destruct (scanOffsets offsetPatterns (toLowerCase text)) as [w|] eqn:Hs.
    + intros Hv. injection Hv as <-.
      exact (scanOffsets_range _ _ _ offsetPatterns_groups Hs).
    + destruct (scanAliases _ _); discriminate.
  - intros H. unfold detectTimezone.
    replace (scanOffsets offsetPatterns (toLowerCase "utc-12:99")) with (Some (-819))
      by (vm_compute; reflexivity).
    replace (scanOffsets offsetPatterns (toLowerCase "utc+13:99")) with (Some 879)
      by (vm_compute; reflexivity).
    replace (scanOffsets offsetPatterns (toLowerCase "utc-12:59")) with (Some (-779))
      by (vm_compute; reflexivity).
    auto.
Qed.

End OffsetRange.

(* ================================================================== *)
(** ** Timezone detection *)
(* ================================================================== *)

Section TimezoneDetection.

(** The scan over the offset patterns returns the offset of the first
    pattern whose match passes the range checks. *)
Lemma scanOffsets_found (ps : list (regex * bool)) (lowerText : string) (v : Z) :
  scanOffsets ps lowerText = Some v <->
  exists before pattern hasSign after m,
    ps = (before ++ (pattern, hasSign) :: after)%list
    /\ Forall (passedOver lowerText) before
    /\ exec true pattern lowerText = Some m
    /\ offsetOfMatch hasSign m = Some v.
Proof.
  split.
  - induction ps as [|[p hs] ps IH]; cbn [scanOffsets]; [discriminate|].
    destruct (exec true p lowerText) as [m|] eqn:He.
    + destruct (offsetOfMatch hs m) as [w|] eqn:Hw.
      * intros Hv. injection Hv as <-.
        exists [], p, hs, ps, m. repeat split; [constructor|exact He|exact Hw].
      * intros Hv. destruct (IH Hv) as (b & p' & hs' & a & m' & -> & Hb & He' & Hw').
        exists ((p, hs) :: b), p', hs', a, m'. repeat split; try assumption.
        constructor; [|exact Hb]. unfold passedOver. cbn [fst snd]. rewrite He. exact Hw.
    + intros Hv. destruct (IH Hv) as (b & p' & hs' & a & m' & -> & Hb & He' & Hw').
      exists ((p, hs) :: b), p', hs', a, m'. repeat split; try assumption.
      constructor; [|exact Hb]. unfold passedOver. cbn [fst snd]. rewrite He. exact I.
  - intros (b & p & hs & a & m & -> & Hb & He & Hw).
    induction Hb as [|[p0 hs0] b Hp Hb IH]; cbn [app scanOffsets].
    + rewrite He, Hw. reflexivity.
    + unfold passedOver in Hp. cbn [fst snd] in Hp.
      destruct (exec true p0 lowerText) as [m0|]; [rewrite Hp|]; exact IH.
Qed.

Lemma scanOffsets_nothing (ps : list (regex * bool)) (lowerText : string) :
  scanOffsets ps lowerText = None <-> Forall (passedOver lowerText) ps.
Proof.
  induction ps as [|[p hs] ps IH]; cbn [scanOffsets].
  - split; [constructor|reflexivity].
  - split.
    + intros Hs. constructor.
      * unfold passedOver. cbn [fst snd].
        destruct (exec true p lowerText) as [m|]; [|exact I].
        destruct (offsetOfMatch hs m); [discriminate|reflexivity].
      * apply IH. destruct (exec true p lowerText) as [m|]; [|exact Hs].
        destruct (offsetOfMatch hs m); [discriminate|exact Hs].
    + intros Hf. inversion Hf as [|? ? Hp Hps]; subst.
      unfold passedOver in Hp. cbn [fst snd] in Hp.
      destruct (exec true p lowerText) as [m|]; [rewrite Hp|]; apply IH; exact Hps.
Qed.

(** What the loop reads off a match of one of its patterns: a sign, and two
    numbers of at most two digits. *)
Lemma offset_match_parts (pattern : regex) (hasSign : bool) (lowerText : string)
      (m : match_result) :
  In (pattern, hasSign) offsetPatterns ->
  exec true pattern lowerText = Some m ->
  (matchSign hasSign m = "+" \/ matchSign hasSign m = "-")
  /\ 0 <= matchHours m <= 99 /\ 0 <= matchMinutes m <= 99.
Proof.
  intros Hin He.
  pose proof (proj1 (Forall_forall _ _) offsetPatterns_groups _ Hin) as (H2 & H3 & H1).
  cbn [fst snd] in *.
  destruct (group_number _ _ _ _ 2%nat He H2) as (Hh & _).
  destruct (group_number _ _ _ _ 3%nat He H3) as (_ & Hm3).
  split; [|split; [exact Hh|]].
  - unfold matchSign. destruct hasSign; [|auto].
    destruct (group m 1) as [w|] eqn:Hg; [|auto].
    destruct (group_sign _ _ _ _ _ _ He (H1 eq_refl) Hg) as [->| ->]; cbn; auto.
  - unfold matchMinutes. destruct (group m 3) as [w|]; [|lia].
    destruct (String.eqb w ""); [lia|]. apply Hm3. reflexivity.
Qed.

Lemma offsetRejected_spec (sign : string) (hours minutes : Z) :
  offsetRejected sign hours minutes = true <->
  (hours > 14 \/ (hours = 14 /\ minutes > 0) \/ (hours > 12 /\ sign = "-")).
Proof.
  unfold offsetRejected.
  rewrite !orb_true_iff, !andb_true_iff, String.eqb_eq.
  rewrite !Z.gtb_ltb, !Z.ltb_lt, Z.eqb_eq. intuition lia.
Qed.

(** C5.  An offset is rejected exactly when its hours exceed 14, or are 14
    with minutes above 0, or exceed 12 under a minus sign; an accepted one
    is the signed number of minutes.  The function returns a manual offset
    of [v] minutes exactly when one of the ten patterns, taken in the order
    of the source, matches the lower-cased text with a sign, hours and
    minutes (read off groups 1, 2 and 3 of that match) that pass the
    checks and give [v], every earlier pattern having no match or a
    rejected one; so the hours of a returned offset are at most 14, at
    most 12 under a minus sign, and its minutes are 0 when the hours are
    14.  It returns no manual offset exactly when every pattern has no
    match or a rejected one.  "UTC+15", "UTC-13" and "UTC+1430" give no
    manual offset on any alias table, and the scan goes on to later
    patterns (a following "GMT+2" or "GMT-3" is found; in "UTC+14:30" the
    last pattern finds "+14", and the text gives 840, while "UTC+15:30"
    and "UTC-13:30" give none); "UTC+14" and "UTC+1400" give 840, "UTC-12"
    gives -720 and "meeting at 9am GMT-7" gives -420. *)
Theorem detectTimezone_offset_validation :
  (forall sign hours minutes,
      offsetRejected sign hours minutes = true <->
      (hours > 14 \/ (hours = 14 /\ minutes > 0) \/ (hours > 12 /\ sign = "-")))
  /\ (forall hours minutes,
        offsetMinutes "+" hours minutes = hours * 60 + minutes
        /\ offsetMinutes "-" hours minutes = - (hours * 60 + minutes))
  /\ (forall H : Host,
        (forall minutes, detectTimezone H "UTC+15" <> Some (UTC_OFFSET minutes))
        /\ (forall minutes, detectTimezone H "UTC-13" <> Some (UTC_OFFSET minutes))
        /\ detectTimezone H "UTC+15 GMT+2" = Some (UTC_OFFSET 120)
        /\ detectTimezone H "UTC-13 GMT-3" = Some (UTC_OFFSET (-180))
        /\ detectTimezone H "UTC+14" = Some (UTC_OFFSET 840)
        /\ detectTimezone H "UTC-12" = Some (UTC_OFFSET (-720))
        /\ detectTimezone H "meeting at 9am GMT-7" = Some (UTC_OFFSET (-420))
        /\ (forall minutes, detectTimezone H "UTC+1430" <> Some (UTC_OFFSET minutes))
        /\ detectTimezone H "UTC+1400" = Some (UTC_OFFSET 840)
        /\ detectTimezone H "UTC+14:30" = Some (UTC_OFFSET 840)
        /\ (forall minutes, detectTimezone H "UTC+15:30" <> Some (UTC_OFFSET minutes))
        /\ (forall minutes, detectTimezone H "UTC-13:30" <> Some (UTC_OFFSET minutes)))
  /\ (forall (H : Host) text v,
        detectTimezone H text = Some (UTC_OFFSET v) <->
        exists before pattern hasSign after m,
          offsetPatterns = (before ++ (pattern, hasSign) :: after)%list
          /\ Forall (passedOver (toLowerCase text)) before
          /\ exec true pattern (toLowerCase text) = Some m
          /\ offsetRejected (matchSign hasSign m) (matchHours m) (matchMinutes m) = false
          /\ v = offsetMinutes (matchSign hasSign m) (matchHours m) (matchMinutes m)
          /\ (matchSign hasSign m = "+" \/ matchSign hasSign m = "-")
          /\ 0 <= matchHours m <= 14
          /\ 0 <= matchMinutes m <= 99
          /\ (matchHours m = 14 -> matchMinutes m = 0)
          /\ (matchSign hasSign m = "-" -> matchHours m <= 12))
  /\ (forall (H : Host) text,
        (forall v, detectTimezone H text <> Some (UTC_OFFSET v)) <->
        Forall (passedOver (toLowerCase text)) offsetPatterns)
  /\ (forall hasSign m,
        offsetOfMatch hasSign m
        = if offsetRejected (matchSign hasSign m) (matchHours m) (matchMinutes m)
          then None
          else Some (offsetMinutes (matchSign hasSign m) (matchHours m) (matchMinutes m))).
Proof.
  assert (Hdet : forall (H : Host) text v,
             detectTimezone H text = Some (UTC_OFFSET v)
             <-> scanOffsets offsetPatterns (toLowerCase text) = Some v).
  { intros H text v. unfold detectTimezone.
    destruct (scanOffsets offsetPatterns (toLowerCase text)) as [w|].
    - split; intros Hv; injection Hv as <-; reflexivity.
    - split; [destruct (scanAliases _ _); discriminate|discriminate]. }
  split; [exact offsetRejected_spec|]. split; [intros hours minutes; split; reflexivity|].
  split; [|split; [|split; [|reflexivity]]].
  - intros H.
    assert (H15 : scanOffsets offsetPatterns (toLowerCase "UTC+15") = None)
      by (vm_compute; reflexivity).
    assert (H13 : scanOffsets offsetPatterns (toLowerCase "UTC-13") = None)
      by (vm_compute; reflexivity).
    assert (H1430 : scanOffsets offsetPatterns (toLowerCase "UTC+1430") = None)
      by (vm_compute; reflexivity).
    assert (H1530 : scanOffsets offsetPatterns (toLowerCase "UTC+15:30") = None)
      by (vm_compute; reflexivity).
    assert (H1330 : scanOffsets offsetPatterns (toLowerCase "UTC-13:30") = None)
      by (vm_compute; reflexivity).
    refine (conj _ (conj _ (conj _ (conj _ (conj _ (conj _ (conj _ (conj _ (conj _
             (conj _ (conj _ _))))))))))).
    + apply detectTimezone_no_offset, H15.
    + apply detectTimezone_no_offset, H13.
    + apply Hdet. vm_compute. reflexivity.
    + apply Hdet. vm_compute. reflexivity.
    + apply Hdet. vm_compute. reflexivity.
    + apply Hdet. vm_compute. reflexivity.
    + apply Hdet. vm_compute. reflexivity.
    + apply detectTimezone_no_offset, H1430.
    + apply Hdet. vm_compute. reflexivity.
    + apply Hdet. vm_compute. reflexivity.
    + apply detectTimezone_no_offset, H1530.
    + apply detectTimezone_no_offset, H1330.
  - intros H text v. rewrite Hdet, scanOffsets_found. split.
    + intros (b & p & hs & a & m & Hps & Hb & He & Hw).
      exists b, p, hs, a, m.
      assert (Hin : In (p, hs) offsetPatterns)
        by (rewrite Hps; apply in_or_app; right; left; reflexivity).
      destruct (offset_match_parts p hs _ m Hin He) as (Hsg & Hh & Hmi).
      change (offsetOfMatch hs m)
        with (if offsetRejected (matchSign hs m) (matchHours m) (matchMinutes m)
              then None
              else Some (offsetMinutes (matchSign hs m) (matchHours m) (matchMinutes m)))
        in Hw.
      destruct (offsetRejected (matchSign hs m) (matchHours m) (matchMinutes m)) eqn:Hrej;
        [discriminate|].
      injection Hw as <-.
      assert (Hn : ~ (matchHours m > 14 \/ (matchHours m = 14 /\ matchMinutes m > 0)
                      \/ (matchHours m > 12 /\ matchSign hs m = "-"))).
      { intros Hx. apply offsetRejected_spec in Hx. rewrite Hrej in Hx. discriminate. }
      repeat split; try assumption; try reflexivity; try lia.
      * intros Hs. destruct (Z.le_gt_cases (matchHours m) 12) as [Hle|Hgt]; [exact Hle|].
        exfalso. apply Hn. right. right. split; [lia|exact Hs].
    + intros (b & p & hs & a & m & Hps & Hb & He & Hrej & Hv & _).
      exists b, p, hs, a, m. repeat split; try assumption.
      change (offsetOfMatch hs m)
        with (if offsetRejected (matchSign hs m) (matchHours m) (matchMinutes m)
              then None
              else Some (offsetMinutes (matchSign hs m) (matchHours m) (matchMinutes m))).
      rewrite Hrej, Hv. reflexivity.
  - intros H text. rewrite <- scanOffsets_nothing. split.
    + intros Hno. destruct (scanOffsets offsetPatterns (toLowerCase text)) as [w|] eqn:Hs;
        [|reflexivity].
      exfalso. apply (Hno w). apply Hdet. exact Hs.
    + intros Hs v Hv. apply Hdet in Hv. rewrite Hs in Hv. discriminate.
Qed.

End TimezoneDetection.

(* ================================================================== *)
(** ** Texts without digits *)
(* ================================================================== *)

Section DigitFreeTexts.

Lemma has_digit_app (a b : string) : has_digit (a ++ b) = has_digit a || has_digit b.
Proof. induction a as [|x a IH]; cbn; [reflexivity|]. rewrite IH, orb_assoc. reflexivity. Qed.

Lemma matches_needs_digit (ic : bool) (r : regex) :
  forall s s', matches ic r s s' -> needs_digit r = true ->
               exists w, consumed s s' w /\ has_digit w = true.
Proof.
  induction r as [|cs|r1 IH1 r2 IH2|r1 IH1 r2 IH2|g lo hi r IH|i r IH| |r IH|];
    intros s s' H Hn; cbn [matches needs_digit] in *; try discriminate Hn.
  - destruct cs; try discriminate Hn.
    destruct H as (c & r' & Hr & Hc & ->). exists (String c "").
    split; [split; cbn; [exact Hr|lia]|]. cbn in *. rewrite Hc. reflexivity.
  - destruct H as (s1 & H1 & H2).
    destruct (matches_consumed _ _ _ _ H1) as (w1 & Hw1).
    destruct (matches_consumed _ _ _ _ H2) as (w2 & Hw2).
    apply orb_true_iff in Hn as [Hn|Hn].
    + destruct (IH1 _ _ H1 Hn) as (w & Hw & Hd). exists (w ++ w2).
      split; [eapply consumed_trans; eauto|]. rewrite has_digit_app, Hd. reflexivity.
    + destruct (IH2 _ _ H2 Hn) as (w & Hw & Hd). exists (w1 ++ w).
      split; [eapply consumed_trans; eauto|]. rewrite has_digit_app, Hd.
      apply orb_true_r.
  - apply andb_true_iff in Hn as (Hn1 & Hn2).
    destruct H as [H|H]; [exact (IH1 _ _ H Hn1)|exact (IH2 _ _ H Hn2)].
  - apply andb_true_iff in Hn as (Hlo & Hn). apply Nat.leb_le in Hlo.
    destruct H as (n & Hn1 & _ & H). destruct n as [|n]; [lia|].
    cbn [iterP] in H. destruct H as (s1 & H1 & H2).
    destruct (IH _ _ H1 Hn) as (w & Hw & Hd).
    destruct (iterP_consumed _ (matches_consumed ic r) _ _ _ H2) as (w2 & Hw2).
    exists (w ++ w2). split; [eapply consumed_trans; eauto|].
    rewrite has_digit_app, Hd. reflexivity.
  - destruct H as (s1 & H1 & ->). destruct (IH _ _ H1 Hn) as (w & Hw & Hd).
    exists w. auto.
Qed.

Lemma exec_consumed (ic : bool) (r : regex) (input : string) (m : match_result) :
  exec ic r input = Some m ->
  exists s0 e pre w, matches ic r s0 e /\ consumed s0 e w
                     /\ input = pre ++ w ++ rest e.
Proof.
  intros H. apply exec_sound in H as (s0 & e & (pre & Hin & _) & _ & Hm & _).
  destruct (matches_consumed _ _ _ _ Hm) as (w & Hw).
  exists s0, e, pre, w. split; [exact Hm|]. split; [exact Hw|].
  rewrite Hin, (proj1 Hw). reflexivity.
Qed.

(** A pattern that needs a digit matches no text without one. *)
Lemma exec_without_digit (ic : bool) (r : regex) (input : string) :
  needs_digit r = true -> has_digit input = false -> exec ic r input = None.
Proof.
  intros Hn Hd. destruct (exec ic r input) as [m|] eqn:He; [|reflexivity].
  destruct (exec_sound _ _ _ _ He) as (s0 & e & (pre & Hin & _) & _ & Hm & _).
  destruct (matches_needs_digit _ _ _ _ Hm Hn) as (w & (Hr & _) & Hw).
  rewrite Hin, Hr, !has_digit_app, Hw in Hd. rewrite orb_true_r in Hd. discriminate.
Qed.

Lemma replace_all_no_match (ic : bool) (r : regex) (f : match_result -> string)
      (input : string) :
  exec ic r input = None -> replace_all ic r f input = input.
Proof.
  intros He. unfold replace_all. cbn [replace_from].
  unfold exec in He. cbn [init_state rest] in *. rewrite He. reflexivity.
Qed.

Lemma has_digit_trimStart (s : string) :
  has_digit s = false -> has_digit (trimStart s) = false.
Proof.
  induction s as [|c s IH]; cbn; [auto|]. intros H.
  apply orb_false_iff in H as (Hc & Hs).
  destruct (is_space c); [exact (IH Hs)|]. cbn. rewrite Hc, Hs. reflexivity.
Qed.

Lemma has_digit_trimEnd (s : string) :
  has_digit s = false -> has_digit (trimEnd s) = false.
Proof.
  induction s as [|c s IH]; cbn; [auto|]. intros H.
  apply orb_false_iff in H as (Hc & Hs). specialize (IH Hs).
  destruct (trimEnd s) as [|d t].
  - destruct (is_space c); cbn; [reflexivity|]. rewrite Hc. reflexivity.
  - cbn [has_digit] in *. rewrite Hc. exact IH.
Qed.

Lemma has_digit_trim (s : string) : has_digit s = false -> has_digit (trim s) = false.
Proof. intros H. apply has_digit_trimEnd, has_digit_trimStart, H. Qed.

Lemma is_digit_lower (c : ascii) : is_digit (lower_char c) = is_digit c.
Proof. destruct c as [[] [] [] [] [] [] [] []]; reflexivity. Qed.

Lemma has_digit_lower (s : string) : has_digit (toLowerCase s) = has_digit s.
Proof.
  induction s as [|c s IH]; cbn; [reflexivity|]. rewrite is_digit_lower, IH. reflexivity.
Qed.

Lemma scanOffsets_without_digit (ps : list (regex * bool)) (text : string) :
  Forall (fun p => needs_digit (fst p) = true) ps -> has_digit text = false ->
  scanOffsets ps text = None.
Proof.
  induction ps as [|[p hs] ps IH]; intros Hok Hd; [reflexivity|].
  inversion Hok as [|? ? Hp Hps]; subst. cbn [scanOffsets].
  rewrite (exec_without_digit true p text Hp Hd). exact (IH Hps Hd).
Qed.

Lemma offsetPatterns_need_digit :
  Forall (fun p => needs_digit (fst p) = true) offsetPatterns.
Proof. unfold offsetPatterns. repeat constructor. Qed.

Lemma preprocessWith_without_digit (month text : string) :
  has_digit text = false -> preprocessWith month text = trim text.
Proof.
  intros Hd. apply has_digit_trim in Hd. unfold preprocessWith.
  rewrite (replace_all_no_match true pattern1) by (apply exec_without_digit; [reflexivity|exact Hd]).
  rewrite (replace_all_no_match true pattern2) by (apply exec_without_digit; [reflexivity|exact Hd]).
  rewrite (replace_all_no_match true pattern3) by (apply exec_without_digit; [reflexivity|exact Hd]).
  rewrite (replace_all_no_match true pattern4) by (apply exec_without_digit; [reflexivity|exact Hd]).
  reflexivity.
Qed.

Lemma weeklyRequest_without_digit (text : string) :
  has_digit text = false -> weeklyRequest text = None.
Proof.
  intros Hd. unfold weeklyRequest.
  destruct (exec true weeklyPattern text); [|reflexivity].
  destruct (dayMap_get _ _); [|reflexivity]. destruct (dayMap_get _ _); [|reflexivity].
  rewrite (exec_without_digit true timePattern text eq_refl Hd). reflexivity.
Qed.

Lemma dateRangeRequest_without_digit (text : string) :
  has_digit text = false -> dateRangeRequest text = None.
Proof.
  intros Hd. unfold dateRangeRequest.
  rewrite (exec_without_digit true dateRangePattern text eq_refl Hd). reflexivity.
Qed.

(** X2.  A text without a digit: the normalizer only trims it (and reads
    the clock once), no manual offset is detected, so the zone is the one
    the alias table gives, neither expander applies, and the handler, when
    the text is relevant, goes on to chrono with the trimmed text. *)
Theorem text_without_digits (H : Host) (originalText : string)
        (Hd : has_digit originalText = false) :
  let text := trim originalText in
  let zone := option_map ZoneId (scanAliases (timezoneMap H) (toLowerCase text)) in
  (forall c n, run (preprocessText H originalText) c n = (text, S n))
  /\ detectTimezone H text = zone
  /\ (forall tz c n, run (parseMultipleDays H text tz) c n = (None, n))
  /\ (forall tz c n, run (parseDateRange H text tz) c n = (None, n))
  /\ (forall c n,
        hasTimeForScheduling originalText = true ->
        run (resolve H originalText) c n
        = run (resolveGeneric H originalText text zone) c (S n)).
Proof.
  intros text zone.
  assert (Hpre : forall c n, run (preprocessText H originalText) c n = (text, S n)).
  { intros c n. rewrite run_preprocessText, preprocessWith_without_digit by exact Hd.
    reflexivity. }
  assert (Hdt : has_digit text = false) by (apply has_digit_trim, Hd).
  assert (Htz : detectTimezone H text = zone).
  { unfold detectTimezone.
    rewrite (scanOffsets_without_digit _ _ offsetPatterns_need_digit)
      by (rewrite has_digit_lower; exact Hdt).
    reflexivity. }
  assert (Hwk : forall tz c n, run (parseMultipleDays H text tz) c n = (None, n)).
  { intros tz c n. rewrite run_parseMultipleDays, weeklyRequest_without_digit by exact Hdt.
    reflexivity. }
  assert (Hdr : forall tz c n, run (parseDateRange H text tz) c n = (None, n)).
  { intros tz c n. pose proof (run_parseDateRange H text tz c n) as Hr.
    rewrite dateRangeRequest_without_digit in Hr by exact Hdt. exact Hr. }
  split; [exact Hpre|]. split; [exact Htz|]. split; [exact Hwk|]. split; [exact Hdr|].
  intros c n Hrel. unfold resolve. rewrite Hrel. cbn [negb].
  rewrite run_bind, Hpre. cbn [fst snd]. rewrite run_bind, Hwk. cbn [fst snd].
  rewrite run_bind, Hdr. cbn [fst snd]. rewrite Htz. reflexivity.
Qed.

Lemma text_without_digits_witness :
  has_digit "  Tomorrow at noon, Netherlands " = false
  /\ run (preprocessText Example.host "  Tomorrow at noon, Netherlands ")
         (Example.stopped Example.sunday_noon) 0
     = ("Tomorrow at noon, Netherlands", 1%nat)
  /\ detectTimezone Example.host "Tomorrow at noon, Netherlands"
     = Some (ZoneId "Europe/Amsterdam").
Proof.
  assert (Hd : has_digit "  Tomorrow at noon, Netherlands " = false) by reflexivity.
  destruct (text_without_digits Example.host _ Hd) as (Hpre & Htz & _).
  split; [exact Hd|]. split; [apply Hpre|].
  replace (trim "  Tomorrow at noon, Netherlands ") with "Tomorrow at noon, Netherlands"
    in Htz by (vm_compute; reflexivity).
  rewrite Htz. vm_compute. reflexivity.
Defined.

End DigitFreeTexts.

(* ================================================================== *)
(** ** What a relevant text contains *)
(* ================================================================== *)

Section Relevance.

(** Literals, under the [i] flag. *)
Lemma toLowerCase_app (a b : string) :
  toLowerCase (a ++ b) = toLowerCase a ++ toLowerCase b.
Proof. induction a as [|x a IH]; cbn; [reflexivity|now rewrite IH]. Qed.

Lemma prefix_app (b c : string) : prefix b (b ++ c) = true.
Proof.
  induction b as [|x b IH]; cbn; [destruct c; reflexivity|].
  destruct (ascii_dec x x) as [_|Hn]; [exact IH|contradiction].
Qed.

Lemma includes_app (a b c : string) : includes (a ++ b ++ c) b = true.
Proof.
  induction a as [|x a IH]; cbn [append].
  - destruct (b ++ c) eqn:E; cbn [includes].
    + destruct b; [reflexivity|discriminate E].
    + rewrite <- E, prefix_app. reflexivity.
  - cbn [includes]. rewrite IH. apply orb_true_r.
Qed.

Lemma matches_lit (str : string) :
  forall s s', matches true (lit str) s s' ->
               exists w, consumed s s' w /\ toLowerCase w = toLowerCase str.
Proof.
  induction str as [|c str IH]; intros s s' H.
  - cbn in H. subst. exists "". split; [apply consumed_refl|reflexivity].
  - assert (Hc : forall s s1, matches true (Chr (CLit c)) s s1 ->
                   consumed s s1 (String (match rest s with String x _ => x | _ => c end) "")
                   /\ lower_char (match rest s with String x _ => x | _ => c end)
                      = lower_char c).
    { intros t t1 (x & r' & Hr & Hm & ->). rewrite Hr. split.
      - split; cbn; [exact Hr|lia].
      - cbn in Hm. apply Ascii.eqb_eq in Hm. symmetry. exact Hm. }
    destruct str as [|d str].
    + cbn [lit] in H. destruct (Hc _ _ H) as (Hw & Hl).
      eexists. split; [exact Hw|]. cbn. rewrite Hl. reflexivity.
    + cbn [lit matches] in H. destruct H as (s1 & H1 & H2).
      change (matches true (Chr (CLit c)) s s1) in H1.
      destruct (Hc _ _ H1) as (Hw & Hl).
      destruct (IH _ _ H2) as (w2 & Hw2 & Hl2).
      eexists. split; [exact (consumed_trans _ _ _ _ _ Hw Hw2)|].
      cbn [append toLowerCase]. rewrite Hl, Hl2. reflexivity.
Qed.

Lemma matches_words (l : list string) :
  forall s s', l <> [] -> matches true (words l) s s' ->
               exists word w, In word l /\ consumed s s' w
                              /\ toLowerCase w = toLowerCase word.
Proof.
  induction l as [|a l IH]; intros s s' Hne H; [contradiction|].
  destruct l as [|b l].
  - cbn in H. destruct (matches_lit a _ _ H) as (w & Hw & Hl).
    exists a, w. split; [left; reflexivity|auto].
  - change (words (a :: b :: l)) with (Alt (lit a) (words (b :: l))) in H.
    cbn [matches] in H. destruct H as [H|H].
    + destruct (matches_lit a _ _ H) as (w & Hw & Hl).
      exists a, w. split; [left; reflexivity|auto].
    + destruct (IH _ _ ltac:(discriminate) H) as (word & w & Hin & Hw & Hl).
      exists word, w. split; [right; exact Hin|auto].
Qed.

Lemma time_word_match (text : string) :
  test true (seqs [WordBoundary; words time_words; WordBoundary]) text = true ->
  exists word, In word time_words /\ includes (toLowerCase text) word = true.
Proof.
  unfold test. destruct (exec _ _ text) as [m|] eqn:He; [|discriminate]. intros _.
  destruct (exec_sound _ _ _ _ He) as (s0 & e & (pre & Hin & _) & _ & Hm & _).
  cbn [seqs matches] in Hm. destruct Hm as (s1 & (-> & _) & s2 & Hw & _).
  destruct (matches_words time_words _ _ ltac:(discriminate) Hw)
    as (word & w & Hword & (Hr & _) & Hl).
  exists word. split; [exact Hword|].
  rewrite Hin, Hr, !toLowerCase_app, Hl.
  replace (toLowerCase word) with word
    by (cbn in Hword; intuition; subst; reflexivity).
  apply includes_app.
Qed.

(** X3.  A text that [hasTimeForScheduling] accepts contains a digit or one
    of the words noon, midnight, evening, morning, afternoon (in any letter
    case).  So the handler answers "not scheduling relevant" to every
    text, other than the empty one, that has neither. *)
Theorem relevant_text_has_digit_or_time_word :
  (forall text,
      hasTimeForScheduling text = true ->
      has_digit text = true
      \/ exists word, In word time_words /\ includes (toLowerCase text) word = true)
  /\ (forall (H : Host) text,
        text <> "" -> has_digit text = false ->
        (forall word, In word time_words -> includes (toLowerCase text) word = false) ->
        parse H (Some text) = Ret (NotRelevant text)).
Proof.
  assert (Hrel : forall text,
      hasTimeForScheduling text = true ->
      has_digit text = true
      \/ exists word, In word time_words /\ includes (toLowerCase text) word = true).
  { intros text Hrel. destruct (has_digit text) eqn:Hd; [left; reflexivity|right].
    unfold hasTimeForScheduling, timeIndicators in Hrel.
    cbn [existsb fst snd] in Hrel.
    unfold test at 1 in Hrel. rewrite exec_without_digit in Hrel by (auto; reflexivity).
    unfold test at 1 in Hrel. rewrite exec_without_digit in Hrel by (auto; reflexivity).
    unfold test at 1 in Hrel. rewrite exec_without_digit in Hrel by (auto; reflexivity).
    cbn [orb] in Hrel.
    unfold test at 2 in Hrel. rewrite exec_without_digit in Hrel by (auto; reflexivity).
    unfold test at 2 in Hrel. rewrite exec_without_digit in Hrel by (auto; reflexivity).
    rewrite !orb_false_r in Hrel. exact (time_word_match text Hrel). }
  split; [exact Hrel|].
  intros H text Hne Hd Hw. unfold parse.
  destruct (String.eqb_spec text "") as [->|_]; [contradiction|].
  unfold resolve. destruct (hasTimeForScheduling text) eqn:Hr; [|reflexivity].
  destruct (Hrel text Hr) as [Hd'|(word & Hin & Hinc)].
  - rewrite Hd in Hd'. discriminate.
  - rewrite (Hw word Hin) in Hinc. discriminate.
Qed.

Lemma relevant_text_has_digit_or_time_word_witness :
  parse Example.host (Some "see you next week") = Ret (NotRelevant "see you next week")
  /\ hasTimeForScheduling "good morning" = true
  /\ hasTimeForScheduling "mornings are fine" = false.
Proof.
  split; [|split; vm_compute; reflexivity].
  apply (proj2 relevant_text_has_digit_or_time_word Example.host).
  - discriminate.
  - reflexivity.
  - intros word Hin. cbn in Hin. intuition; subst; reflexivity.
Defined.

End Relevance.

(* ================================================================== *)
(** ** The shape of the two series *)
(* ================================================================== *)

Section SeriesShape.

Lemma dayMap_get_range (name : string) (v : Z) :
  dayMap_get dayMap name = Some v -> 0 <= v <= 6.
Proof.
  unfold dayMap. cbn [dayMap_get].
  repeat (destruct (String.eqb _ name); [intros Hv; injection Hv as <-; lia|]).
  discriminate.
Qed.

Lemma hour24_of_range (meridiem : string) (hour : Z) :
  0 <= hour <= 99 -> 0 <= hour24_of meridiem hour <= 111.
Proof.
  intros Hh. unfold hour24_of.
  destruct (String.eqb meridiem "pm" && negb (hour =? 12)); [lia|].
  destruct (String.eqb meridiem "am" && (hour =? 12)); lia.
Qed.

Lemma weeklyRequest_range (text : string) s e h m :
  weeklyRequest text = Some (s, e, h, m) ->
  0 <= s <= 6 /\ 0 <= e <= 6 /\ 0 <= h <= 111 /\ 0 <= m <= 99.
Proof.
  unfold weeklyRequest. destruct (exec true weeklyPattern text) as [mw|]; [|discriminate].
  destruct (dayMap_get dayMap _) as [s'|] eqn:Hs; [|discriminate].
  destruct (dayMap_get dayMap (toLowerCase (group_text mw 2))) as [e'|] eqn:He;
    [|discriminate].
  destruct (exec true timePattern text) as [mt|] eqn:Ht; [|discriminate].
  intros Hr. injection Hr as <- <- <- <-.
  assert (H1 : 0 <= or_zero (parseInt_opt (group mt 1)) <= 99).
  { apply (group_number true timePattern text mt 1 Ht).
    cbn. intuition. }
  assert (H2 : 0 <= or_zero (parseInt_opt (group mt 2)) <= 99).
  { apply (group_number true timePattern text mt 2 Ht).
    cbn. intuition. }
  split; [exact (dayMap_get_range _ _ Hs)|]. split; [exact (dayMap_get_range _ _ He)|].
  split; [apply hour24_of_range, H1|exact H2].
Qed.

Lemma dayMap_key_defined (d : Z) :
  0 <= d <= 6 -> exists name, dayMap_key dayMap d = Some name /\ In name weekday_names.
Proof.
  intros Hd.
  assert (Hc : d = 0 \/ d = 1 \/ d = 2 \/ d = 3 \/ d = 4 \/ d = 5 \/ d = 6) by lia.
  repeat (destruct Hc as [->|Hc]; [eexists; split; [reflexivity|cbn; tauto]|]).
  subst. eexists; split; [reflexivity|cbn; tauto].
Qed.

(** X4.  The series of [parseMultipleDays], for every text it accepts: the
    two weekday names are numbered 0 to 6, the hour read is at most 111
    and the minute at most 99 (two digits each, twelve added for "pm"), the
    entries are labelled with the weekdays from the first to the second,
    walking forward through the week, so there are between one and seven
    of them, each with a weekday name, and the clock is read once. *)
Theorem weekday_series_shape (H : Host) (text : string) (tz : option TimezoneSpec)
        (c : clock) (n : nat) (entries : list Entry)
        (Hrun : fst (run (parseMultipleDays H text tz) c n) = Some entries) :
  exists s e h m,
    weeklyRequest text = Some (s, e, h, m)
    /\ 0 <= s <= 6 /\ 0 <= e <= 6 /\ 0 <= h <= 111 /\ 0 <= m <= 99
    /\ map e_day entries
       = map (fun i => DayName (dayMap_key dayMap ((s + Z.of_nat i) mod 7)))
             (seq 0 (Z.to_nat ((e - s) mod 7) + 1))
    /\ Forall (fun l => exists name, l = DayName (Some name) /\ In name weekday_names)
              (map e_day entries)
    /\ (1 <= List.length entries <= 7)%nat
    /\ snd (run (parseMultipleDays H text tz) c n) = S n.
Proof.
  rewrite run_parseMultipleDays in *.
  destruct (weeklyRequest text) as [[[[s e] h] m]|] eqn:Hreq; [|discriminate].
  cbn [fst snd] in *. injection Hrun as <-.
  destruct (weeklyRequest_range _ _ _ _ _ Hreq) as (Hs & He & Hh & Hm).
  destruct (daysBetween_walk s e Hs He) as (Hwalk & Hlen).
  exists s, e, h, m. split; [reflexivity|].
  split; [exact Hs|]. split; [exact He|]. split; [exact Hh|]. split; [exact Hm|].
  assert (Hlabels : map e_day (map (weekdayEntry H tz (c n) h m) (daysBetween s e))
                    = map (fun d => DayName (dayMap_key dayMap d)) (daysBetween s e)).
  { rewrite map_map. reflexivity. }
  split; [rewrite Hlabels, Hwalk, map_map; reflexivity|].
  split.
  - rewrite Hlabels, Hwalk, map_map. apply Forall_forall. intros l Hl.
    apply in_map_iff in Hl as (i & <- & _).
    destruct (dayMap_key_defined ((s + Z.of_nat i) mod 7)) as (name & -> & Hin).
    { pose proof (Z.mod_pos_bound (s + Z.of_nat i) 7 ltac:(lia)). lia. }
    exists name. auto.
  - split; [|reflexivity]. rewrite length_map. split; [|exact Hlen].
    pose proof (daysBetween_nonempty s e). destruct (daysBetween s e); [contradiction|cbn; lia].
Qed.

Lemma weekday_series_shape_witness :
  weeklyRequest "Saturday 9:30am to Monday" = Some (6, 1, 9, 30)
  /\ exists entries,
      fst (run (parseMultipleDays Example.host "Saturday 9:30am to Monday" None)
               (Example.stopped Example.sunday_noon) 0) = Some entries
      /\ map e_day entries
         = [DayName (Some "saturday"); DayName (Some "sunday"); DayName (Some "monday")].
Proof.
  assert (Hreq : weeklyRequest "Saturday 9:30am to Monday" = Some (6, 1, 9, 30))
    by (vm_compute; reflexivity).
  split; [exact Hreq|].
  assert (Hrun : fst (run (parseMultipleDays Example.host "Saturday 9:30am to Monday" None)
                          (Example.stopped Example.sunday_noon) 0)
                 = Some (map (weekdayEntry Example.host None
                                (Example.stopped Example.sunday_noon 0%nat) 9 30)
                             (daysBetween 6 1))).
  { rewrite run_parseMultipleDays, Hreq. reflexivity. }
  eexists. split; [exact Hrun|].
  destruct (weekday_series_shape Example.host "Saturday 9:30am to Monday" None
              (Example.stopped Example.sunday_noon) 0 _ Hrun)
    as (s & e & h & m & Hreq' & _ & _ & _ & _ & Hlabels & _).
  rewrite Hreq in Hreq'. injection Hreq' as <- <- <- <-.
  rewrite Hlabels. reflexivity.
Defined.

Lemma run_dateEntry (H : Host) (text : string) tz y mo h m d (c : clock) (n : nat) :
  run (dateEntry H text tz y mo h m d) c n
  = (mkSeriesEntry (DayNumber d)
       (applySeriesTimezone H tz
          (adjustToFutureAt (LocalTZA H) (c n)
             (newDate (LocalTZA H) y mo d h m 0 0) text false None) h m), S n).
Proof. reflexivity. Qed.

Lemma mapM_dateEntry (H : Host) (text : string) tz y mo h m (l : list Z) (c : clock) :
  forall n,
    map e_day (fst (run (mapM (dateEntry H text tz y mo h m) l) c n)) = map DayNumber l
    /\ snd (run (mapM (dateEntry H text tz y mo h m) l) c n) = (n + List.length l)%nat.
Proof.
  induction l as [|d l IH]; intros n; cbn [mapM].
  - cbn. split; [reflexivity|lia].
  - rewrite !run_bind, run_dateEntry. cbn [run fst snd map List.length e_day mkSeriesEntry].
    destruct (IH (S n)) as (IH1 & IH2). rewrite IH1, IH2. split; [reflexivity|lia].
Qed.

Lemma dateRangeRequest_range (text : string) s e h m :
  dateRangeRequest text = Some (s, e, h, m) ->
  0 <= s <= 99 /\ 0 <= e <= 99 /\ 0 <= h <= 111 /\ 0 <= m <= 99.
Proof.
  unfold dateRangeRequest.
  destruct (exec true dateRangePattern text) as [mt|] eqn:Ht; [|discriminate].
  intros Hr. injection Hr as <- <- <- <-.
  assert (Hg : forall i, (i = 1 \/ i = 2 \/ i = 3 \/ i = 4)%nat ->
                         0 <= or_zero (parseInt_opt (group mt i)) <= 99).
  { intros i Hi. apply (group_number true dateRangePattern text mt i Ht).
    destruct Hi as [->|[->|[->| ->]]]; cbn; intuition. }
  split; [apply Hg; auto|]. split; [apply Hg; auto|].
  split; [apply hour24_of_range, Hg; auto|apply Hg; auto].
Qed.

(** X5.  The series of [parseDateRange], for every text it accepts: the two
    days read are between 0 and 99, the hour at most 111 and the minute at
    most 99; the entries are labelled with the day numbers from the first
    to the second, one apart, so there are at most 100 of them and none
    when the second day is below the first; the clock is read once, and
    once more for every entry. *)
Theorem date_range_series_shape (H : Host) (text : string) (tz : option TimezoneSpec)
        (c : clock) (n : nat) (results : list Entry)
        (Hrun : fst (run (parseDateRange H text tz) c n) = Some results) :
  exists s e h m,
    dateRangeRequest text = Some (s, e, h, m)
    /\ 0 <= s <= 99 /\ 0 <= e <= 99 /\ 0 <= h <= 111 /\ 0 <= m <= 99
    /\ map e_day results = map (fun i => DayNumber (s + Z.of_nat i))
                               (seq 0 (Z.to_nat (e - s + 1)))
    /\ List.length results = Z.to_nat (e - s + 1)
    /\ (List.length results <= 100)%nat
    /\ snd (run (parseDateRange H text tz) c n) = (n + 1 + List.length results)%nat.
Proof.
  unfold parseDateRange in *.
  destruct (dateRangeRequest text) as [[[[s e] h] m]|] eqn:Hreq; [|discriminate].
  cbn [bind new_Date run] in *. rewrite run_bind in *. cbn [run fst snd] in *.
  injection Hrun as <-.
  destruct (dateRangeRequest_range _ _ _ _ _ Hreq) as (Hs & He & Hh & Hm).
  destruct (mapM_dateEntry H text tz (getFullYear (LocalTZA H) (c n))
              (getMonth (LocalTZA H) (c n)) h m (dayRange s e) c (S n)) as (Hl & Hr).
  assert (Hlen : List.length (fst (run (mapM (dateEntry H text tz
                     (getFullYear (LocalTZA H) (c n)) (getMonth (LocalTZA H) (c n)) h m)
                     (dayRange s e)) c (S n))) = Z.to_nat (e - s + 1)).
  { rewrite mapM_length. apply dayRange_length. }
  exists s, e, h, m. split; [reflexivity|].
  split; [exact Hs|]. split; [exact He|]. split; [exact Hh|]. split; [exact Hm|].
  split; [rewrite Hl; unfold dayRange; rewrite map_map; reflexivity|].
  split; [exact Hlen|]. split; [rewrite Hlen; lia|].
  rewrite Hr, Hlen, dayRange_length. lia.
Qed.

Lemma date_range_series_shape_witness :
  dateRangeRequest Example.daterange_text = Some (15, 20, 22, 0)
  /\ exists results,
      fst (run (parseDateRange Example.host Example.daterange_text None)
               (Example.stopped Example.tuesday_noon) 0) = Some results
      /\ map e_day results
         = [DayNumber 15; DayNumber 16; DayNumber 17; DayNumber 18; DayNumber 19;
            DayNumber 20]
      /\ snd (run (parseDateRange Example.host Example.daterange_text None)
                  (Example.stopped Example.tuesday_noon) 0) = 7%nat.
Proof.
  assert (Hreq : dateRangeRequest Example.daterange_text = Some (15, 20, 22, 0))
    by (vm_compute; reflexivity).
  split; [exact Hreq|].
  pose proof (run_parseDateRange Example.host Example.daterange_text None
                (Example.stopped Example.tuesday_noon) 0) as Hr.
  rewrite Hreq in Hr. destruct Hr as (results & Hrun & _).
  exists results. split; [exact Hrun|].
  destruct (date_range_series_shape Example.host Example.daterange_text None
              (Example.stopped Example.tuesday_noon) 0 results Hrun)
    as (s & e & h & m & Hreq' & _ & _ & _ & _ & Hlabels & Hlen & _ & Hreads).
  rewrite Hreq in Hreq'. injection Hreq' as <- <- <- <-.
  split; [rewrite Hlabels; reflexivity|].
  rewrite Hreads, Hlen. reflexivity.
Defined.

End SeriesShape.

(* ================================================================== *)
(** ** Where the policy leaves an instant *)
(* ================================================================== *)

Section ResolutionBounds.

Lemma local_day_and_time (x D T : Z) :
  x = D * msPerDay + T -> 0 <= T < msPerDay -> Day x = D /\ TimeWithinDay x = T.
Proof.
  intros -> HT. unfold Day, TimeWithinDay. split.
  - rewrite Z.add_comm, Z.div_add by (unfold msPerDay; lia).
    rewrite Z.div_small by exact HT. lia.
  - rewrite Z.add_comm, Z.mod_add by (unfold msPerDay; lia).
    apply Z.mod_small. exact HT.
Qed.

(** The clock time [setHours] is given by the policy: the local time of day
    of the instant, without its milliseconds. *)
Lemma time_of_day_seconds (tza t : Z) :
  MakeTime (getHours tza t) (getMinutes tza t) (getSeconds tza t) 0
  = TimeWithinDay (t + tza) / msPerSecond * msPerSecond.
Proof.
  unfold getHours, getMinutes, getSeconds, HourFromTime, MinFromTime, SecFromTime,
    LocalTime, MakeTime, TimeWithinDay, msPerDay, msPerHour, msPerMinute, msPerSecond.
  set (L := t + tza).
  replace 3600000 with (1000 * 3600) by lia.
  replace 60000 with (1000 * 60) by lia.
  replace 86400000 with (1000 * 86400) by lia.
  rewrite <- !Z.div_div by lia.
  rewrite Z.rem_mul_r by lia.
  replace (L mod 1000 + 1000 * ((L / 1000) mod 86400))
    with (L mod 1000 + ((L / 1000) mod 86400) * 1000) by lia.
  rewrite Z.div_add by lia.
  rewrite (Z.div_small (L mod 1000)) by (apply Z.mod_pos_bound; lia).
  set (S := L / 1000).
  replace 86400 with (60 * (60 * 24)) by lia.
  rewrite (Z.rem_mul_r S 60 (60 * 24)) by lia.
  rewrite (Z.rem_mul_r (S / 60) 60 24) by lia.
  replace (S / 3600) with (S / 60 / 60) by (rewrite Z.div_div by lia; reflexivity).
  lia.
Qed.

(** The instant the policy builds from the clock time of [jsDate] on the
    day of [now], moved to the next day when it is not after [now]: the
    first instant after [now] with that local clock time. *)
Lemma clock_time_after_now (tza now jsDate : Z) :
  let today := setHours tza now (getHours tza jsDate) (getMinutes tza jsDate)
                 (getSeconds tza jsDate) 0 in
  let r := if today <=? now then setDate tza today (getDate tza today + 1) else today in
  TimeWithinDay (r + tza) = TimeWithinDay (jsDate + tza) / msPerSecond * msPerSecond
  /\ now < r <= now + msPerDay.
Proof.
  cbv zeta. rewrite <- time_of_day_seconds.
  pose proof (time_of_day_bounds tza jsDate) as Ht.
  pose proof (setHours_local tza now (getHours tza jsDate) (getMinutes tza jsDate)
                (getSeconds tza jsDate) 0) as Hl.
  set (T := MakeTime _ _ _ 0) in *.
  set (today := setHours tza now _ _ _ 0) in *.
  pose proof (day_time_split (now + tza)) as Hs.
  assert (Hb : 0 <= TimeWithinDay (now + tza) < msPerDay)
    by (apply Z.mod_pos_bound; unfold msPerDay; lia).
  destruct (Z.leb_spec today now) as [Hle|Hgt].
  - rewrite setDate_getDate.
    destruct (local_day_and_time (today + 1 * msPerDay + tza) (Day (now + tza) + 1) T)
      as (_ & HT); [lia|exact Ht|].
    rewrite HT. split; [reflexivity|lia].
  - destruct (local_day_and_time (today + tza) (Day (now + tza)) T)
      as (_ & HT); [lia|exact Ht|].
    rewrite HT. split; [reflexivity|lia].
Qed.

(** X6.  On a server whose local time is UTC plus a fixed offset [tza]
    (no daylight-saving transitions, so that every local day has 24
    hours): the three branches of the policy that keep only the local
    clock time of the instant, to the second.  With "tomorrow" in the text
    (in any letter case) the result is that clock time on the local day
    after the day of [now].  With "today" and no "tomorrow", and also for
    a past instant of a text that names no weekday and begins with a time
    such as "3pm", the result is the first instant after [now] with that
    clock time: it is after [now] and at most one day after it. *)
Theorem relative_day_words (tza now jsDate : Z) (text : string) :
  let clockTime := TimeWithinDay (jsDate + tza) / msPerSecond * msPerSecond in
  let r := adjustToFutureAt tza now jsDate text false None in
  (includes (toLowerCase text) "tomorrow" = true ->
     Day (r + tza) = Day (now + tza) + 1 /\ TimeWithinDay (r + tza) = clockTime)
  /\ (includes (toLowerCase text) "tomorrow" = false ->
      includes (toLowerCase text) "today" = true ->
      TimeWithinDay (r + tza) = clockTime /\ now < r <= now + msPerDay)
  /\ (includes (toLowerCase text) "tomorrow" = false ->
      includes (toLowerCase text) "today" = false ->
      jsDate <= now ->
      test true dayOfWeekPattern (toLowerCase text) = false ->
      test true timeOnlyPattern (trim (toLowerCase text)) = true ->
      TimeWithinDay (r + tza) = clockTime /\ now < r <= now + msPerDay).
Proof.
  cbv zeta. unfold adjustToFutureAt.
  pose proof (clock_time_after_now tza now jsDate) as Hfirst. cbv zeta in Hfirst.
  split; [|split].
  - intros ->. rewrite <- time_of_day_seconds.
    pose proof (time_of_day_bounds tza jsDate) as Ht.
    rewrite setDate_getDate.
    apply local_day_and_time; [|exact Ht].
    rewrite setHours_local.
    replace (now + 1 * msPerDay + tza) with (now + tza + 1 * msPerDay) by lia.
    rewrite Day_shift. reflexivity.
  - intros -> ->. exact Hfirst.
  - intros -> -> Hpast -> ->.
    destruct (Z.leb_spec jsDate now) as [_|Hn]; [|lia].
    set (today := setHours tza now _ _ _ 0) in *.
    destruct (Z.gtb_spec today now) as [Hgt|Hle].
    + destruct (Z.leb_spec today now) as [Hle|_]; [lia|exact Hfirst].
    + destruct (Z.leb_spec today now) as [_|Hgt]; [exact Hfirst|lia].
Qed.

Lemma start_policy (tza now jsDate : Z) (text : string) :
  let r := adjustToFutureAt tza now jsDate text false None in
  (now - oneDayMs < jsDate -> now < r)
  /\ (includes (toLowerCase text) "tomorrow" = false ->
      includes (toLowerCase text) "today" = false ->
      jsDate <= r /\ (now < jsDate -> r = jsDate)
      /\ (r <= jsDate + oneWeekMs \/ r <= now + oneDayMs)).
Proof.
  intros r. subst r.
  assert (Hd : oneDayMs = msPerDay) by reflexivity.
  assert (Hw : oneWeekMs = 7 * msPerDay) by reflexivity.
  assert (Hp : 0 < msPerDay) by (unfold msPerDay; lia).
  split.
  - intros Hfresh.
    destruct (adjustToFutureAt_cases tza now jsDate text) as [Hlt|(_ & [-> | ->])]; lia.
  - intros Htom Htod. unfold adjustToFutureAt. rewrite Htom, Htod.
    pose proof (time_of_day_bounds tza jsDate) as Ht.
    destruct (setHours_bounds tza now _ _ _ Ht) as (Hb1 & Hb2 & Hb3).
    destruct (Z.leb_spec jsDate now) as [Hpast|Hfut]; [|lia].
    destruct (test true dayOfWeekPattern (toLowerCase text)); [lia|].
    destruct (test true timeOnlyPattern (trim (toLowerCase text))).
    + destruct (Z.gtb_spec (setHours tza now (getHours tza jsDate)
                      (getMinutes tza jsDate) (getSeconds tza jsDate) 0) now).
      * lia.
      * rewrite setDate_getDate. lia.
    + rewrite setDate_getDate. lia.
Qed.

Lemma end_policy (tza now jsDate start : Z) (text : string) :
  let r := adjustToFutureAt tza now jsDate text true (Some start) in
  (r = jsDate \/ r = jsDate + oneDayMs)
  /\ (start - oneDayMs < jsDate -> start < r)
  /\ (start < jsDate -> now <= jsDate -> r = jsDate)
  /\ (start < jsDate -> now - oneDayMs < jsDate -> now <= r).
Proof.
  intros r. subst r. unfold adjustToFutureAt.
  assert (Hd : 0 < oneDayMs) by reflexivity.
  destruct (Z.leb_spec jsDate start); [|destruct (Z.ltb_spec jsDate now)].
  - split; [right; reflexivity|]. split; [lia|]. split; lia.
  - split; [right; reflexivity|]. split; [lia|]. split; lia.
  - split; [left; reflexivity|]. split; [lia|]. split; lia.
Qed.

(** What [processChronoDate] returns: the converted instant goes through
    the policy, which reads the clock after the conversion has. *)
Lemma run_processChronoDate (H : Host) (comp : Component) tz isEndDate startDate text
      (c : clock) (n : nat) :
  run (processChronoDate H comp tz isEndDate startDate text) c n
  = let conv := run (convertChrono H comp tz) c n in
    let final := adjustToFutureAt (LocalTZA H) (c (snd conv)) (fst (fst conv)) text
                   isEndDate startDate in
    (mkResolved final (snd (fst conv)) (unixSeconds final)
                (negb (final =? fst (fst conv))), S (snd conv)).
Proof.
  unfold processChronoDate. rewrite run_bind.
  destruct (run (convertChrono H comp tz) c n) as [conv m]. reflexivity.
Qed.

(** X7.  On a server whose local time is UTC plus a fixed offset (no
    daylight-saving transitions, so that every local day has 24 hours):
    the start that [processChronoDate] resolves, where [converted] is the
    instant after the timezone conversion and [now] the instant the policy
    reads: a converted instant less than one day old is resolved after
    [now]; and when the text has neither "tomorrow" nor "today", the
    resolved instant is never before the converted one, a converted
    instant after [now] is returned as it is and not flagged as adjusted,
    and the resolved instant is at most one week after the converted one
    or at most one day after [now].  The timestamp is the resolved instant
    in whole seconds. *)
Theorem start_resolution_bounds (H : Host) (comp : Component)
        (tz : option TimezoneSpec) (text : string) (c : clock) (n : nat) :
  let converted := fst (fst (run (convertChrono H comp tz) c n)) in
  let now := c (snd (run (convertChrono H comp tz) c n)) in
  let r := fst (run (processChronoDate H comp tz false None text) c n) in
  (now - oneDayMs < converted -> now < jsDate r)
  /\ (includes (toLowerCase text) "tomorrow" = false ->
      includes (toLowerCase text) "today" = false ->
      converted <= jsDate r
      /\ (now < converted -> jsDate r = converted /\ wasAdjustedToFuture r = false)
      /\ (jsDate r <= converted + oneWeekMs \/ jsDate r <= now + oneDayMs))
  /\ unixTimestamp r = unixSeconds (jsDate r).
Proof.
  cbv zeta. rewrite run_processChronoDate. cbv zeta.
  destruct (run (convertChrono H comp tz) c n) as [[converted info] m].
  cbn [fst snd jsDate wasAdjustedToFuture unixTimestamp].
  destruct (start_policy (LocalTZA H) (c m) converted text) as (Hfresh & Hplain).
  split; [exact Hfresh|]. split; [|reflexivity].
  intros Htom Htod. destruct (Hplain Htom Htod) as (Hle & Hfut & Hup).
  split; [exact Hle|]. split; [|exact Hup].
  intros Hlt. rewrite (Hfut Hlt). split; [reflexivity|].
  rewrite Z.eqb_refl. reflexivity.
Qed.

(** X8.  The end of a range that [processChronoDate] resolves against the
    resolved start: the converted instant is returned as it is or moved by
    exactly one day, whatever the text says, and it is flagged as adjusted
    exactly when it was moved; it is resolved after the start whenever it
    was less than one day before it; an end after the start and not before
    [now] is returned as it is; an end after the start and less than one
    day old is resolved at or after [now]. *)
Theorem end_resolution_bounds (H : Host) (comp : Component)
        (tz : option TimezoneSpec) (start : Z) (text : string) (c : clock) (n : nat) :
  let converted := fst (fst (run (convertChrono H comp tz) c n)) in
  let now := c (snd (run (convertChrono H comp tz) c n)) in
  let r := fst (run (processChronoDate H comp tz true (Some start) text) c n) in
  ((jsDate r = converted /\ wasAdjustedToFuture r = false)
   \/ (jsDate r = converted + oneDayMs /\ wasAdjustedToFuture r = true))
  /\ (start - oneDayMs < converted -> start < jsDate r)
  /\ (start < converted -> now <= converted -> jsDate r = converted)
  /\ (start < converted -> now - oneDayMs < converted -> now <= jsDate r)
  /\ (forall text', jsDate (fst (run (processChronoDate H comp tz true (Some start) text') c n))
                    = jsDate r).
Proof.
  cbv zeta. rewrite run_processChronoDate. cbv zeta.
  assert (Htext : forall text',
             jsDate (fst (run (processChronoDate H comp tz true (Some start) text') c n))
             = adjustToFutureAt (LocalTZA H) (c (snd (run (convertChrono H comp tz) c n)))
                 (fst (fst (run (convertChrono H comp tz) c n))) text true (Some start)).
  { intros text'. rewrite run_processChronoDate. reflexivity. }
  destruct (run (convertChrono H comp tz) c n) as [[converted info] m].
  cbn [fst snd jsDate wasAdjustedToFuture unixTimestamp] in *.
  destruct (end_policy (LocalTZA H) (c m) converted start text) as (Hcase & Hafter & Hkeep & Hnow).
  split.
  - destruct Hcase as [-> | ->].
    + left. split; [reflexivity|]. rewrite Z.eqb_refl. reflexivity.
    + right. split; [reflexivity|].
      destruct (Z.eqb_spec (converted + oneDayMs) converted) as [E|_]; [|reflexivity].
      assert (0 < oneDayMs) by reflexivity. lia.
  - split; [exact Hafter|]. split; [exact Hkeep|]. split; [exact Hnow|exact Htext].
Qed.

Lemma weekday_ahead (tza now t h m dayNum : Z) :
  0 <= h < 24 -> 0 <= m < 60 ->
  getDay tza t = dayNum ->
  t + tza = Day (t + tza) * msPerDay + MakeTime h m 0 0 ->
  Day (now + tza) + 1 <= Day (t + tza) <= Day (now + tza) + 7 ->
  Day (t + tza) = Day (now + tza) + ((dayNum - getDay tza now - 1) mod 7 + 1)
  /\ TimeWithinDay (t + tza) = h * msPerHour + m * msPerMinute
  /\ now < t < now + 8 * msPerDay
  /\ (getDay tza now = dayNum -> Day (t + tza) = Day (now + tza) + 7).
Proof.
  intros Hh Hm Hw Hl Hr.
  assert (HT : 0 <= MakeTime h m 0 0 < msPerDay)
    by (unfold MakeTime, msPerDay, msPerHour, msPerMinute, msPerSecond; lia).
  destruct (local_day_and_time _ _ _ Hl HT) as (_ & HTw).
  assert (Hwn : 0 <= getDay tza now < 7) by (apply Z.mod_pos_bound; lia).
  assert (HD : Day (t + tza) = Day (now + tza) + ((dayNum - getDay tza now - 1) mod 7 + 1)).
  { unfold getDay, WeekDay, LocalTime in Hw, Hwn |- *.
    set (D := Day (now + tza)) in *. set (D' := Day (t + tza)) in *.
    pose proof (Z.div_mod (D + 4) 7 ltac:(lia)) as E1.
    pose proof (Z.div_mod (D' + 4) 7 ltac:(lia)) as E2.
    pose proof (Z.div_mod (dayNum - (D + 4) mod 7 - 1) 7 ltac:(lia)) as E3.
    pose proof (Z.mod_pos_bound (dayNum - (D + 4) mod 7 - 1) 7 ltac:(lia)) as B3.
    lia. }
  pose proof (day_time_split (now + tza)) as Hs.
  assert (Hb : 0 <= TimeWithinDay (now + tza) < msPerDay)
    by (apply Z.mod_pos_bound; unfold msPerDay; lia).
  split; [exact HD|]. split; [rewrite HTw; unfold MakeTime, msPerSecond; lia|].
  split.
  { pose proof (Z.mod_pos_bound (dayNum - getDay tza now - 1) 7 ltac:(lia)) as Hk.
    rewrite HD in Hl.
    set (k := (dayNum - getDay tza now - 1) mod 7) in *.
    set (D := Day (now + tza)) in *. set (T := TimeWithinDay (now + tza)) in *.
    clearbody k D T. clear - Hl Hs Hb Hk HT.
    unfold msPerDay in *. set (M := MakeTime h m 0 0) in *. clearbody M. lia. }
  intros Heq. rewrite HD, Heq.
  replace (dayNum - dayNum - 1) with (-1) by (clear; lia). reflexivity.
Qed.

Lemma next_occurrence_facts (tza now h m dayNum : Z)
        (Hd : 0 <= dayNum <= 6) (Hh : 0 <= h < 24) (Hm : 0 <= m < 60) :
  let t := nextOccurrence tza now h m dayNum in
  Day (t + tza) = Day (now + tza) + ((dayNum - getDay tza now - 1) mod 7 + 1)
  /\ TimeWithinDay (t + tza) = h * msPerHour + m * msPerMinute
  /\ getDay tza t = dayNum
  /\ now < t < now + 8 * msPerDay
  /\ (getDay tza now = dayNum -> Day (t + tza) = Day (now + tza) + 7).
Proof.
  cbv zeta.
  destruct (nextOccurrence_spec tza now h m dayNum Hd Hh Hm) as (Hw & _ & _ & _ & Hl & Hr).
  destruct (weekday_ahead tza now _ h m dayNum Hh Hm Hw Hl Hr) as (H1 & H2 & H3 & H4).
  split; [exact H1|]. split; [exact H2|]. split; [exact Hw|]. split; [exact H3|exact H4].
Qed.

(** X9.  On a server whose local time is UTC plus a fixed offset [tza] (no
    daylight-saving transitions, so that every wall-clock time exists and
    every local day has 24 hours): the instant [parseMultipleDays]
    computes for a weekday, at a time with an hour below 24 and a minute
    below 60, falls on that weekday, at that local time, between one and
    seven local days after the day of [now] (never on the day of [now]:
    its own weekday is taken a week later), so it is after [now] and less
    than eight days away. *)
Theorem next_occurrence_ahead (tza now h m dayNum : Z)
        (Hd : 0 <= dayNum <= 6) (Hh : 0 <= h < 24) (Hm : 0 <= m < 60) :
  let t := nextOccurrence tza now h m dayNum in
  Day (t + tza) = Day (now + tza) + ((dayNum - getDay tza now - 1) mod 7 + 1)
  /\ TimeWithinDay (t + tza) = h * msPerHour + m * msPerMinute
  /\ getDay tza t = dayNum
  /\ now < t < now + 8 * msPerDay
  /\ (getDay tza now = dayNum -> Day (t + tza) = Day (now + tza) + 7).
Proof.
  cbv zeta.
  destruct (nextOccurrence_spec tza now h m dayNum Hd Hh Hm) as (Hw & _ & _ & _ & Hl & Hr).
  destruct (weekday_ahead tza now _ h m dayNum Hh Hm Hw Hl Hr) as (H1 & H2 & H3 & H4).
  split; [exact H1|]. split; [exact H2|]. split; [exact Hw|]. split; [exact H3|exact H4].
Qed.

Lemma next_occurrence_ahead_witness :
  getDay 0 Example.sunday_noon = 0
  /\ Day (nextOccurrence 0 Example.sunday_noon 22 30 0) = Day Example.sunday_noon + 7
  /\ TimeWithinDay (nextOccurrence 0 Example.sunday_noon 22 30 0)
     = 22 * msPerHour + 30 * msPerMinute.
Proof.
  destruct (next_occurrence_ahead 0 Example.sunday_noon 22 30 0) as (_ & HT & _ & _ & H7);
    [lia|lia|lia|].
  cbv zeta in H7.
  replace (nextOccurrence 0 Example.sunday_noon 22 30 0 + 0)
    with (nextOccurrence 0 Example.sunday_noon 22 30 0) in * by lia.
  replace (Example.sunday_noon + 0) with Example.sunday_noon in * by lia.
  assert (Hw : getDay 0 Example.sunday_noon = 0) by (vm_compute; reflexivity).
  split; [exact Hw|]. split; [exact (H7 Hw)|exact HT].
Defined.

End ResolutionBounds.

(* ================================================================== *)
(** ** Names of offsets, aliases, and the instants of a weekday series *)
(* ================================================================== *)

Section NamesAndSeries.

Lemma labels_checked : all_from (Z.to_nat 1620) (-779) label_read_back = true.
Proof. vm_cast_no_check (eq_refl true). Qed.

Lemma label_841 : scanOffsets offsetPatterns (toLowerCase (manualTimezone 841)) = Some 840.
Proof. vm_compute. reflexivity. Qed.

Lemma label_780 : scanOffsets offsetPatterns (toLowerCase (manualTimezone (-780))) = None.
Proof. vm_compute. reflexivity. Qed.

(** X10.  The name the responses give a manual offset, "UTC" followed by
    the sign, the hours and, when they are not zero, a colon and the two
    digits of the minutes, is read back by [detectTimezone] as the same
    offset, for every offset from 12 hours 59 minutes behind UTC to 14
    hours ahead.  Outside that range it is not: the name of 14 hours 1
    minute ahead is read as 14 hours, and in the name of 13 hours behind no
    offset is found. *)
Theorem manual_offset_label_read_back :
  (forall (H : Host) (v : Z),
      -779 <= v <= 840 ->
      detectTimezone H (manualTimezone v) = Some (UTC_OFFSET v))
  /\ (forall H : Host,
        manualTimezone 841 = "UTC+14:01"
        /\ detectTimezone H (manualTimezone 841) = Some (UTC_OFFSET 840)
        /\ manualTimezone (-780) = "UTC-13"
        /\ scanOffsets offsetPatterns (toLowerCase (manualTimezone (-780))) = None).
Proof.
  split.
  - intros H v Hv.
    pose proof (all_from_spec label_read_back _ _ labels_checked v ltac:(lia)) as Hc.
    unfold label_read_back in Hc. unfold detectTimezone.
    destruct (scanOffsets offsetPatterns (toLowerCase (manualTimezone v))) as [v'|];
      [|discriminate].
    apply Z.eqb_eq in Hc. subst. reflexivity.
  - intros H. split; [reflexivity|].
    split; [unfold detectTimezone; rewrite label_841; reflexivity|].
    split; [reflexivity|exact label_780].
Qed.

Lemma manual_offset_label_read_back_witness :
  manualTimezone 330 = "UTC+5:30"
  /\ manualTimezone (-480) = "UTC-8"
  /\ detectTimezone Example.host (manualTimezone 330) = Some (UTC_OFFSET 330).
Proof.
  split; [reflexivity|]. split; [reflexivity|].
  apply (proj1 manual_offset_label_read_back Example.host 330). lia.
Defined.

(** *** The alias table *)

Lemma toLowerCase_length (s : string) : String.length (toLowerCase s) = String.length s.
Proof. induction s as [|c s IH]; cbn; [reflexivity|rewrite IH; reflexivity]. Qed.

Lemma lower_char_idem (c : ascii) : lower_char (lower_char c) = lower_char c.
Proof.
  destruct c as [[] [] [] [] [] [] [] []]; reflexivity.
Qed.

Lemma toLowerCase_idem (s : string) : toLowerCase (toLowerCase s) = toLowerCase s.
Proof.
  induction s as [|c s IH]; cbn; [reflexivity|].
  rewrite lower_char_idem, IH. reflexivity.
Qed.

Lemma lower_part (pre w post : string) :
  toLowerCase (pre ++ w ++ post) = pre ++ w ++ post -> toLowerCase w = w.
Proof.
  rewrite !toLowerCase_app. intros Heq.
  apply sapp_inv in Heq as (_ & Heq); [|apply toLowerCase_length].
  apply sapp_inv in Heq as (Heq & _); [exact Heq|apply toLowerCase_length].
Qed.

Lemma alias_match (key lowerText : string) :
  toLowerCase lowerText = lowerText ->
  test true (aliasPattern key) lowerText = true ->
  includes lowerText (toLowerCase key) = true.
Proof.
  intros Hlow. unfold test.
  destruct (exec _ _ lowerText) as [m|] eqn:He; [|discriminate]. intros _.
  destruct (exec_sound _ _ _ _ He) as (s0 & e & (pre & Hin & _) & _ & Hm & _).
  unfold aliasPattern in Hm. cbn [seqs matches] in Hm.
  destruct Hm as (s1 & (-> & _) & s2 & Hw & _).
  destruct (matches_lit key _ _ Hw) as (w & (Hr & _) & Hl).
  rewrite Hin, Hr in Hlow |- *.
  apply lower_part in Hlow. rewrite <- Hl, Hlow.
  apply includes_app.
Qed.

Lemma scanAliases_sound (entries : list (string * string)) (lowerText zone : string) :
  toLowerCase lowerText = lowerText ->
  scanAliases entries lowerText = Some zone ->
  exists key before after,
    entries = (before ++ (key, zone) :: after)%list
    /\ includes lowerText (toLowerCase key) = true
    /\ test true (aliasPattern key) lowerText = true
    /\ Forall (fun kv => test true (aliasPattern (fst kv)) lowerText = false) before.
Proof.
  intros Hlow. induction entries as [|[key tz] entries IH]; cbn [scanAliases]; [discriminate|].
  destruct (test true (aliasPattern key) lowerText) eqn:Ht.
  - intros Hz. injection Hz as ->. exists key, [], entries.
    split; [reflexivity|]. split; [apply alias_match; assumption|].
    split; [exact Ht|constructor].
  - intros Hz. destruct (IH Hz) as (k & before & after & -> & Hi & Hk & Hb).
    exists k, ((key, tz) :: before)%list, after.
    split; [reflexivity|]. split; [exact Hi|]. split; [exact Hk|].
    constructor; [exact Ht|exact Hb].
Qed.

(** X11.  A named zone that [detectTimezone] returns: no manual offset was
    found in the text, the zone is the value of an entry of the alias
    table whose key occurs in the text (letter case aside), and no entry
    before it in the table matches the text. *)
Theorem named_zone_comes_from_the_table (H : Host) (text zone : string)
        (Hz : detectTimezone H text = Some (ZoneId zone)) :
  scanOffsets offsetPatterns (toLowerCase text) = None
  /\ exists key before after,
      timezoneMap H = (before ++ (key, zone) :: after)%list
      /\ includes (toLowerCase text) (toLowerCase key) = true
      /\ Forall (fun kv => test true (aliasPattern (fst kv)) (toLowerCase text) = false)
                before.
Proof.
  unfold detectTimezone in Hz.
  destruct (scanOffsets offsetPatterns (toLowerCase text)); [discriminate|].
  split; [reflexivity|].
  destruct (scanAliases (timezoneMap H) (toLowerCase text)) as [z|] eqn:Hs; [|discriminate].
  injection Hz as ->.
  destruct (scanAliases_sound _ _ _ (toLowerCase_idem text) Hs)
    as (key & before & after & He & Hi & _ & Hb).
  exists key, before, after. auto.
Qed.

Lemma named_zone_comes_from_the_table_witness :
  scanOffsets offsetPatterns (toLowerCase "Friday 3pm EST, Netherlands") = None
  /\ exists key before after,
      timezoneMap Example.host = (before ++ (key, "Europe/Amsterdam") :: after)%list
      /\ includes (toLowerCase "Friday 3pm EST, Netherlands") (toLowerCase key) = true
      /\ Forall (fun kv => test true (aliasPattern (fst kv))
                             (toLowerCase "Friday 3pm EST, Netherlands") = false)
                before.
Proof.
  apply (named_zone_comes_from_the_table Example.host "Friday 3pm EST, Netherlands").
  vm_compute. reflexivity.
Defined.

(** *** The instants of a weekday series *)

Lemma walk_days_distinct (s w : Z) (n : nat) :
  (n <= 7)%nat ->
  NoDup (map (fun i => (((s + Z.of_nat i) mod 7) - w - 1) mod 7 + 1) (seq 0 n)).
Proof.
  intros Hn. apply NoDup_map_NoDup_ForallPairs; [|apply seq_NoDup].
  intros i j Hi Hj Heq. apply in_seq in Hi, Hj.
  assert (Hmod : (s + Z.of_nat i) mod 7 = (s + Z.of_nat j) mod 7).
  { pose proof (Z.mod_pos_bound (s + Z.of_nat i) 7 ltac:(lia)).
    pose proof (Z.mod_pos_bound (s + Z.of_nat j) 7 ltac:(lia)).
    set (a := (s + Z.of_nat i) mod 7) in *. set (b := (s + Z.of_nat j) mod 7) in *.
    pose proof (Z.div_mod (a - w - 1) 7 ltac:(lia)).
    pose proof (Z.div_mod (b - w - 1) 7 ltac:(lia)).
    pose proof (Z.mod_pos_bound (a - w - 1) 7 ltac:(lia)).
    pose proof (Z.mod_pos_bound (b - w - 1) 7 ltac:(lia)).
    lia. }
  pose proof (Z.div_mod (s + Z.of_nat i) 7 ltac:(lia)).
  pose proof (Z.div_mod (s + Z.of_nat j) 7 ltac:(lia)).
  lia.
Qed.

(** X12.  On a server whose local time is UTC plus a fixed offset (no
    daylight-saving transitions, so that every wall-clock time exists and
    every local day has 24 hours): the instants of a weekday series, for a
    time with an hour below 24 and a minute below 60 and a text without
    timezone.  Every entry is
    after the instant [now] the expander read and less than eight days
    away, at the requested local time, on the weekday its label names, with
    the instant in whole seconds as its timestamp; and no two entries fall
    on the same local day. *)
Theorem weekday_series_instants (H : Host) (text : string) (c : clock) (n : nat)
        (s e h m : Z) (entries : list Entry)
        (Hreq : weeklyRequest text = Some (s, e, h, m))
        (Hh : 0 <= h < 24) (Hm : 0 <= m < 60)
        (Hrun : fst (run (parseMultipleDays H text None) c n) = Some entries) :
  Forall (fun en =>
            c n < e_jsDate en < c n + 8 * msPerDay
            /\ TimeWithinDay (e_jsDate en + LocalTZA H) = h * msPerHour + m * msPerMinute
            /\ e_day en = DayName (dayMap_key dayMap (getDay (LocalTZA H) (e_jsDate en)))
            /\ e_unixTimestamp en = unixSeconds (e_jsDate en)
            /\ e_timezoneInfo en = None) entries
  /\ NoDup (map (fun en => Day (e_jsDate en + LocalTZA H)) entries).
Proof.
  rewrite run_parseMultipleDays, Hreq in Hrun. cbn [fst] in Hrun. injection Hrun as <-.
  destruct (weeklyRequest_range _ _ _ _ _ Hreq) as (Hs & He & _ & _).
  destruct (daysBetween_walk s e Hs He) as (Hwalk & Hlen).
  assert (Hdays : Forall (fun d => 0 <= d <= 6) (daysBetween s e)).
  { rewrite Hwalk. apply Forall_forall. intros d Hd.
    apply in_map_iff in Hd as (i & <- & _).
    pose proof (Z.mod_pos_bound (s + Z.of_nat i) 7 ltac:(lia)). lia. }
  split.
  - apply Forall_forall. intros en Hen. apply in_map_iff in Hen as (d & <- & Hd).
    rewrite Forall_forall in Hdays. specialize (Hdays d Hd).
    destruct (next_occurrence_facts (LocalTZA H) (c n) h m d Hdays Hh Hm)
      as (_ & HT & Hw & Hb & _).
    unfold weekdayEntry, mkSeriesEntry, applySeriesTimezone.
    cbn [truthy fst snd e_jsDate e_day e_unixTimestamp e_timezoneInfo].
    rewrite Hw. auto.
  - rewrite map_map.
    assert (Hmap : map (fun d => Day (e_jsDate (weekdayEntry H None (c n) h m d) + LocalTZA H))
                       (daysBetween s e)
                   = map (fun d => Day (c n + LocalTZA H)
                                   + ((d - getDay (LocalTZA H) (c n) - 1) mod 7 + 1))
                         (daysBetween s e)).
    { apply map_ext_in. intros d Hd.
      rewrite Forall_forall in Hdays. specialize (Hdays d Hd).
      destruct (next_occurrence_facts (LocalTZA H) (c n) h m d Hdays Hh Hm) as (HD & _).
      exact HD. }
    rewrite Hmap, Hwalk, map_map.
    rewrite <- (map_map (fun i => ((s + Z.of_nat i) mod 7 - getDay (LocalTZA H) (c n) - 1) mod 7 + 1)
                        (fun k => Day (c n + LocalTZA H) + k)).
    apply NoDup_map_NoDup_ForallPairs; [intros a b _ _; lia|].
    apply walk_days_distinct.
    rewrite Hwalk, length_map, length_seq in Hlen. exact Hlen.
Qed.

Lemma weekday_series_instants_witness :
  weeklyRequest "Saturday 9:30am to Monday" = Some (6, 1, 9, 30)
  /\ NoDup (map (fun en => Day (e_jsDate en + LocalTZA Example.host))
               (map (weekdayEntry Example.host None Example.sunday_noon 9 30)
                    (daysBetween 6 1))).
Proof.
  assert (Hreq : weeklyRequest "Saturday 9:30am to Monday" = Some (6, 1, 9, 30))
    by (vm_compute; reflexivity).
  split; [exact Hreq|].
  apply (weekday_series_instants Example.host "Saturday 9:30am to Monday"
           (Example.stopped Example.sunday_noon) 0 6 1 9 30); [exact Hreq|lia|lia|].
  rewrite run_parseMultipleDays, Hreq. reflexivity.
Defined.

End NamesAndSeries.

(* ================================================================== *)
(** ** Texts without am and pm *)
(* ================================================================== *)

Section TwelveHourClock.

Lemma prefix_split (x s : string) : prefix x s = true -> exists q, s = x ++ q.
Proof.
  revert s. induction x as [|c x IH]; intros s H.
  - exists s. reflexivity.
  - destruct s as [|d s]; [discriminate|]. cbn in H.
    destruct (ascii_dec c d) as [->|]; [|discriminate].
    destruct (IH s H) as (q & ->). exists q. reflexivity.
Qed.

Lemma includes_split (s x : string) :
  includes s x = true -> exists p q, s = p ++ x ++ q.
Proof.
  induction s as [|c s IH]; cbn [includes]; intros H.
  - rewrite orb_false_r in H. apply prefix_split in H as (q & Hq).
    exists "", q. exact Hq.
  - apply orb_true_iff in H as [H|H].
    + apply prefix_split in H as (q & Hq). exists "", q. exact Hq.
    + destruct (IH H) as (p & q & ->). exists (String c p), q. reflexivity.
Qed.

Lemma includes_mid (a b c x : string) :
  includes b x = true -> includes (a ++ b ++ c) x = true.
Proof.
  intros H. apply includes_split in H as (p & q & ->).
  replace (a ++ (p ++ x ++ q) ++ c) with ((a ++ p) ++ x ++ (q ++ c))
    by (rewrite !sapp_assoc; reflexivity).
  apply includes_app.
Qed.

Lemma includes_app_l (a b x : string) : includes a x = true -> includes (a ++ b) x = true.
Proof. intros H. exact (includes_mid "" a b x H). Qed.

Lemma includes_app_r (a b x : string) : includes b x = true -> includes (a ++ b) x = true.
Proof.
  intros H. rewrite <- (sapp_nil_r b). exact (includes_mid a b "" x H).
Qed.

Lemma trimStart_split (s : string) : exists a, s = a ++ trimStart s.
Proof.
  induction s as [|c s (a & IH)]; [exists ""; reflexivity|]. cbn [trimStart].
  destruct (is_space c); [|exists ""; reflexivity].
  exists (String c a). cbn. rewrite <- IH. reflexivity.
Qed.

Lemma trimEnd_split (s : string) : exists b, s = trimEnd s ++ b.
Proof.
  induction s as [|c s (b & IH)]; [exists ""; reflexivity|]. cbn [trimEnd].
  destruct (trimEnd s) as [|d t].
  - destruct (is_space c).
    + exists (String c s). reflexivity.
    + exists b. cbn in *. rewrite <- IH. reflexivity.
  - exists b. cbn [append] in *. rewrite <- IH. reflexivity.
Qed.

Lemma trim_split (s : string) : exists a b, s = a ++ trim s ++ b.
Proof.
  destruct (trimStart_split s) as (a & Ha). destruct (trimEnd_split (trimStart s)) as (b & Hb).
  exists a, b. unfold trim. rewrite <- Hb. exact Ha.
Qed.

Lemma no_meridiem_trim (text : string) : no_meridiem text -> no_meridiem (trim text).
Proof.
  intros H x Hx. specialize (H x Hx).
  destruct (trim_split text) as (a & b & Hs). rewrite Hs in H.
  destruct (includes (toLowerCase (trim text)) x) eqn:E; [|reflexivity].
  rewrite !toLowerCase_app, (includes_mid _ _ _ _ E) in H. discriminate.
Qed.

Lemma matches_literal (ic : bool) (r : regex) :
  forall w s s', literal r = Some w -> matches ic r s s' ->
                 exists u, consumed s s' u /\ toLowerCase u = toLowerCase w.
Proof.
  induction r as [|cs|r1 IH1 r2 IH2|r1 IH1 r2 IH2|g lo hi r IH|i r IH| |r IH|];
    intros w s s' Hl H; cbn [literal] in Hl; try discriminate Hl.
  - injection Hl as <-. cbn in H. subst. exists "". split; [apply consumed_refl|reflexivity].
  - destruct cs; try discriminate Hl. injection Hl as <-.
    destruct H as (x & r' & Hr & Hm & ->). exists (String x "").
    split; [split; cbn; [exact Hr|lia]|].
    cbn in Hm |- *. apply Ascii.eqb_eq in Hm. unfold canon in Hm.
    destruct ic; [rewrite Hm|subst]; reflexivity.
  - destruct (literal r1) as [w1|]; [|discriminate].
    destruct (literal r2) as [w2|]; [|discriminate]. injection Hl as <-.
    destruct H as (s1 & H1 & H2).
    destruct (IH1 _ _ _ eq_refl H1) as (u1 & Hu1 & E1).
    destruct (IH2 _ _ _ eq_refl H2) as (u2 & Hu2 & E2).
    exists (u1 ++ u2). split; [eapply consumed_trans; eauto|].
    rewrite !toLowerCase_app, E1, E2. reflexivity.
Qed.

Lemma matches_needs_word (ic : bool) (ws : list string) (r : regex) :
  forall s s', matches ic r s s' -> needs_word ws r = true ->
               exists u x, consumed s s' u /\ In x ws
                           /\ includes (toLowerCase u) x = true.
Proof.
  assert (Hlit : forall r s s', matches ic r s s' ->
            match literal r with
            | Some w => existsb (includes (toLowerCase w)) ws
            | None => false
            end = true ->
            exists u x, consumed s s' u /\ In x ws /\ includes (toLowerCase u) x = true).
  { intros r0 s s' H Hn. destruct (literal r0) as [w|] eqn:Hl; [|discriminate].
    apply existsb_exists in Hn as (x & Hx & Hi).
    destruct (matches_literal ic r0 _ _ _ Hl H) as (u & Hu & E).
    exists u, x. rewrite E. auto. }
  induction r as [|cs|r1 IH1 r2 IH2|r1 IH1 r2 IH2|g lo hi r IH|i r IH| |r IH|];
    intros s s' H Hn; cbn [needs_word] in Hn;
    apply orb_true_iff in Hn as [Hn|Hn];
    try (exact (Hlit _ _ _ H Hn)); try discriminate Hn; cbn [matches] in H.
  - destruct H as (s1 & H1 & H2).
    destruct (matches_consumed _ _ _ _ H1) as (w1 & Hw1).
    destruct (matches_consumed _ _ _ _ H2) as (w2 & Hw2).
    apply orb_true_iff in Hn as [Hn|Hn].
    + destruct (IH1 _ _ H1 Hn) as (u & x & Hu & Hx & Hi). exists (u ++ w2), x.
      split; [eapply consumed_trans; eauto|]. split; [exact Hx|].
      rewrite toLowerCase_app. apply includes_app_l, Hi.
    + destruct (IH2 _ _ H2 Hn) as (u & x & Hu & Hx & Hi). exists (w1 ++ u), x.
      split; [eapply consumed_trans; eauto|]. split; [exact Hx|].
      rewrite toLowerCase_app. apply includes_app_r, Hi.
  - apply andb_true_iff in Hn as (Hn1 & Hn2).
    destruct H as [H|H]; [exact (IH1 _ _ H Hn1)|exact (IH2 _ _ H Hn2)].
  - apply andb_true_iff in Hn as (Hlo & Hn). apply Nat.leb_le in Hlo.
    destruct H as (n & Hn1 & _ & H). destruct n as [|n]; [lia|].
    cbn [iterP] in H. destruct H as (s1 & H1 & H2).
    destruct (IH _ _ H1 Hn) as (u & x & Hu & Hx & Hi).
    destruct (iterP_consumed _ (matches_consumed ic r) _ _ _ H2) as (w2 & Hw2).
    exists (u ++ w2), x. split; [eapply consumed_trans; eauto|]. split; [exact Hx|].
    rewrite toLowerCase_app. apply includes_app_l, Hi.
  - destruct H as (s1 & H1 & ->). destruct (IH _ _ H1 Hn) as (u & x & Hu & Hx & Hi).
    exists u, x. auto.
Qed.

(** A pattern that needs one of the words matches no text without them. *)
Lemma exec_without_word (ic : bool) (ws : list string) (r : regex) (input : string) :
  needs_word ws r = true ->
  (forall x, In x ws -> includes (toLowerCase input) x = false) ->
  exec ic r input = None.
Proof.
  intros Hn Hd. destruct (exec ic r input) as [m|] eqn:He; [|reflexivity].
  destruct (exec_sound _ _ _ _ He) as (s0 & e & (pre & Hin & _) & _ & Hm & _).
  destruct (matches_needs_word _ _ _ _ _ Hm Hn) as (u & x & (Hr & _) & Hx & Hi).
  specialize (Hd x Hx). rewrite Hin, Hr, !toLowerCase_app in Hd.
  rewrite (includes_mid _ _ _ _ Hi) in Hd. discriminate.
Qed.

Lemma preprocessWith_without_meridiem (month text : string) :
  no_meridiem text -> preprocessWith month text = trim text.
Proof.
  intros Hd. apply no_meridiem_trim in Hd. unfold preprocessWith.
  rewrite (replace_all_no_match true pattern1)
    by (apply (exec_without_word true ["am"; "pm"]); [reflexivity|exact Hd]).
  rewrite (replace_all_no_match true pattern2)
    by (apply (exec_without_word true ["am"; "pm"]); [reflexivity|exact Hd]).
  rewrite (replace_all_no_match true pattern3)
    by (apply (exec_without_word true ["am"; "pm"]); [reflexivity|exact Hd]).
  rewrite (replace_all_no_match true pattern4)
    by (apply (exec_without_word true ["am"; "pm"]); [reflexivity|exact Hd]).
  reflexivity.
Qed.

Lemma weeklyRequest_without_meridiem (text : string) :
  no_meridiem text -> weeklyRequest text = None.
Proof.
  intros Hd. unfold weeklyRequest.
  destruct (exec true weeklyPattern text); [|reflexivity].
  destruct (dayMap_get _ _); [|reflexivity]. destruct (dayMap_get _ _); [|reflexivity].
  rewrite (exec_without_word true ["am"; "pm"] timePattern text eq_refl Hd). reflexivity.
Qed.

Lemma dateRangeRequest_without_meridiem (text : string) :
  no_meridiem text -> dateRangeRequest text = None.
Proof.
  intros Hd. unfold dateRangeRequest.
  rewrite (exec_without_word true ["am"; "pm"] dateRangePattern text eq_refl Hd).
  reflexivity.
Qed.

(** X13.  A text that contains neither "am" nor "pm" (in any letter case),
    such as one that gives its times on the 24-hour clock: the normalizer
    only trims it, neither expander applies, the handler goes on to chrono
    with the trimmed text, and it answers neither with a series nor with
    an error. *)
Theorem text_without_meridiem (H : Host) (originalText : string)
        (Hd : no_meridiem originalText) :
  let text := trim originalText in
  (forall c n, run (preprocessText H originalText) c n = (text, S n))
  /\ (forall tz c n, run (parseMultipleDays H text tz) c n = (None, n))
  /\ (forall tz c n, run (parseDateRange H text tz) c n = (None, n))
  /\ (forall c n,
        hasTimeForScheduling originalText = true ->
        run (resolve H originalText) c n
        = run (resolveGeneric H originalText text (detectTimezone H text)) c (S n))
  /\ (forall c body, result (parse H (Some originalText)) c <> MultipleTimes body)
  /\ (forall c, result (parse H (Some originalText)) c <> InternalError).
Proof.
  intros text.
  assert (Hpre : forall c n, run (preprocessText H originalText) c n = (text, S n)).
  { intros c n. rewrite run_preprocessText, preprocessWith_without_meridiem by exact Hd.
    reflexivity. }
  assert (Hdt : no_meridiem text) by (apply no_meridiem_trim, Hd).
  assert (Hwk : forall tz c n, run (parseMultipleDays H text tz) c n = (None, n)).
  { intros tz c n. rewrite run_parseMultipleDays, weeklyRequest_without_meridiem by exact Hdt.
    reflexivity. }
  assert (Hdr : forall tz c n, run (parseDateRange H text tz) c n = (None, n)).
  { intros tz c n. pose proof (run_parseDateRange H text tz c n) as Hr.
    rewrite dateRangeRequest_without_meridiem in Hr by exact Hdt. exact Hr. }
  assert (Hres : forall c n,
        hasTimeForScheduling originalText = true ->
        run (resolve H originalText) c n
        = run (resolveGeneric H originalText text (detectTimezone H text)) c (S n)).
  { intros c n Hrel. unfold resolve. rewrite Hrel. cbn [negb].
    rewrite run_bind, Hpre. cbn [fst snd]. rewrite run_bind, Hwk. cbn [fst snd].
    rewrite run_bind, Hdr. cbn [fst snd]. reflexivity. }
  assert (Hgen : forall o t tz c n body,
             fst (run (resolveGeneric H o t tz) c n) <> MultipleTimes body).
  { intros o t tz c n body. unfold resolveGeneric.
    rewrite run_bind. cbn [bind new_Date run fst snd].
    destruct (chrono_parse H t (c n)) as [|r rest]; [discriminate|].
    rewrite run_bind. destruct (r_end r); [rewrite run_bind|]; discriminate. }
  split; [exact Hpre|]. split; [exact Hwk|]. split; [exact Hdr|]. split; [exact Hres|].
  split.
  - intros c body. unfold result, parse.
    destruct (String.eqb originalText ""); [discriminate|].
    destruct (hasTimeForScheduling originalText) eqn:Hrel.
    + rewrite (Hres c 0%nat eq_refl). apply Hgen.
    + unfold resolve. rewrite Hrel. discriminate.
  - intros c. unfold result, parse.
    destruct (String.eqb originalText ""); [discriminate|].
    destruct (hasTimeForScheduling originalText) eqn:Hrel.
    + rewrite (Hres c 0%nat eq_refl). apply run_resolveGeneric_answers.
    + unfold resolve. rewrite Hrel. discriminate.
Qed.

Lemma text_without_meridiem_witness :
  hasTimeForScheduling "  Monday 14:00 to Friday 16:00 utc+2 " = true
  /\ run (preprocessText Example.host "  Monday 14:00 to Friday 16:00 utc+2 ")
         (Example.stopped Example.sunday_noon) 0
     = ("Monday 14:00 to Friday 16:00 utc+2", 1%nat)
  /\ run (parseMultipleDays Example.host "Monday 14:00 to Friday 16:00 utc+2" None)
         (Example.stopped Example.sunday_noon) 1
     = (None, 1%nat).
Proof.
  assert (Hd : no_meridiem "  Monday 14:00 to Friday 16:00 utc+2 ").
  { intros x [<-|[<-|[]]]; vm_compute; reflexivity. }
  destruct (text_without_meridiem Example.host _ Hd) as (Hpre & Hwk & _).
  split; [vm_compute; reflexivity|]. split; [apply Hpre|].
  replace (trim "  Monday 14:00 to Friday 16:00 utc+2 ")
    with "Monday 14:00 to Friday 16:00 utc+2" in Hwk by (vm_compute; reflexivity).
  apply Hwk.
Defined.

End TwelveHourClock.

(* ================================================================== *)
(** ** Months *)
(* ================================================================== *)

Section MonthFacts.

Lemma days_scan_spec (n : nat) :
  forall z, days_scan n z (civil_from_days (z - 1)) = true ->
  forall x, z <= x < z + Z.of_nat n ->
            day_step_ok (civil_from_days (x - 1)) (civil_from_days x) = true.
Proof.
  induction n as [|n IH]; intros z Hs x Hx; [lia|].
  cbn [days_scan] in Hs. apply andb_true_iff in Hs as (Hz & Hrest).
  destruct (Z.eq_dec x z) as [->|Hne]; [exact Hz|].
  apply (IH (z + 1)); [|lia].
  replace (z + 1 - 1) with z by lia. exact Hrest.
Qed.

Lemma days_scanned :
  days_scan (Z.to_nat 146097) (-719468) (civil_from_days (-719468 - 1)) = true.
Proof. vm_cast_no_check (eq_refl true). Qed.

Lemma civil_from_days_period (z k : Z) :
  civil_from_days (z + k * 146097)
  = match civil_from_days z with (y, m, d) => (y + k * 400, m, d) end.
Proof.
  unfold civil_from_days.
  replace (z + k * 146097 + 719468) with (z + 719468 + k * 146097) by lia.
  rewrite Z.div_add, Z.mod_add by lia.
  destruct (civil_of_era_day ((z + 719468) mod 146097)) as [[y m] d].
  f_equal. f_equal. lia.
Qed.

Lemma day_step_ok_period (p c : Z * Z * Z) (k : Z) :
  day_step_ok (match p with (y, m, d) => (y + k * 400, m, d) end)
              (match c with (y, m, d) => (y + k * 400, m, d) end)
  = day_step_ok p c.
Proof.
  assert (E : forall a b, (a + k * 400 =? b + k * 400) = (a =? b)).
  { intros a b. destruct (Z.eqb_spec (a + k * 400) (b + k * 400));
      destruct (Z.eqb_spec a b); try reflexivity; lia. }
  destruct p as [[y0 m0] d0], c as [[y m] d]. unfold day_step_ok, next_month.
  destruct (m0 =? 12); cbn [fst snd].
  - replace (y0 + k * 400 + 1) with (y0 + 1 + k * 400) by lia. rewrite !E. reflexivity.
  - rewrite !E. reflexivity.
Qed.

(** The civil date of a day, from that of the day before. *)
Lemma day_step (z : Z) :
  day_step_ok (civil_from_days (z - 1)) (civil_from_days z) = true.
Proof.
  set (k := (z + 719468) / 146097).
  set (z0 := (z + 719468) mod 146097 - 719468).
  assert (Hz : z = z0 + k * 146097).
  { subst k z0. pose proof (Z.div_mod (z + 719468) 146097 ltac:(lia)). lia. }
  rewrite Hz. replace (z0 + k * 146097 - 1) with (z0 - 1 + k * 146097) by lia.
  rewrite !civil_from_days_period, day_step_ok_period.
  apply (days_scan_spec (Z.to_nat 146097) (-719468) days_scanned).
  subst z0. pose proof (Z.mod_pos_bound (z + 719468) 146097 ltac:(lia)).
  rewrite Z2Nat.id; lia.
Qed.

Lemma day_step_cases (z y0 m0 d0 y m d : Z) :
  civil_from_days (z - 1) = (y0, m0, d0) -> civil_from_days z = (y, m, d) ->
  d <= 31
  /\ ((y = y0 /\ m = m0 /\ d = d0 + 1)
      \/ (d = 1 /\ 28 <= d0 /\ (y, m) = next_month y0 m0)).
Proof.
  intros Hp Hc. pose proof (day_step z) as Hok. rewrite Hp, Hc in Hok.
  unfold day_step_ok in Hok.
  apply andb_true_iff in Hok as (Hd & Hok). apply Z.leb_le in Hd.
  split; [exact Hd|].
  apply orb_true_iff in Hok as [Hok|Hok].
  - apply andb_true_iff in Hok as (Hok & H3). apply andb_true_iff in Hok as (H1 & H2).
    apply Z.eqb_eq in H1, H2, H3. left. auto.
  - apply andb_true_iff in Hok as (Hok & H4). apply andb_true_iff in Hok as (Hok & H3).
    apply andb_true_iff in Hok as (H1 & H2).
    apply Z.eqb_eq in H1, H3, H4. apply Z.leb_le in H2.
    right. split; [exact H1|]. split; [exact H2|].
    destruct (next_month y0 m0). cbn [fst snd] in *. subst. reflexivity.
Qed.

(** The earlier days of a month have its year and month. *)
Lemma same_month_before (k : nat) :
  forall z y m d,
    civil_from_days z = (y, m, d) -> Z.of_nat k < d ->
    civil_from_days (z - Z.of_nat k) = (y, m, d - Z.of_nat k).
Proof.
  induction k as [|k IH]; intros z y m d Hc Hk.
  - replace (z - Z.of_nat 0) with z by lia. replace (d - Z.of_nat 0) with d by lia.
    exact Hc.
  - destruct (civil_from_days (z - 1)) as [[y0 m0] d0] eqn:Hp.
    destruct (day_step_cases z _ _ _ _ _ _ Hp Hc) as (_ & [(-> & -> & ->)|(Hone & _)]);
      [|lia].
    replace (z - Z.of_nat (S k)) with (z - 1 - Z.of_nat k) by lia.
    replace (d0 + 1 - Z.of_nat (S k)) with (d0 - Z.of_nat k) by lia.
    apply IH; [exact Hp|lia].
Qed.

(** The month of a day ends on its 28th to 31st day; the day after is the
    first of the next month. *)
Lemma month_end (n : nat) :
  forall z y m d,
    civil_from_days z = (y, m, d) -> 31 - d < Z.of_nat n ->
    exists j, 0 <= j /\ 28 <= d + j <= 31 /\ next_month_first y m = z + j + 1.
Proof.
  induction n as [|n IH]; intros z y m d Hc Hn.
  - pose proof (day_step_cases z) as Hs.
    destruct (civil_from_days (z - 1)) as [[y0 m0] d0].
    destruct (Hs _ _ _ _ _ _ eq_refl Hc) as (Hd & _). lia.
  - assert (Hd : d <= 31).
    { pose proof (day_step_cases z) as Hs.
      destruct (civil_from_days (z - 1)) as [[y0 m0] d0].
      exact (proj1 (Hs _ _ _ _ _ _ eq_refl Hc)). }
    destruct (civil_from_days (z + 1)) as [[y1 m1] d1] eqn:Hn1.
    assert (Hp : civil_from_days (z + 1 - 1) = (y, m, d))
      by (replace (z + 1 - 1) with z by lia; exact Hc).
    destruct (day_step_cases (z + 1) _ _ _ _ _ _ Hp Hn1)
      as (Hd1 & [(-> & -> & ->)|(-> & H28 & Hnext)]).
    + destruct (IH (z + 1) y m (d + 1) Hn1 ltac:(lia)) as (j & Hj & Hb & He).
      exists (j + 1). split; [lia|]. split; [lia|]. rewrite He. lia.
    + pose proof (days_from_civil_from_days (z + 1)) as Hr. rewrite Hn1 in Hr.
      destruct Hr as (Hr & _). exists 0. split; [lia|]. split; [lia|].
      unfold next_month_first. rewrite <- Hnext. cbn [fst snd]. lia.
Qed.

Lemma before_next_month (z y m d : Z) :
  civil_from_days z = (y, m, d) -> z < next_month_first y m.
Proof.
  intros Hc.
  destruct (month_end (Z.to_nat (32 - d) + 1) z y m d Hc ltac:(lia)) as (j & Hj & _ & He).
  lia.
Qed.

(** [MakeDay] on the month after month [m - 1] of the year. *)
Lemma MakeDay_next_month (y m date : Z) :
  1 <= m <= 12 -> MakeDay y (m - 1 + 1) date = next_month_first y m + date - 1.
Proof.
  intros Hm. unfold MakeDay, next_month_first, next_month.
  replace (m - 1 + 1) with m by lia.
  destruct (Z.eqb_spec m 12) as [->|Hne].
  - reflexivity.
  - rewrite Z.div_small, Z.mod_small by lia.
    replace (y + 0) with y by lia. reflexivity.
Qed.

(** [setMonth] to the month after that of [now], on an instant of an
    earlier day of the month of [now], or of the day of [now]: the result
    is after [now]. *)
Lemma setMonth_next_after (tza now t : Z) :
  Day (t + tza) <= Day (now + tza) ->
  Day (now + tza) - Day (t + tza) < getDate tza now ->
  now < setMonth tza t (getMonth tza now + 1).
Proof.
  intros Hle Hk.
  unfold setMonth, getMonth, getDate, UTC, LocalTime, MakeDate,
    YearFromTime, MonthFromTime, DateFromTime in *.
  set (z := Day (now + tza)) in *. set (zt := Day (t + tza)) in *.
  destruct (civil_from_days z) as [[y m] d] eqn:Hc.
  pose proof (days_from_civil_from_days z) as Hr. rewrite Hc in Hr.
  destruct Hr as (_ & Hm & Hd).
  pose proof (same_month_before (Z.to_nat (z - zt)) z y m d Hc) as Hs.
  rewrite Z2Nat.id in Hs by lia.
  replace (z - (z - zt)) with zt in Hs by lia.
  rewrite (Hs Hk).
  rewrite MakeDay_next_month by exact Hm.
  pose proof (before_next_month z y m d Hc) as Hn.
  pose proof (day_time_split (now + tza)) as Hsplit. fold z in Hsplit.
  assert (Hb : 0 <= TimeWithinDay (now + tza) < msPerDay)
    by (apply Z.mod_pos_bound; unfold msPerDay; lia).
  assert (Hbt : 0 <= TimeWithinDay (t + tza) < msPerDay)
    by (apply Z.mod_pos_bound; unfold msPerDay; lia).
  set (F := next_month_first y m) in *. clearbody F.
  set (A := TimeWithinDay (now + tza)) in *. set (B := TimeWithinDay (t + tza)) in *.
  clearbody A B z zt. unfold msPerDay in *. nia.
Qed.


End MonthFacts.

(* ================================================================== *)
(** ** The expander and the policy of the other revisions *)
(* ================================================================== *)

Section OtherRevisions.

(** A day of the current month, at a time of day, that is before [now]:
    it is on the day of [now] or an earlier day of its month. *)
Lemma past_day_of_month (tza now h m day : Z) :
  1 <= day -> 0 <= h < 24 -> 0 <= m < 60 -> 100 <= getFullYear tza now ->
  let target := newDate tza (getFullYear tza now) (getMonth tza now) day h m 0 0 in
  target < now ->
  Day (target + tza) <= Day (now + tza)
  /\ Day (now + tza) - Day (target + tza) < getDate tza now
  /\ getMonth tza target = getMonth tza now.
Proof.
  intros Hday Hh Hm Hy target Hlt.
  assert (HT : 0 <= MakeTime h m 0 0 < msPerDay)
    by (unfold MakeTime, msPerDay, msPerHour, msPerMinute, msPerSecond; lia).
  assert (Hl : target + tza
               = (Day (now + tza) + (day - getDate tza now)) * msPerDay + MakeTime h m 0 0).
  { subst target. unfold newDate.
    replace ((0 <=? getFullYear tza now) && (getFullYear tza now <=? 99)) with false
      by (symmetry; apply andb_false_iff; right; apply Z.leb_gt; lia).
    unfold UTC, MakeDate, getFullYear, getMonth, getDate, LocalTime.
    rewrite <- (MakeDay_from_time (now + tza) (day - DateFromTime (now + tza))).
    replace (DateFromTime (now + tza) + (day - DateFromTime (now + tza))) with day by lia.
    lia. }
  destruct (local_day_and_time _ _ _ Hl HT) as (HD & _).
  assert (Hmono : Day (target + tza) <= Day (now + tza))
    by (unfold Day; apply Z.div_le_mono; [unfold msPerDay|]; lia).
  split; [exact Hmono|]. split; [rewrite HD; lia|].
  unfold getMonth, getDate, LocalTime, MonthFromTime, DateFromTime in *.
  set (z := Day (now + tza)) in *. set (zt := Day (target + tza)) in *.
  destruct (civil_from_days z) as [[y mo] d] eqn:Hc.
  pose proof (same_month_before (Z.to_nat (z - zt)) z y mo d Hc) as Hs.
  rewrite Z2Nat.id in Hs by lia.
  replace (z - (z - zt)) with zt in Hs by lia.
  rewrite Hs by lia. reflexivity.
Qed.

Lemma earlier_target (tza now h m day : Z) :
  1 <= day -> 0 <= h < 24 -> 0 <= m < 60 -> 100 <= getFullYear tza now ->
  let target := newDate tza (getFullYear tza now) (getMonth tza now) day h m 0 0 in
  now <= (if target <? now then setMonth tza target (getMonth tza now + 1) else target).
Proof.
  intros Hday Hh Hm Hy target.
  destruct (Z.ltb_spec target now) as [Hlt|Hge]; [|exact Hge].
  apply Z.lt_le_incl.
  destruct (past_day_of_month tza now h m day Hday Hh Hm Hy Hlt) as (Hle & Hk & _).
  apply setMonth_next_after; assumption.
Qed.

(** X14.  [parseDateRange] of [src/src/scheduling-api.js], for a range whose
    first day is at least 1, a time with an hour below 24 and a minute
    below 60, a text without timezone and a clock in the year 100 or later:
    there is one entry for every day from the first to the last, and no
    entry is before the instant [now] the expander read (a day of the
    current month that has passed is moved to the next month). *)
Theorem earlier_date_range_not_in_the_past
        (H : Host) (text : string) (c : clock) (n : nat)
        (s e h m : Z) (results : list Entry)
        (Hreq : dateRangeRequest text = Some (s, e, h, m))
        (Hs : 1 <= s) (Hh : 0 <= h < 24) (Hm : 0 <= m < 60)
        (Hy : 100 <= getFullYear (LocalTZA H) (c n))
        (Hrun : fst (run (Earlier.parseDateRange H text None) c n) = Some results) :
  List.length results = Z.to_nat (e - s + 1)
  /\ Forall (fun en => c n <= e_jsDate en) results.
Proof.
  unfold Earlier.parseDateRange in Hrun. rewrite Hreq in Hrun.
  cbn [bind new_Date run fst] in Hrun. injection Hrun as <-.
  split; [rewrite length_map; apply dayRange_length|].
  apply Forall_forall. intros en Hen. apply in_map_iff in Hen as (day & <- & Hday).
  unfold dayRange in Hday. apply in_map_iff in Hday as (i & <- & _).
  unfold Earlier.dateEntry, mkSeriesEntry, applySeriesTimezone.
  cbn [truthy fst e_jsDate].
  apply (earlier_target (LocalTZA H) (c n) h m (s + Z.of_nat i)); [lia|exact Hh|exact Hm|exact Hy].
Qed.

Lemma earlier_date_range_not_in_the_past_witness :
  dateRangeRequest "from 15th to 20th at 10pm" = Some (15, 20, 22, 0)
  /\ exists results,
      run_at Example.tuesday_noon
        (Earlier.parseDateRange Example.host "from 15th to 20th at 10pm" None)
      = Some results
      /\ List.length results = 6%nat
      /\ Forall (fun en => Example.tuesday_noon <= e_jsDate en) results.
Proof.
  assert (Hreq : dateRangeRequest "from 15th to 20th at 10pm" = Some (15, 20, 22, 0))
    by (vm_compute; reflexivity).
  split; [exact Hreq|].
  assert (Hrun : run_at Example.tuesday_noon
                   (Earlier.parseDateRange Example.host "from 15th to 20th at 10pm" None)
                 = fst (run (Earlier.parseDateRange Example.host
                               "from 15th to 20th at 10pm" None)
                            (Example.stopped Example.tuesday_noon) 0)).
  { unfold Earlier.parseDateRange. rewrite Hreq. reflexivity. }
  unfold Earlier.parseDateRange in Hrun at 2. rewrite Hreq in Hrun.
  cbn [bind new_Date run fst] in Hrun.
  eexists. split; [exact Hrun|].
  apply (earlier_date_range_not_in_the_past Example.host "from 15th to 20th at 10pm"
           (Example.stopped Example.tuesday_noon) 0 15 20 22 0);
    [exact Hreq|lia|lia|lia|vm_compute; discriminate|].
  unfold Earlier.parseDateRange. rewrite Hreq. reflexivity.
Defined.

(** *** adjustToFuture in the second revision *)



Lemma run_at_mapM {A B} (now : Z) (f : A -> Clocked B) (l : list A) :
  run_at now (mapM f l) = map (fun x => run_at now (f x)) l.
Proof.
  induction l as [|x l IH]; [reflexivity|].
  cbn [mapM map]. rewrite run_at_bind, run_at_bind, IH. reflexivity.
Qed.

Lemma second_target (tza now h m day : Z) (text : string) :
  1 <= day -> 0 <= h < 24 -> 0 <= m < 60 -> 100 <= getFullYear tza now ->
  test true dayOfWeekPattern (toLowerCase text) = false ->
  test true Second.weekendPattern (toLowerCase text) = false ->
  let target := newDate tza (getFullYear tza now) (getMonth tza now) day h m 0 0 in
  now - msPerHour <= Second.adjustToFutureAt tza now target text false None.
Proof.
  intros Hday Hh Hm Hy Hw1 Hw2 target. unfold Second.adjustToFutureAt.
  assert (Hhour : msPerHour = 60 * 60 * 1000) by reflexivity.
  assert (Hweek : oneWeekMs = 604800000) by reflexivity.
  destruct (Z.ltb_spec target (now - 60 * 60 * 1000)) as [Hold|Hnew]; [|lia].
  rewrite Hw1, Hw2. cbn [orb].
  assert (Hlt : target < now) by lia.
  destruct (past_day_of_month tza now h m day Hday Hh Hm Hy Hlt) as (Hle & Hk & Hmo).
  fold target in Hle, Hk, Hmo.
  assert (Hnext : now < setMonth tza target (getMonth tza target + 1))
    by (rewrite Hmo; apply setMonth_next_after; assumption).
  destruct (test true Second.dateRangePattern (toLowerCase text)); [lia|].
  destruct (Z.ltb_spec target (now - oneWeekMs)); lia.
Qed.

End OtherRevisions.

(* ================================================================== *)
(** ** The matcher finds the matches of plain patterns *)
(* ================================================================== *)

Section MatcherCompleteness.

Lemma or_else_left {A} (x y : option A) : x <> None -> or_else x y <> None.
Proof. destruct x; [discriminate|contradiction]. Qed.

Lemma or_else_right {A} (x y : option A) : y <> None -> or_else x y <> None.
Proof. destruct x; [discriminate|auto]. Qed.

Lemma matches_pos (ic : bool) (r : regex) (s s' : mstate) :
  matches ic r s s' -> (pos s <= pos s')%nat.
Proof.
  intros H. apply matches_consumed in H as (w & _ & Hp). lia.
Qed.

Lemma matches_consumes (ic : bool) (r : regex) :
  forall s s', matches ic r s s' -> consumes r = true -> (pos s < pos s')%nat.
Proof.
  induction r as [|cs|r1 IH1 r2 IH2|r1 IH1 r2 IH2|g lo hi r IH|i r IH| |r IH|];
    intros s s' H Hc; cbn [matches consumes] in *; try discriminate Hc.
  - destruct H as (c & r' & _ & _ & ->). cbn. lia.
  - destruct H as (s1 & H1 & H2).
    pose proof (matches_pos _ _ _ _ H1). pose proof (matches_pos _ _ _ _ H2).
    apply orb_true_iff in Hc as [Hc|Hc].
    + specialize (IH1 _ _ H1 Hc). lia.
    + specialize (IH2 _ _ H2 Hc). lia.
  - apply andb_true_iff in Hc as (Hc1 & Hc2).
    destruct H as [H|H]; [exact (IH1 _ _ H Hc1)|exact (IH2 _ _ H Hc2)].
  - apply andb_true_iff in Hc as (Hlo & Hc). apply Nat.leb_le in Hlo.
    destruct H as (n & Hn & _ & H). destruct n as [|n]; [lia|].
    cbn [iterP] in H. destruct H as (s1 & H1 & H2).
    specialize (IH _ _ H1 Hc).
    destruct (iterP_consumed _ (matches_consumed ic r) _ _ _ H2) as (w & _ & Hp). lia.
  - destruct H as (s1 & H1 & ->). cbn. exact (IH _ _ H1 Hc).
Qed.

(** Iterations that consume are no more than the characters left. *)
Lemma iterP_count (R : mstate -> mstate -> Prop)
      (HR : forall a b, R a b -> exists w, consumed a b w /\ (1 <= String.length w)%nat) :
  forall n s s', iterP R n s s' -> (n <= String.length (rest s))%nat.
Proof.
  induction n as [|n IH]; intros s s' H; [lia|].
  cbn [iterP] in H. destruct H as (s1 & H1 & H2).
  apply HR in H1 as (w & (Hr & _) & Hw). apply IH in H2.
  rewrite Hr, sapp_length. lia.
Qed.

Lemma consumes_word (ic : bool) (r : regex) (a b : mstate) :
  consumes r = true -> matches ic r a b ->
  exists w, consumed a b w /\ (1 <= String.length w)%nat.
Proof.
  intros Hc H. pose proof (matches_consumes _ _ _ _ H Hc) as Hp.
  apply matches_consumed in H as (w & Hw). exists w. split; [exact Hw|].
  destruct Hw as (_ & Hq). lia.
Qed.

Lemma rep_loop_complete (R : mstate -> mstate -> Prop)
      (step : (mstate -> option mstate) -> mstate -> option mstate)
      (k : mstate -> option mstate) (greedy : bool) (lo : nat) (s' : mstate)
      (Hpos : forall a b, R a b -> (pos a < pos b)%nat)
      (Hstep : forall k' a b, R a b -> k' b <> None -> step k' a <> None)
      (Hk : k s' <> None) :
  forall j fuel cnt s0,
    iterP R j s0 s' -> (lo <= cnt + j)%nat -> (j <= fuel)%nat ->
    rep_loop step k greedy lo fuel cnt s0 <> None.
Proof.
  induction j as [|j IH]; intros fuel cnt s0 Hit Hlo Hfuel.
  - cbn [iterP] in Hit. subst s0.
    assert (Hstop : (if (lo <=? cnt)%nat then k s' else None) <> None).
    { destruct (Nat.leb_spec lo cnt); [exact Hk|lia]. }
    destruct fuel as [|fuel]; [exact Hstop|].
    cbn [rep_loop]. cbv zeta.
    destruct greedy; [apply or_else_right|apply or_else_left]; exact Hstop.
  - destruct fuel as [|fuel]; [lia|].
    cbn [iterP] in Hit. destruct Hit as (s1 & H1 & H2).
    cbn [rep_loop]. cbv zeta.
    assert (Hmore : step (fun s2 =>
                 if (cnt <? lo)%nat || negb (pos s2 =? pos s0)%nat
                 then rep_loop step k greedy lo fuel (S cnt) s2 else None) s0 <> None).
    { apply (Hstep _ _ _ H1).
      replace (negb (pos s1 =? pos s0)%nat) with true.
      - rewrite orb_true_r. apply IH; [exact H2|lia|lia].
      - symmetry. apply negb_true_iff, Nat.eqb_neq. specialize (Hpos _ _ H1). lia. }
    destruct greedy; [apply or_else_left|apply or_else_right]; exact Hmore.
Qed.

(** When the pattern has a match that the rest of the pattern accepts, the
    matcher finds one. *)
Lemma rmatch_complete (ic : bool) (r : regex) :
  plain r = true ->
  forall k s s', matches ic r s s' -> k s' <> None -> rmatch ic r k s <> None.
Proof.
  induction r as [|cs|r1 IH1 r2 IH2|r1 IH1 r2 IH2|g lo hi r IH|i r IH| |r IH|];
    intros Hp k s s' H Hk; cbn [plain] in Hp.
  - cbn in H. subst. exact Hk.
  - cbn [matches rmatch] in *. destruct H as (c & r' & -> & -> & ->). exact Hk.
  - apply andb_true_iff in Hp as (Hp1 & Hp2).
    cbn [matches rmatch] in *. destruct H as (s1 & H1 & H2).
    apply (IH1 Hp1 _ _ _ H1). apply (IH2 Hp2 _ _ _ H2). exact Hk.
  - apply andb_true_iff in Hp as (Hp1 & Hp2).
    cbn [matches rmatch] in *. destruct H as [H|H].
    + apply or_else_left. exact (IH1 Hp1 _ _ _ H Hk).
    + apply or_else_right. exact (IH2 Hp2 _ _ _ H Hk).
  - apply andb_true_iff in Hp as (Hc & Hp).
    rewrite rmatch_Rep. cbn [matches] in H. destruct H as (n & Hlo & Hhi & Hit).
    apply (rep_loop_complete (matches ic r) _ _ _ _ s'
             (fun a b Hab => matches_consumes ic r a b Hab Hc)
             (fun k' a b Hab Hkb => IH Hp k' a b Hab Hkb) Hk n); [exact Hit|lia|].
    destruct hi as [h|]; [exact Hhi|].
    pose proof (iterP_count _ (fun a b => consumes_word ic r a b Hc) _ _ _ Hit). lia.
  - cbn [matches rmatch] in *. destruct H as (s1 & H1 & ->).
    apply (IH Hp _ _ _ H1). exact Hk.
  - cbn [matches rmatch] in *. destruct H as (-> & ->). exact Hk.
  - discriminate Hp.
  - cbn [matches rmatch] in *. destruct H as (-> & Hz). rewrite Hz. exact Hk.
Qed.

Lemma walk_app (a b : string) :
  forall s t, rest s = a ++ b ++ t -> walk (a ++ b) s = walk b (walk a s).
Proof.
  induction a as [|c a IH]; intros s t Hr; [reflexivity|].
  cbn [append walk] in *. rewrite Hr. apply (IH _ t). reflexivity.
Qed.

Lemma last_char_some (a : ascii) (w : string) : exists c, last_char (String a w) = Some c.
Proof.
  revert a. induction w as [|b w IH]; intros a; [exists a; reflexivity|].
  destruct (IH b) as (c & Hc). exists c. cbn [last_char] in *. exact Hc.
Qed.

Lemma walk_rest (w : string) :
  forall s t, rest s = w ++ t ->
              rest (walk w s) = t
              /\ pos (walk w s) = (pos s + String.length w)%nat
              /\ caps (walk w s) = caps s
              /\ prev (walk w s) = match last_char w with Some c => Some c | None => prev s end.
Proof.
  induction w as [|c w IH]; intros s t Hr.
  - cbn. auto.
  - cbn [append walk] in *. rewrite Hr.
    destruct (IH (advance c (w ++ t) s) t eq_refl) as (H1 & H2 & H3 & H4).
    split; [exact H1|]. split; [rewrite H2; cbn; lia|]. split; [exact H3|].
    rewrite H4. destruct w as [|a w]; [reflexivity|].
    destruct (last_char_some a w) as (x & Hx).
    change (last_char (String c (String a w))) with (last_char (String a w)).
    rewrite Hx. reflexivity.
Qed.

(** The search reaches every position of the input. *)
Lemma search_complete (ic : bool) (r : regex) (input : string) (mid : string) :
  forall fuel s t,
    rest s = mid ++ t -> caps s = [] -> (String.length mid <= fuel)%nat ->
    rmatch ic r Some (walk mid s) <> None ->
    search ic r input fuel s <> None.
Proof.
  induction mid as [|c mid IH]; intros fuel s t Hr Hc Hfuel Hm.
  - cbn [walk] in Hm. destruct s as [p pv rs cs]. cbn in Hc. subst cs.
    destruct fuel; cbn [search pos prev rest];
      destruct (rmatch ic r Some (MState p pv rs [])); try discriminate; contradiction.
  - destruct fuel as [|fuel]; [cbn in Hfuel; lia|].
    cbn [search].
    destruct (rmatch ic r Some (MState (pos s) (prev s) (rest s) [])) as [e|];
      [discriminate|].
    cbn [append] in Hr. rewrite Hr.
    apply (IH fuel (advance c (mid ++ t) s) t); [reflexivity|exact Hc|cbn in Hfuel; lia|].
    cbn [walk] in Hm. rewrite Hr in Hm. exact Hm.
Qed.

(** A plain pattern that has a match somewhere in the text tests true. *)
Lemma test_complete (ic : bool) (r : regex) (pre t : string) (s' : mstate) :
  plain r = true ->
  matches ic r (walk pre (init_state (pre ++ t))) s' ->
  test ic r (pre ++ t) = true.
Proof.
  intros Hp Hm. unfold test, exec.
  pose proof (search_complete ic r (pre ++ t) pre (String.length (pre ++ t))
                (init_state (pre ++ t)) t eq_refl eq_refl
                ltac:(rewrite sapp_length; lia)) as Hs.
  destruct (search ic r (pre ++ t) _ _); [reflexivity|].
  exfalso. apply Hs; [|reflexivity].
  apply (rmatch_complete ic r Hp Some _ s' Hm). discriminate.
Qed.

(** *** Matches of the parts of the time patterns *)
Lemma chr_walk (ic : bool) (cs : charset) (c : ascii) (s : mstate) (t : string) :
  rest s = String c t -> char_matches ic cs c = true ->
  matches ic (Chr cs) s (walk (String c "") s).
Proof.
  intros Hr Hc. cbn [matches walk]. rewrite Hr. exists c, t. auto.
Qed.

Lemma canon_refl (ic : bool) (c : ascii) : Ascii.eqb (canon ic c) (canon ic c) = true.
Proof. apply Ascii.eqb_refl. Qed.

Lemma lit_walk (ic : bool) (w : string) :
  forall s t, rest s = w ++ t -> matches ic (lit w) s (walk w s).
Proof.
  induction w as [|c w IH]; intros s t Hr; [reflexivity|].
  destruct w as [|d w].
  - cbn [lit]. apply (chr_walk ic _ c s t Hr). apply canon_refl.
  - change (lit (String c (String d w))) with (Seq (Chr (CLit c)) (lit (String d w))).
    cbn [matches]. exists (walk (String c "") s). split.
    + apply (chr_walk ic _ c s (String d w ++ t) Hr). apply canon_refl.
    + cbn [walk] in *. cbn [append] in Hr. rewrite Hr. apply (IH _ t). reflexivity.
Qed.

Lemma words_walk (ic : bool) (l : list string) (w : string) :
  In w l -> forall s t, rest s = w ++ t -> matches ic (words l) s (walk w s).
Proof.
  induction l as [|a l IH]; intros Hin s t Hr; [contradiction|].
  destruct l as [|b l].
  - destruct Hin as [->|[]]. exact (lit_walk ic w s t Hr).
  - change (words (a :: b :: l)) with (Alt (lit a) (words (b :: l))).
    cbn [matches]. destruct Hin as [->|Hin].
    + left. exact (lit_walk ic w s t Hr).
    + right. exact (IH Hin s t Hr).
Qed.

Lemma spaces_walk (ic : bool) (sp : string) :
  all_space sp = true ->
  forall s t, rest s = sp ++ t ->
              iterP (matches ic ws) (String.length sp) s (walk sp s).
Proof.
  induction sp as [|c sp IH]; intros Hsp s t Hr; [reflexivity|].
  cbn [all_space] in Hsp. apply andb_true_iff in Hsp as (Hc & Hsp).
  cbn [String.length iterP]. exists (walk (String c "") s). split.
  - apply (chr_walk ic CSpace c s (sp ++ t) Hr). exact Hc.
  - cbn [walk] in *. cbn [append] in Hr. rewrite Hr. apply (IH Hsp _ t). reflexivity.
Qed.

Lemma is_digit_word (c : ascii) : is_digit c = true -> is_word c = true.
Proof. intros H. unfold is_word. rewrite H. reflexivity. Qed.

(** X17.  Texts that [hasTimeForScheduling] always accepts: a text with a
    digit followed, after any white space, by am, pm, AM or PM; a text
    with a time on the 24-hour clock, one digit for the hour, a colon, a
    digit from 0 to 5 and a digit, that does not touch a letter, digit or
    underscore on either side; and a text with one of the words noon,
    midnight, evening, morning, afternoon, written in small letters,
    that does not touch one either. *)
Theorem clock_time_is_relevant :
  (forall (pre : string) (d : ascii) (sp mer post : string),
      is_digit d = true -> all_space sp = true -> In mer ["am"; "pm"; "AM"; "PM"] ->
      hasTimeForScheduling (pre ++ String d (sp ++ mer ++ post)) = true)
  /\ (forall (pre : string) (h m1 m2 : ascii) (post : string),
        word_end pre = false -> word_start post = false ->
        is_digit h = true -> in_range "0" "5" m1 = true -> is_digit m2 = true ->
        hasTimeForScheduling
          (pre ++ String h (String ":" (String m1 (String m2 post)))) = true)
  /\ (forall (pre word post : string),
        word_end pre = false -> word_start post = false -> In word time_words ->
        hasTimeForScheduling (pre ++ word ++ post) = true).
Proof.
  split; [|split].
  - intros pre d sp mer post Hd Hsp Hmer.
    unfold hasTimeForScheduling, timeIndicators. cbn [existsb fst snd].
    apply orb_true_iff. left.
    set (t := String d (sp ++ mer ++ post)).
    set (s0 := walk pre (init_state (pre ++ t))).
    assert (Hr0 : rest s0 = String d (sp ++ mer ++ post))
      by (apply (walk_rest pre (init_state (pre ++ t)) t); reflexivity).
    set (s1 := walk (String d "") s0).
    assert (Hr1 : rest s1 = sp ++ mer ++ post)
      by (apply (walk_rest (String d "") s0 (sp ++ mer ++ post)); exact Hr0).
    set (s2 := walk sp s1).
    assert (Hr2 : rest s2 = mer ++ post)
      by (apply (walk_rest sp s1 (mer ++ post)); exact Hr1).
    apply (test_complete false _ pre t (walk mer s2)); [reflexivity|].
    fold s0. cbn [seqs matches].
    exists s1. split.
    { unfold d12, times. cbn [matches]. exists 1%nat. split; [lia|]. split; [lia|].
      cbn [iterP]. exists s1. split; [|reflexivity].
      apply (chr_walk false CDigit d s0 _ Hr0). exact Hd. }
    exists s1. split.
    { unfold opt. cbn [matches]. exists 0%nat. split; [lia|]. split; [lia|reflexivity]. }
    exists s2. split.
    { unfold star. cbn [matches]. exists (String.length sp).
      split; [lia|]. split; [exact I|].
      exact (spaces_walk false sp Hsp s1 _ Hr1). }
    exact (words_walk false _ mer Hmer s2 post Hr2).
  - intros pre h m1 m2 post Hpre Hpost Hh Hm1 Hm2.
    unfold hasTimeForScheduling, timeIndicators. cbn [existsb fst snd].
    apply orb_true_iff. right. apply orb_true_iff. left.
    set (t := String h (String ":" (String m1 (String m2 post)))).
    set (s0 := walk pre (init_state (pre ++ t))).
    destruct (walk_rest pre (init_state (pre ++ t)) t eq_refl) as (Hr0 & _ & _ & Hv0).
    fold s0 in Hr0, Hv0. unfold t in Hr0.
    set (s1 := walk (String h "") s0).
    destruct (walk_rest (String h "") s0 _ Hr0) as (Hr1 & _).
    fold s1 in Hr1.
    set (s2 := walk (String ":" "") s1).
    destruct (walk_rest (String ":" "") s1 _ Hr1) as (Hr2 & _).
    fold s2 in Hr2.
    set (s3 := walk (String m1 "") s2).
    destruct (walk_rest (String m1 "") s2 _ Hr2) as (Hr3 & _).
    fold s3 in Hr3.
    set (s4 := walk (String m2 "") s3).
    destruct (walk_rest (String m2 "") s3 _ Hr3) as (Hr4 & _ & _ & Hv4).
    fold s4 in Hr4, Hv4.
    apply (test_complete false _ pre t s4); [reflexivity|].
    fold s0. cbn [seqs matches].
    exists s0. split.
    { split; [reflexivity|]. unfold word_before, word_after. rewrite Hv0, Hr0.
      cbn [init_state prev]. unfold word_end in Hpre.
      replace (match match last_char pre with Some c => Some c | None => None end with
               | Some c => is_word c | None => false end) with false
        by (destruct (last_char pre); [symmetry; exact Hpre|reflexivity]).
      rewrite (is_digit_word h Hh). reflexivity. }
    exists s1. split.
    { left. cbn [seqs matches]. exists s0. split.
      - unfold opt. cbn [matches]. exists 0%nat. split; [lia|]. split; [lia|reflexivity].
      - apply (chr_walk false CDigit h s0 _ Hr0). exact Hh. }
    exists s2. split.
    { apply (chr_walk false (CLit ":") ":" s1 _ Hr1). reflexivity. }
    exists s3. split.
    { apply (chr_walk false (CRange "0" "5") m1 s2 _ Hr2). cbn [char_matches].
      rewrite Hm1. reflexivity. }
    exists s4. split.
    { apply (chr_walk false CDigit m2 s3 _ Hr3). exact Hm2. }
    split; [reflexivity|]. unfold word_before, word_after. rewrite Hv4, Hr4.
    cbn [last_char]. rewrite (is_digit_word m2 Hm2).
    unfold word_start in Hpost. rewrite Hpost. reflexivity.
  - intros pre word post Hpre Hpost Hword.
    unfold hasTimeForScheduling, timeIndicators. cbn [existsb fst snd].
    apply orb_true_iff. right. apply orb_true_iff. right.
    apply orb_true_iff. right. apply orb_true_iff. left.
    set (t := word ++ post).
    set (s0 := walk pre (init_state (pre ++ t))).
    destruct (walk_rest pre (init_state (pre ++ t)) t eq_refl) as (Hr0 & _ & _ & Hv0).
    fold s0 in Hr0, Hv0. unfold t in Hr0.
    set (s1 := walk word s0).
    destruct (walk_rest word s0 post Hr0) as (Hr1 & _ & _ & Hv1).
    fold s1 in Hr1, Hv1.
    assert (Hfacts : word_start word = true
                     /\ exists c, last_char word = Some c /\ is_word c = true).
    { cbn in Hword.
      destruct Hword as [<-|[<-|[<-|[<-|[<-|[]]]]]];
        (split; [reflexivity|eexists; split; reflexivity]). }
    destruct Hfacts as (Hfirst & c & Hlast & Hc).
    apply (test_complete true _ pre t s1); [reflexivity|].
    fold s0. cbn [seqs matches].
    exists s0. split.
    { split; [reflexivity|]. unfold word_before, word_after. rewrite Hv0, Hr0.
      cbn [init_state prev]. unfold word_end in Hpre.
      replace (match match last_char pre with Some c => Some c | None => None end with
               | Some c => is_word c | None => false end) with false
        by (destruct (last_char pre); [symmetry; exact Hpre|reflexivity]).
      unfold t. unfold word_start in Hfirst.
      destruct word as [|x word]; [discriminate|]. cbn [append]. rewrite Hfirst.
      reflexivity. }
    exists s1. split.
    { exact (words_walk true _ word Hword s0 post Hr0). }
    split; [reflexivity|]. unfold word_before, word_after. rewrite Hv1, Hr1, Hlast, Hc.
    unfold word_start in Hpost. rewrite Hpost. reflexivity.
Qed.

Lemma clock_time_is_relevant_witness :
  hasTimeForScheduling "call me at 7 PM please" = true
  /\ hasTimeForScheduling "see you 9:30, ok" = true
  /\ hasTimeForScheduling "tomorrow afternoon" = true.
Proof.
  destruct clock_time_is_relevant as (H12 & H24 & Hword).
  split; [|split].
  - apply (H12 "call me at " "7"%char " " "PM" " please"); [reflexivity|reflexivity|].
    cbn. tauto.
  - apply (H24 "see you " "9"%char "3"%char "0"%char ", ok"); reflexivity.
  - apply (Hword "tomorrow " "afternoon" ""); [reflexivity|reflexivity|].
    cbn. tauto.
Defined.

End MatcherCompleteness.

(* ================================================================== *)
(** ** Keys of the alias table that are found *)
(* ================================================================== *)

Section AliasesFound.

Lemma is_word_lower (c : ascii) : is_word (lower_char c) = is_word c.
Proof. destruct c as [[] [] [] [] [] [] [] []]; reflexivity. Qed.

Lemma last_char_lower (s : string) :
  last_char (toLowerCase s) = option_map lower_char (last_char s).
Proof.
  induction s as [|c s IH]; [reflexivity|].
  destruct s as [|d s]; [reflexivity|].
  change (last_char (String c (String d s))) with (last_char (String d s)).
  rewrite <- IH. reflexivity.
Qed.

Lemma word_end_lower (s : string) : word_end (toLowerCase s) = word_end s.
Proof.
  unfold word_end. rewrite last_char_lower.
  destruct (last_char s); [apply is_word_lower|reflexivity].
Qed.

Lemma word_start_lower (s : string) : word_start (toLowerCase s) = word_start s.
Proof. destruct s; [reflexivity|apply is_word_lower]. Qed.

(** Under the [i] flag a literal matches its own small letters. *)
Lemma lit_walk_lower (key : string) :
  forall s t, rest s = toLowerCase key ++ t ->
              matches true (lit key) s (walk (toLowerCase key) s).
Proof.
  assert (Hc : forall c, char_matches true (CLit c) (lower_char c) = true).
  { intros c. cbn. rewrite lower_char_idem. apply Ascii.eqb_refl. }
  induction key as [|c key IH]; intros s t Hr; [reflexivity|].
  destruct key as [|d key].
  - cbn [lit toLowerCase]. apply (chr_walk true _ (lower_char c) s t Hr). apply Hc.
  - change (lit (String c (String d key))) with (Seq (Chr (CLit c)) (lit (String d key))).
    cbn [matches]. exists (walk (String (lower_char c) "") s). split.
    + apply (chr_walk true _ (lower_char c) s (toLowerCase (String d key) ++ t) Hr).
      apply Hc.
    + change (toLowerCase (String c (String d key)))
        with (String (lower_char c) (toLowerCase (String d key))) in *.
      cbn [walk] in *. cbn [append] in Hr. rewrite Hr. apply (IH _ t). reflexivity.
Qed.

Lemma plain_lit (w : string) : plain (lit w) = true.
Proof.
  induction w as [|c w IH]; [reflexivity|].
  destruct w as [|d w]; [reflexivity|].
  change (lit (String c (String d w))) with (Seq (Chr (CLit c)) (lit (String d w))).
  cbn [plain]. rewrite IH. reflexivity.
Qed.

(** A key that stands in the text as a whole word is found. *)
Lemma alias_found (key pre post : string) :
  word_start key = true -> word_end key = true ->
  word_end pre = false -> word_start post = false ->
  test true (aliasPattern key) (pre ++ toLowerCase key ++ post) = true.
Proof.
  intros Hks Hke Hpre Hpost.
  set (w := toLowerCase key). set (t := w ++ post).
  set (s0 := walk pre (init_state (pre ++ t))).
  destruct (walk_rest pre (init_state (pre ++ t)) t eq_refl) as (Hr0 & _ & _ & Hv0).
  fold s0 in Hr0, Hv0. unfold t in Hr0.
  set (s1 := walk w s0).
  destruct (walk_rest w s0 post Hr0) as (Hr1 & _ & _ & Hv1).
  fold s1 in Hr1, Hv1.
  apply (test_complete true _ pre t s1).
  { unfold aliasPattern. cbn [seqs plain]. rewrite plain_lit. reflexivity. }
  fold s0. unfold aliasPattern. cbn [seqs matches].
  exists s0. split.
  { split; [reflexivity|]. unfold word_before, word_after. rewrite Hv0, Hr0.
    cbn [init_state prev]. unfold word_end in Hpre.
    replace (match match last_char pre with Some c => Some c | None => None end with
             | Some c => is_word c | None => false end) with false
      by (destruct (last_char pre); [symmetry; exact Hpre|reflexivity]).
    rewrite <- word_start_lower in Hks. fold w in Hks. unfold word_start in Hks.
    destruct w as [|x w']; [discriminate|]. cbn [append]. rewrite Hks. reflexivity. }
  exists s1. split; [exact (lit_walk_lower key s0 post Hr0)|].
  split; [reflexivity|]. unfold word_before, word_after. rewrite Hv1, Hr1.
  rewrite <- word_end_lower in Hke. fold w in Hke. unfold word_end in Hke.
  destruct (last_char w) as [c|]; [|discriminate]. rewrite Hke.
  unfold word_start in Hpost. rewrite Hpost. reflexivity.
Qed.

Lemma scanAliases_complete (entries : list (string * string)) (lowerText key zone : string) :
  In (key, zone) entries -> test true (aliasPattern key) lowerText = true ->
  exists key' zone', In (key', zone') entries /\ scanAliases entries lowerText = Some zone'.
Proof.
  induction entries as [|[k z] entries IH]; intros Hin Ht; [contradiction|].
  cbn [scanAliases]. destruct (test true (aliasPattern k) lowerText) eqn:Hk.
  - exists k, z. split; [left; reflexivity|reflexivity].
  - destruct Hin as [Heq|Hin]; [injection Heq as -> ->; rewrite Ht in Hk; discriminate|].
    destruct (IH Hin Ht) as (k' & z' & Hin' & Hs). exists k', z'. split; [right; exact Hin'|exact Hs].
Qed.

(** X18.  A key of the alias table that stands in the text as a whole word
    (it starts and ends with a letter, a digit or an underscore and touches
    none on either side; letter case aside): when no manual offset is found
    in the text, [detectTimezone] returns the zone of an entry of the
    table. *)
Theorem alias_in_text_is_detected (H : Host) (text key zone pre post : string)
        (Hin : In (key, zone) (timezoneMap H))
        (Htext : toLowerCase text = pre ++ toLowerCase key ++ post)
        (Hks : word_start key = true) (Hke : word_end key = true)
        (Hpre : word_end pre = false) (Hpost : word_start post = false)
        (Hoff : scanOffsets offsetPatterns (toLowerCase text) = None) :
  exists key' zone',
    In (key', zone') (timezoneMap H) /\ detectTimezone H text = Some (ZoneId zone').
Proof.
  pose proof (alias_found key pre post Hks Hke Hpre Hpost) as Ht.
  rewrite <- Htext in Ht.
  destruct (scanAliases_complete _ _ _ _ Hin Ht) as (key' & zone' & Hin' & Hs).
  exists key', zone'. split; [exact Hin'|].
  unfold detectTimezone. rewrite Hoff, Hs. reflexivity.
Qed.

Lemma alias_in_text_is_detected_witness :
  exists key' zone',
    In (key', zone') (timezoneMap Example.host)
    /\ detectTimezone Example.host "Friday at noon (EST)" = Some (ZoneId zone').
Proof.
  apply (alias_in_text_is_detected Example.host "Friday at noon (EST)" "est"
           "America/New_York" "friday at noon (" ")").
  - cbn. tauto.
  - reflexivity.
  - reflexivity.
  - reflexivity.
  - reflexivity.
  - reflexivity.
  - vm_compute. reflexivity.
Defined.

End AliasesFound.

(* ================================================================== *)
(** ** A weekday series with a manual offset *)
(* ================================================================== *)

Section ManualOffsetSeries.

(** X19.  On a server whose local time is UTC plus a fixed offset (no
    daylight-saving transitions, so that every wall-clock time exists and
    every local day has 24 hours): the instants of a weekday series for a
    text with a manual offset of [v] minutes and a time with an hour below
    24 and a minute below 60.  Every entry carries the offset, flagged as manual, and is the instant
    of the requested time on the clock of the server moved back by [v]
    minutes.  So the clock of the offset reads the requested time shifted
    by the offset of the server, and the requested time itself on a server
    in UTC; and an entry is after the instant [v] minutes before [now]. *)
Theorem weekday_series_manual_offset (H : Host) (text : string) (c : clock) (n : nat)
        (s e h m v : Z) (entries : list Entry)
        (Hreq : weeklyRequest text = Some (s, e, h, m))
        (Hh : 0 <= h < 24) (Hm : 0 <= m < 60)
        (Hrun : fst (run (parseMultipleDays H text (Some (UTC_OFFSET v))) c n)
                = Some entries) :
  Forall (fun en =>
            e_timezoneInfo en = Some (mkInfo None v true)
            /\ TimeWithinDay (e_jsDate en + v * msPerMinute + LocalTZA H)
               = h * msPerHour + m * msPerMinute
            /\ c n - v * msPerMinute < e_jsDate en < c n - v * msPerMinute + 8 * msPerDay
            /\ e_day en
               = DayName (dayMap_key dayMap
                            (getDay (LocalTZA H) (e_jsDate en + v * msPerMinute)))
            /\ e_unixTimestamp en = unixSeconds (e_jsDate en)) entries
  /\ (LocalTZA H = 0 ->
      Forall (fun en => TimeWithinDay (e_jsDate en + v * msPerMinute)
                        = h * msPerHour + m * msPerMinute) entries).
Proof.
  rewrite run_parseMultipleDays, Hreq in Hrun. cbn [fst] in Hrun. injection Hrun as <-.
  destruct (weeklyRequest_range _ _ _ _ _ Hreq) as (Hs & He & _ & _).
  destruct (daysBetween_walk s e Hs He) as (Hwalk & _).
  assert (Hdays : Forall (fun d => 0 <= d <= 6) (daysBetween s e)).
  { rewrite Hwalk. apply Forall_forall. intros d Hd.
    apply in_map_iff in Hd as (i & <- & _).
    pose proof (Z.mod_pos_bound (s + Z.of_nat i) 7 ltac:(lia)). lia. }
  assert (Hall : Forall (fun en =>
            e_timezoneInfo en = Some (mkInfo None v true)
            /\ TimeWithinDay (e_jsDate en + v * msPerMinute + LocalTZA H)
               = h * msPerHour + m * msPerMinute
            /\ c n - v * msPerMinute < e_jsDate en < c n - v * msPerMinute + 8 * msPerDay
            /\ e_day en
               = DayName (dayMap_key dayMap
                            (getDay (LocalTZA H) (e_jsDate en + v * msPerMinute)))
            /\ e_unixTimestamp en = unixSeconds (e_jsDate en))
          (map (weekdayEntry H (Some (UTC_OFFSET v)) (c n) h m) (daysBetween s e))).
  { apply Forall_forall. intros en Hen. apply in_map_iff in Hen as (d & <- & Hd).
    rewrite Forall_forall in Hdays. specialize (Hdays d Hd).
    destruct (next_occurrence_facts (LocalTZA H) (c n) h m d Hdays Hh Hm)
      as (_ & HT & Hw & Hb & _).
    unfold weekdayEntry, mkSeriesEntry, applySeriesTimezone.
    cbn [truthy fst snd e_jsDate e_day e_unixTimestamp e_timezoneInfo].
    set (t := nextOccurrence (LocalTZA H) (c n) h m d) in *.
    replace (t - v * msPerMinute + v * msPerMinute) with t by lia.
    rewrite Hw. split; [reflexivity|]. split; [exact HT|]. split; [lia|].
    split; reflexivity. }
  split; [exact Hall|].
  intros Hz. eapply Forall_impl; [|exact Hall].
  intros en (_ & HT & _). rewrite Hz in HT.
  replace (e_jsDate en + v * msPerMinute + 0) with (e_jsDate en + v * msPerMinute) in HT
    by lia.
  exact HT.
Qed.

Lemma weekday_series_manual_offset_witness :
  weeklyRequest "Monday 0:15am to Monday utc+5" = Some (1, 1, 0, 15)
  /\ detectTimezone Example.host "Monday 0:15am to Monday utc+5" = Some (UTC_OFFSET 300)
  /\ Forall (fun en => e_timezoneInfo en = Some (mkInfo None 300 true)
                       /\ Example.sunday_noon - 300 * msPerMinute < e_jsDate en)
            (map (weekdayEntry Example.host (Some (UTC_OFFSET 300)) Example.sunday_noon 0 15)
                 (daysBetween 1 1)).
Proof.
  assert (Hreq : weeklyRequest "Monday 0:15am to Monday utc+5" = Some (1, 1, 0, 15))
    by (vm_compute; reflexivity).
  split; [exact Hreq|]. split; [vm_compute; reflexivity|].
  destruct (weekday_series_manual_offset Example.host "Monday 0:15am to Monday utc+5"
              (Example.stopped Example.sunday_noon) 0 1 1 0 15 300
              (map (weekdayEntry Example.host (Some (UTC_OFFSET 300))
                      Example.sunday_noon 0 15) (daysBetween 1 1))
              Hreq ltac:(lia) ltac:(lia)) as (Hall & _).
  { rewrite run_parseMultipleDays, Hreq. reflexivity. }
  eapply Forall_impl; [|exact Hall].
  intros en (Hi & _ & (Hlo & _) & _). split; [exact Hi|exact Hlo].
Defined.

End ManualOffsetSeries.

(* ================================================================== *)
(** ** The date range of the second revision *)
(* ================================================================== *)

Section SecondDateRange.

Lemma is_space_lower (c : ascii) : is_space (lower_char c) = is_space c.
Proof. destruct c as [[] [] [] [] [] [] [] []]; reflexivity. Qed.

Lemma is_line_terminator_lower (c : ascii) :
  is_line_terminator (lower_char c) = is_line_terminator c.
Proof. destruct c as [[] [] [] [] [] [] [] []]; reflexivity. Qed.

Lemma upper_lower (c : ascii) :
  (lower_char c = c /\ upper_char (lower_char c) = upper_char c)
  \/ (upper_char (lower_char c) = c /\ upper_char c = c).
Proof. destruct c as [[] [] [] [] [] [] [] []]; vm_compute; auto. Qed.

(** Under the [i] flag a character and its small letter match the same
    sets. *)
Lemma char_matches_lower (cs : charset) (c : ascii) :
  char_matches true cs (lower_char c) = char_matches true cs c.
Proof.
  destruct cs as [| | |d|l|lo hi]; cbn [char_matches canon].
  - apply is_digit_lower.
  - apply is_space_lower.
  - rewrite is_line_terminator_lower. reflexivity.
  - rewrite lower_char_idem. reflexivity.
  - induction l as [|d l IH]; [reflexivity|].
    cbn [mem_char canon]. rewrite lower_char_idem, IH. reflexivity.
  - rewrite lower_char_idem. cbn [andb].
    destruct (upper_lower c) as [(E1 & E2)|(E1 & E2)].
    + rewrite E2, E1. reflexivity.
    + rewrite E1, E2.
      destruct (in_range lo hi (lower_char c)), (in_range lo hi c); reflexivity.
Qed.

Lemma lower_state_advance (c : ascii) (r : string) (s : mstate) :
  lower_state (advance c r s) = advance (lower_char c) (toLowerCase r) (lower_state s).
Proof. reflexivity. Qed.

Lemma iterP_lower (R R' : mstate -> mstate -> Prop) :
  (forall s s', R s s' -> R' (lower_state s) (lower_state s')) ->
  forall n s s', iterP R n s s' -> iterP R' n (lower_state s) (lower_state s').
Proof.
  intros HR. induction n as [|n IH]; intros s s' Hi; cbn [iterP] in *.
  - rewrite Hi. reflexivity.
  - destruct Hi as (s1 & H1 & H2). exists (lower_state s1). auto.
Qed.

(** A match under the [i] flag is a match of the lower-cased text. *)
Lemma matches_lower (r : regex) :
  forall s s', matches true r s s' ->
               matches true (ungroup r) (lower_state s) (lower_state s').
Proof.
  induction r as [|cs|r1 IH1 r2 IH2|r1 IH1 r2 IH2|g lo hi r IH|i r IH| |r IH|];
    intros s s' Hm; cbn [matches ungroup] in *.
  - rewrite Hm. reflexivity.
  - destruct Hm as (c & r' & Hr & Hc & ->).
    exists (lower_char c), (toLowerCase r'). split; [|split].
    + cbn [lower_state rest]. rewrite Hr. reflexivity.
    + rewrite char_matches_lower. exact Hc.
    + reflexivity.
  - destruct Hm as (s1 & H1 & H2). exists (lower_state s1). auto.
  - destruct Hm as [Hm|Hm]; auto.
  - destruct Hm as (n & Hlo & Hhi & Hi). exists n. split; [exact Hlo|].
    split; [exact Hhi|]. exact (iterP_lower _ _ IH n s s' Hi).
  - destruct Hm as (s1 & H1 & ->). exact (IH _ _ H1).
  - destruct Hm as (-> & Hx). split; [reflexivity|].
    unfold word_before, word_after in *. cbn [lower_state prev rest].
    destruct (prev s) as [p|]; destruct (rest s) as [|a t]; cbn [option_map toLowerCase];
      rewrite ?is_word_lower; exact Hx.
  - rewrite Hm. reflexivity.
  - destruct Hm as (-> & Hp). split; [reflexivity|exact Hp].
Qed.

Lemma lower_state_walk (w : string) :
  forall s, lower_state (walk w s) = walk (toLowerCase w) (lower_state s).
Proof.
  induction w as [|c w IH]; intros s; [reflexivity|].
  cbn [walk toLowerCase].
  change (rest (lower_state s)) with (toLowerCase (rest s)).
  destruct (rest s) as [|a t] eqn:Hr; cbn [toLowerCase].
  - reflexivity.
  - rewrite IH. reflexivity.
Qed.

(** The state a search starts its match from is the one the text before
    the match leads to. *)
Lemma search_walk (ic : bool) (r : regex) (input : string) :
  forall fuel s m,
    caps s = [] ->
    search ic r input fuel s = Some m ->
    exists mid t e, rest s = mid ++ t /\ matches ic r (walk mid s) e.
Proof.
  assert (Heta : forall s, caps s = [] -> MState (pos s) (prev s) (rest s) [] = s)
    by (intros [p pv rs cs] Hc; cbn in Hc; subst cs; reflexivity).
  induction fuel as [|fuel IH]; intros s m Hc Hs; cbn [search] in Hs;
    rewrite (Heta s Hc) in Hs.
  - destruct (rmatch ic r Some s) as [e|] eqn:Hm; [|destruct (rest s); discriminate].
    apply rmatch_sound in Hm as (e' & Hm & _).
    exists "", (rest s), e'. split; [reflexivity|exact Hm].
  - destruct (rmatch ic r Some s) as [e|] eqn:Hm.
    + apply rmatch_sound in Hm as (e' & Hm & _).
      exists "", (rest s), e'. split; [reflexivity|exact Hm].
    + destruct (rest s) as [|c r'] eqn:Hr; [discriminate|].
      apply IH in Hs as (mid & t & e & Hr' & Hm'); [|exact Hc].
      cbn [advance rest] in Hr'.
      exists (String c mid), t, e. split; [cbn; rewrite Hr'; reflexivity|].
      cbn [walk]. rewrite Hr. exact Hm'.
Qed.

Lemma seq_prefix (ic : bool) (a b c d e f g rest : regex) (s s' : mstate) :
  matches ic (Seq a (Seq b (Seq c (Seq d (Seq e (Seq f (Seq g rest))))))) s s' ->
  exists s7, matches ic (Seq a (Seq b (Seq c (Seq d (Seq e (Seq f g)))))) s s7.
Proof.
  cbn [matches].
  intros (s1 & H1 & s2 & H2 & s3 & H3 & s4 & H4 & s5 & H5 & s6 & H6 & s7 & H7 & _).
  exists s7, s1. split; [exact H1|]. exists s2. split; [exact H2|].
  exists s3. split; [exact H3|]. exists s4. split; [exact H4|].
  exists s5. split; [exact H5|]. exists s6. split; [exact H6|exact H7].
Qed.

(** Every text [parseDateRange] expands holds a match of the date-range
    pattern of [adjustToFuture]. *)
Lemma date_range_text (text : string) (req : Z * Z * Z * Z) :
  dateRangeRequest text = Some req ->
  test true Second.dateRangePattern (toLowerCase text) = true.
Proof.
  unfold dateRangeRequest. destruct (exec true dateRangePattern text) as [m|] eqn:He;
    [intros _|discriminate].
  unfold exec in He.
  apply search_walk in He as (mid & t & e & Hr & Hm); [|reflexivity].
  cbn [init_state rest] in Hr. rewrite Hr at 1.
  apply matches_lower in Hm.
  rewrite lower_state_walk in Hm.
  change (lower_state (init_state text)) with (init_state (toLowerCase text)) in Hm.
  rewrite Hr, toLowerCase_app in Hm. rewrite toLowerCase_app.
  apply (seq_prefix true d12 (opt ordinal_suffix) (plus ws) (lit "to") (plus ws)
           d12 (opt ordinal_suffix)) in Hm as (s7 & Hm).
  exact (test_complete true Second.dateRangePattern _ _ s7 eq_refl Hm).
Qed.

(** A day of the range that is more than one hour old goes to the next
    month, unless the text names a weekday or the weekend. *)
Lemma second_range_policy (tza now jsDate : Z) (text : string) (req : Z * Z * Z * Z) :
  dateRangeRequest text = Some req ->
  test true dayOfWeekPattern (toLowerCase text) = false ->
  test true Second.weekendPattern (toLowerCase text) = false ->
  Second.adjustToFutureAt tza now jsDate text false None
  = if jsDate <? now - msPerHour
    then setMonth tza jsDate (getMonth tza jsDate + 1)
    else jsDate.
Proof.
  intros Hreq Hw1 Hw2. unfold Second.adjustToFutureAt.
  rewrite Hw1, Hw2, (date_range_text text req Hreq). reflexivity.
Qed.

(** X16.  On a server whose local time is UTC plus a fixed offset (no
    daylight-saving transitions): [parseDateRange] of the second revision
    of [src/unnamed/part_000], which calls the [adjustToFuture] of that
    revision, with the clock stopped at [now], for a text that names
    neither a weekday nor the weekend, a range whose first day is at least
    1, a time with an hour below 24 and a minute below 60, no timezone,
    and a clock in the year 100 or later.  There is one entry for every
    day from the first to the last.  A day whose time in the current month
    is at most one hour before [now] keeps it; every other day is moved to
    the next month, never by one week: the text of a date range always
    holds a match of the date-range pattern of the policy, which is tried
    before the age of the instant is looked at.  (On 25 June at noon, the
    20th at 10pm becomes 20 July, although 27 June is after [now].)  So no
    entry is more than one hour before [now]. *)
Theorem second_date_range_not_in_the_past
        (H : Host) (text : string) (now : Z)
        (s e h m : Z) (results : list Entry)
        (Hreq : dateRangeRequest text = Some (s, e, h, m))
        (Hs : 1 <= s) (Hh : 0 <= h < 24) (Hm : 0 <= m < 60)
        (Hy : 100 <= getFullYear (LocalTZA H) now)
        (Hweekday : test true dayOfWeekPattern (toLowerCase text) = false)
        (Hweekend : test true Second.weekendPattern (toLowerCase text) = false)
        (Hrun : run_at now (Second.parseDateRange H text None) = Some results) :
  let tza := LocalTZA H in
  List.length results = Z.to_nat (e - s + 1)
  /\ Forall (fun en => now - msPerHour <= e_jsDate en) results
  /\ results
     = map (fun day =>
              let target := newDate tza (getFullYear tza now) (getMonth tza now)
                              day h m 0 0 in
              let final := if target <? now - msPerHour
                           then setMonth tza target (getMonth tza target + 1)
                           else target in
              mkEntry (DayNumber day) final None (unixSeconds final))
           (dayRange s e).
Proof.
  intros tza.
  unfold Second.parseDateRange in Hrun. rewrite Hreq in Hrun.
  cbn [bind new_Date run_at] in Hrun. rewrite run_at_bind, run_at_mapM in Hrun.
  cbn [run_at] in Hrun. injection Hrun as <-.
  assert (Hentry : forall day,
             run_at now (Second.dateEntry H text None (getFullYear tza now)
                           (getMonth tza now) h m day)
             = let target := newDate tza (getFullYear tza now) (getMonth tza now)
                               day h m 0 0 in
               let final := if target <? now - msPerHour
                            then setMonth tza target (getMonth tza target + 1)
                            else target in
               mkEntry (DayNumber day) final None (unixSeconds final)).
  { intros day. unfold Second.dateEntry, Second.adjustToFuture.
    cbn [bind new_Date run_at mkSeriesEntry applySeriesTimezone truthy fst snd].
    fold tza. rewrite (second_range_policy tza now _ text _ Hreq Hweekday Hweekend).
    reflexivity. }
  fold tza.
  split; [rewrite length_map; apply dayRange_length|].
  split.
  - apply Forall_forall. intros en Hen. apply in_map_iff in Hen as (day & <- & Hday).
    unfold dayRange in Hday. apply in_map_iff in Hday as (i & <- & _).
    unfold Second.dateEntry, Second.adjustToFuture.
    cbn [bind new_Date run_at mkSeriesEntry applySeriesTimezone truthy fst e_jsDate].
    apply (second_target (LocalTZA H) now h m (s + Z.of_nat i) text);
      [lia|exact Hh|exact Hm|exact Hy|exact Hweekday|exact Hweekend].
  - apply map_ext. exact Hentry.
Qed.

(** On Tuesday 25 June 2024 at noon, from the 20th to the 27th at 10pm:
    the 20th to the 24th of July, then the 25th to the 27th of June. *)
Lemma second_date_range_not_in_the_past_witness :
  dateRangeRequest "from 20th to 27th at 10pm" = Some (20, 27, 22, 0)
  /\ exists results,
      run_at Example.tuesday_noon
        (Second.parseDateRange Example.host "from 20th to 27th at 10pm" None)
      = Some results
      /\ List.length results = 8%nat
      /\ Forall (fun en => Example.tuesday_noon - msPerHour <= e_jsDate en) results
      /\ map e_unixTimestamp results
         = [1721512800; 1721599200; 1721685600; 1721772000; 1721858400;
            1719352800; 1719439200; 1719525600].
Proof.
  assert (Hreq : dateRangeRequest "from 20th to 27th at 10pm" = Some (20, 27, 22, 0))
    by (vm_compute; reflexivity).
  split; [exact Hreq|].
  assert (Hrun : run_at Example.tuesday_noon
                   (Second.parseDateRange Example.host "from 20th to 27th at 10pm" None)
                 = Some (map (fun day =>
                               run_at Example.tuesday_noon
                                 (Second.dateEntry Example.host "from 20th to 27th at 10pm"
                                    None (getFullYear 0 Example.tuesday_noon)
                                    (getMonth 0 Example.tuesday_noon) 22 0 day))
                             (dayRange 20 27))).
  { unfold Second.parseDateRange. rewrite Hreq.
    cbn [bind new_Date run_at]. rewrite run_at_bind, run_at_mapM. reflexivity. }
  eexists. split; [exact Hrun|].
  destruct (second_date_range_not_in_the_past Example.host "from 20th to 27th at 10pm"
              Example.tuesday_noon 20 27 22 0 _ Hreq ltac:(lia) ltac:(lia) ltac:(lia)
              ltac:(vm_compute; discriminate) ltac:(vm_compute; reflexivity)
              ltac:(vm_compute; reflexivity) Hrun) as (Hlen & Hall & Heq).
  split; [exact Hlen|]. split; [exact Hall|].
  rewrite Heq. vm_compute. reflexivity.
Defined.

End SecondDateRange.
